(** * MiniClaw gateway: a shallow embedding of the protocol runtime

    The development follows [src/server.ts] (the [MiniClawServer] class) and
    [src/conversation-logger.ts] (the disk logger).  The server is embedded
    with explicit state passing: every method of the class becomes a function
    from a [Server] value to a [Server] value, and every call on a socket
    ([ws.send], [ws.close]) is recorded in a wire log.

    - JavaScript strings are modelled by [string]; a character is one code
      unit, restricted here to eight bits.
    - [Date.now()] is an explicit argument [now : Z] (milliseconds) of each
      entry point.
    - [Map<string, V>] objects whose iteration order is never observed are
      [gmap string V]; the idempotency map, whose insertion order decides
      eviction, is an association list. *)

From Stdlib Require Import ZArith Ascii String List Bool Lia.
From stdpp Require Import base option list strings gmap fin_maps relations.

Local Open Scope string_scope.
Local Open Scope list_scope.
Local Open Scope Z_scope.

(* ===================================================================== *)
(** ** JavaScript string primitives used by the server *)
(* ===================================================================== *)

Module JS.

(** [!s] on a possibly-undefined string: undefined and the empty string
    are falsy. *)
Definition truthy (s : option string) : bool :=
  match s with
  | Some s => negb (String.eqb s "")
  | None => false
  end.

(** [a ?? b] *)
Definition nullish {A} (a : option A) (b : A) : A :=
  match a with Some x => x | None => b end.

Definition code (c : ascii) : nat := nat_of_ascii c.

(** White space removed by [String.prototype.trim], among eight-bit code
    units: TAB, LF, VT, FF, CR, SPACE and NBSP. *)
Definition isWhiteSpace (c : ascii) : bool :=
  let n := code c in
  ((9 <=? n) && (n <=? 13) || (n =? 32) || (n =? 160))%nat.

Fixpoint trimStartChars (l : list ascii) : list ascii :=
  match l with
  | c :: r => if isWhiteSpace c then trimStartChars r else l
  | [] => []
  end.

Definition trimChars (l : list ascii) : list ascii :=
  rev (trimStartChars (rev (trimStartChars l))).

Definition trim (s : string) : string :=
  string_of_list_ascii (trimChars (list_ascii_of_string s)).

(** [String.prototype.toLowerCase] on eight-bit code units: A-Z and the
    Latin-1 capitals (except the multiplication sign) move up by 32. *)
Definition lowerChar (c : ascii) : ascii :=
  let n := code c in
  if ((65 <=? n) && (n <=? 90) ||
      (192 <=? n) && (n <=? 222) && negb (n =? 215))%nat
  then ascii_of_nat (n + 32) else c.

Fixpoint toLowerCase (s : string) : string :=
  match s with
  | EmptyString => EmptyString
  | String c r => String (lowerChar c) (toLowerCase r)
  end.

(** [s.startsWith(p)] *)
Definition startsWith (s p : string) : bool := String.prefix p s.

(** [s.slice(n)] for [0 <= n] *)
Fixpoint sliceFrom (n : nat) (s : string) : string :=
  match n, s with
  | O, _ => s
  | S n, String _ r => sliceFrom n r
  | S _, EmptyString => EmptyString
  end.

(** [s.slice(0, n)] for [0 <= n] *)
Definition sliceTo (n : nat) (s : string) : string := String.substring 0 n s.

(** [s.split(" ")[0]] *)
Fixpoint firstWord (s : string) : string :=
  match s with
  | EmptyString => EmptyString
  | String c r => if Ascii.eqb c " " then EmptyString else String c (firstWord r)
  end.

Definition digit36 (d : nat) : ascii :=
  if (d <? 10)%nat then ascii_of_nat (48 + d) else ascii_of_nat (87 + d).

Fixpoint toString36_aux (fuel n : nat) (acc : string) : string :=
  match fuel with
  | O => acc
  | S fuel =>
      let acc := String (digit36 (n mod 36)) acc in
      if (n <? 36)%nat then acc else toString36_aux fuel (n / 36) acc
  end.

(** [n.toString(36)] for a non-negative integer *)
Definition toString36 (n : nat) : string := toString36_aux (S n) n "".

Definition digit10 (d : Z) : string :=
  String (ascii_of_nat (48 + Z.to_nat (d mod 10))) "".

Definition pad2 (n : Z) : string := digit10 (n / 10) +:+ digit10 n.
Definition pad4 (n : Z) : string := pad2 (n / 100) +:+ pad2 n.

End JS.

(* ===================================================================== *)
(** ** Data model ([src/server.ts], [src/types.ts]) *)
(* ===================================================================== *)

Inductive Role := RUser | RAssistant.

Inductive ContentPart :=
| TextPart (text : string)
| ThinkingPart (thinking : string)
| ToolCallPart (name toolCallId arguments : string) (isError : bool)
               (result : string).

Record HistoryEntry := mkHistoryEntry {
  role : Role;
  content : list ContentPart;
  timestamp : Z;
  stopReason : option string;
  model : option string;
  provider : option string;
}.

(* ===================================================================== *)
(** ** Conversation logger ([src/conversation-logger.ts]) *)
(* ===================================================================== *)

Module ConversationLogger.

(** The character class [[a-zA-Z0-9_-]]. *)
Definition safeChar (c : ascii) : bool :=
  let n := JS.code c in
  ((97 <=? n) && (n <=? 122) || (65 <=? n) && (n <=? 90) ||
   (48 <=? n) && (n <=? 57) || (n =? 95) || (n =? 45))%nat.

(** [key.replace(/[^a-zA-Z0-9_-]/g, "-")]: every match is one code unit and
    is replaced by the string ["-"]. *)
Fixpoint replaceUnsafe (key : string) : string :=
  match key with
  | EmptyString => EmptyString
  | String c r =>
      (if safeChar c then String c EmptyString else "-") +:+ replaceUnsafe r
  end.

Definition sanitizeKey (key : string) : string :=
  JS.sliceTo 64 (replaceUnsafe key).

(** [new Date(ts).toISOString().slice(0, 10)], by the civil-from-days
    computation; exact for the years 0000 to 9999. *)
Definition isoDate (ts : Z) : string :=
  let z := ts / 86400000 + 719468 in
  let era := z / 146097 in
  let doe := z - era * 146097 in
  let yoe := (doe - doe / 1460 + doe / 36524 - doe / 146096) / 365 in
  let doy := doe - (365 * yoe + yoe / 4 - yoe / 100) in
  let mp := (5 * doy + 2) / 153 in
  let d := doy - (153 * mp + 2) / 5 + 1 in
  let m := if mp <? 10 then mp + 3 else mp - 9 in
  let y := yoe + era * 400 + (if m <=? 2 then 1 else 0) in
  JS.pad4 y +:+ "-" +:+ JS.pad2 m +:+ "-" +:+ JS.pad2 d.

(** The object [{ session: sessionKey, ...entry }] that [JSON.stringify]
    turns into one line of the log. *)
Record LogLine := mkLogLine {
  session : string;
  entry : HistoryEntry;
}.

(** The logger owns a directory; the files below it are modelled as a map
    from file name to the lines appended so far. *)
Record t := mkLogger {
  dir : string;
  files : gmap string (list LogLine);
}.

(** [join(dir, name)], for a directory without a trailing separator *)
Definition join (dir name : string) : string := dir +:+ "/" +:+ name.

Definition filenameFor (lg : t) (sessionKey : string) (e : HistoryEntry) : string :=
  let date := isoDate (timestamp e) in
  let safe := sanitizeKey sessionKey in
  join (dir lg) (safe +:+ "-" +:+ date +:+ ".jsonl").

(** [appendFileSync(filename, line)] creates the file when it is missing. *)
Definition appendFileSync (filename : string) (line : LogLine)
    (fs : gmap string (list LogLine)) : gmap string (list LogLine) :=
  <[filename := JS.nullish (fs !! filename) [] ++ [line]]> fs.

Definition append (lg : t) (sessionKey : string) (e : HistoryEntry) : t :=
  let filename := filenameFor lg sessionKey e in
  let line := {| session := sessionKey; entry := e |} in
  {| dir := dir lg; files := appendFileSync filename line (files lg) |}.

End ConversationLogger.

(* ===================================================================== *)
(** ** Idempotency deduplication ([idempotencyKeys], §2.8) *)
(* ===================================================================== *)

Module Dedupe.

(** [Map<string, number>] in insertion order: key and first-seen time. *)
Definition t := list (string * Z).

Fixpoint get (k : string) (m : t) : option Z :=
  match m with
  | [] => None
  | (k', ts) :: r => if String.eqb k' k then Some ts else get k r
  end.

Fixpoint delete (k : string) (m : t) : t :=
  match m with
  | [] => []
  | (k', ts) :: r => if String.eqb k' k then r else (k', ts) :: delete k r
  end.

(** [Map.prototype.set]: an existing key keeps its position. *)
Fixpoint set (k : string) (v : Z) (m : t) : t :=
  match m with
  | [] => [(k, v)]
  | (k', ts) :: r =>
      if String.eqb k' k then (k', v) :: r else (k', ts) :: set k v r
  end.

Definition size (m : t) : Z := Z.of_nat (length m).

(** [m.keys().next().value] *)
Definition oldestKey (m : t) : option string :=
  match m with
  | [] => None
  | (k, _) :: _ => Some k
  end.

(** [isDuplicateKey]: the answer and the map after the lazy purge. *)
Definition isDuplicateKey (dedupeTtlMs now : Z) (key : string) (m : t) : bool * t :=
  match get key m with
  | None => (false, m)
  | Some ts =>
      if now - ts >? dedupeTtlMs then (false, delete key m) else (true, m)
  end.

Definition recordIdempotencyKey (dedupeMaxKeys now : Z) (key : string) (m : t) : t :=
  let m :=
    if size m >=? dedupeMaxKeys then
      match oldestKey m with
      | Some oldest => if JS.truthy (Some oldest) then delete oldest m else m
      | None => m
      end
    else m in
  set key now m.

(** The sweeper started by [startDedupeCleanup]. *)
Definition sweep (dedupeTtlMs now : Z) (m : t) : t :=
  List.filter (fun e => negb (now - snd e >? dedupeTtlMs)) m.

End Dedupe.

(* ===================================================================== *)
(** ** Runs, frames and the server state ([src/server.ts]) *)
(* ===================================================================== *)

Inductive RunState := Running | Completed | Errored | Aborted.

(** The closures pushed on [run.waitResolvers]: the one of [handleAgentWait]
    captures the socket, the request id and its timeout timer; the one of
    [chatAndWait] captures the promise it resolves. *)
Inductive Waiter :=
| SocketWaiter (ws : nat) (id : string) (timer : nat)
| PromiseWaiter (promise : nat).

Module Run.
Record t := mk {
  runId : string;
  sessionKey : string;
  message : string;
  seq : nat;
  state : RunState;
  accumulatedText : string;
  accumulatedThinking : string;
  aborted : bool;                 (* abortController.signal.aborted *)
  waitResolvers : list Waiter;
}.

Definition setState (st : RunState) (r : t) : t :=
  mk (runId r) (sessionKey r) (message r) (seq r) st (accumulatedText r)
     (accumulatedThinking r) (aborted r) (waitResolvers r).
Definition setSeq (n : nat) (r : t) : t :=
  mk (runId r) (sessionKey r) (message r) n (state r) (accumulatedText r)
     (accumulatedThinking r) (aborted r) (waitResolvers r).
Definition setText (txt : string) (r : t) : t :=
  mk (runId r) (sessionKey r) (message r) (seq r) (state r) txt
     (accumulatedThinking r) (aborted r) (waitResolvers r).
Definition setAborted (b : bool) (r : t) : t :=
  mk (runId r) (sessionKey r) (message r) (seq r) (state r) (accumulatedText r)
     (accumulatedThinking r) b (waitResolvers r).
Definition setWaiters (w : list Waiter) (r : t) : t :=
  mk (runId r) (sessionKey r) (message r) (seq r) (state r) (accumulatedText r)
     (accumulatedThinking r) (aborted r) w.
End Run.

Record PresenceEntry := mkPresence {
  host : string;
  version : string;
  instanceId : string;
  roles : option string;
}.

Record SessionSummary := mkSummary {
  summaryKey : string;
  summaryLabel : option string;
  messageCount : nat;
}.

(** The payload of an [ok] response, one constructor per shape the handlers
    build. *)
Inductive Payload :=
| PHelloOk (connId : string) (methods : list string)
           (presence : list PresenceEntry) (authMode : string)
| PStub (todo : string)
| PRunStarted (runId : string) (sessionKey : option string)
| PAborted (runId : string)
| PHistory (sessionKey : string) (messages : list HistoryEntry)
| PInjected (sessionKey : string)
| PSubscribed
| PRunResult (runId : string) (state : RunState) (text : string)
| PSessions (sessions : list SessionSummary)
| PPatched (key : string)
| PReset (sessionKey : string)
| PDeleted (key : string)
| PConfig (serverVersion : string)
| PModels (model provider : string)
| PSent (to : string)
| PHealth (presenceVersion healthVersion : nat)
| PStatus (connectedClients activeSessions activeRuns : nat)
| PPresence (presence : list PresenceEntry)
| PLogs.

Inductive ChatState := Delta | Final | ChatError.

Inductive AgentData :=
| LifecycleStart
| LifecycleEnd
| LifecycleError (error : string)
| StreamData (text delta : string).

Inductive EventBody :=
| ConnectChallenge (nonce : string)
| AgentEvent (runId sessionKey : string) (seq : nat) (stream : string)
             (data : AgentData)
| ChatMessage (runId sessionKey : string) (seq : nat) (state : ChatState)
              (content : list ContentPart)
| ChatFailure (runId sessionKey : string) (seq : nat) (errorMessage : string)
| Greeting (sessionKey text : string)
| PresenceEvent (presence : list PresenceEntry) (presenceVersion : nat)
| TickEvent (ts : Z)
| HealthEvent (presenceVersion healthVersion : nat)
| ShutdownEvent (reason : string).

Inductive Frame :=
| Hello (sessionId : string)
| ResOk (id : string) (payload : Payload)
| ResErr (id : string) (code message : string)
| Event (seq : nat) (body : EventBody).

(** What the server did to a socket, in the order it did it. *)
Inductive Wire :=
| Send (ws : nat) (f : Frame)
| Close (ws : nat) (code : nat) (reason : string).

Module Params.
(** The fields of [frame.params] the handlers read (the [*Params]
    interfaces of [src/types.ts]); an absent field is [None]. *)
Record t := mk {
  sessionKey : option string;
  message : option string;
  idempotencyKey : option string;
  limit : option Z;
  runId : option string;
  timeoutMs : option Z;
  key : option string;
  label : option (option string);       (* undefined, null or a string *)
  to : option string;
  clientId : option string;
  clientVersion : option string;
  clientDisplayName : option string;
  minProtocol : option Z;
  maxProtocol : option Z;
  authToken : option string;
  authPassword : option string;
  role : option string;
}.

Definition empty : t :=
  mk None None None None None None None None None None None None None None
     None None None.
End Params.

Record RequestFrame := mkRequest {
  ftype : option string;
  fid : option string;
  fmethod : option string;
  fparams : option Params.t;
}.

(** What [JSON.parse] makes of a text: it throws, or it returns [null], on
    which reading a property throws, or it returns another value, of which
    [handleMessage] reads the properties [type], [id], [method] and
    [params] (all undefined on a number, a string, a boolean or an
    array). *)
Inductive Parsed :=
| SyntaxError
| JsonNull
| JsonValue (frame : RequestFrame).

(** A text message as [handleMessage] sees it: its length and what
    [JSON.parse] makes of it. *)
Record RawMessage := mkRaw {
  rawLength : Z;
  parsed : Parsed;
}.

Record ConnectionData := mkConn {
  connId : string;
  authenticated : bool;
  challengeSent : bool;
  nonce : string;
}.

Record SessionMeta := mkMeta {
  metaLabel : option string;
  createdAt : Z;
  lastActiveAt : Z;
}.

Inductive Timer :=
| HandshakeTimer (ws : nat)
| WaitTimer (ws : nat) (id : string).

Record ResolvedConfig := mkConfig {
  authToken : string;
  authPassword : string;
  serverVersion : string;
  maxPayload : Z;
  dedupeMaxKeys : Z;
  dedupeTtlMs : Z;
  greeting : option string;
  logDir : option string;
}.

Definition PROTOCOL_VERSION : Z := 3.
Definition DEFAULT_MAX_PAYLOAD : Z := 26214400.
Definition DEFAULT_DEDUPE_TTL_MS : Z := 300000.
Definition DEFAULT_DEDUPE_MAX : Z := 1000.
Definition SESSION_LABEL_MAX_LENGTH : nat := 64.

Record Server := mkServer {
  config : ResolvedConfig;
  conns : gmap nat ConnectionData;        (* ws.data of every socket *)
  clients : list nat;
  presence : list PresenceEntry;
  presenceVersion : nat;
  healthVersion : nat;
  runs : gmap string Run.t;
  chatHistory : gmap string (list HistoryEntry);
  idempotencyKeys : Dedupe.t;
  handshakeTimeouts : gmap nat nat;
  timers : gmap nat Timer;                (* pending setTimeout callbacks *)
  timerCounter : nat;
  connCounter : nat;
  runCounter : nat;
  globalSeq : nat;
  sessionMeta : gmap string SessionMeta;
  onAgentRun : bool;                      (* an external handler is set *)
  currentModel : string;
  currentProvider : string;
  logger : option ConversationLogger.t;
  promises : list (nat * string);         (* settled chatAndWait promises *)
  promiseCounter : nat;
  wire : list Wire;
}.

(** Field updates of the server object. *)
Definition with_conns v (s : Server) : Server :=
  mkServer (config s) v (clients s) (presence s) (presenceVersion s)
    (healthVersion s) (runs s) (chatHistory s) (idempotencyKeys s)
    (handshakeTimeouts s) (timers s) (timerCounter s) (connCounter s)
    (runCounter s) (globalSeq s) (sessionMeta s) (onAgentRun s)
    (currentModel s) (currentProvider s) (logger s) (promises s)
    (promiseCounter s) (wire s).
Definition with_clients v (s : Server) : Server :=
  mkServer (config s) (conns s) v (presence s) (presenceVersion s)
    (healthVersion s) (runs s) (chatHistory s) (idempotencyKeys s)
    (handshakeTimeouts s) (timers s) (timerCounter s) (connCounter s)
    (runCounter s) (globalSeq s) (sessionMeta s) (onAgentRun s)
    (currentModel s) (currentProvider s) (logger s) (promises s)
    (promiseCounter s) (wire s).
Definition with_presence v (s : Server) : Server :=
  mkServer (config s) (conns s) (clients s) v (presenceVersion s)
    (healthVersion s) (runs s) (chatHistory s) (idempotencyKeys s)
    (handshakeTimeouts s) (timers s) (timerCounter s) (connCounter s)
    (runCounter s) (globalSeq s) (sessionMeta s) (onAgentRun s)
    (currentModel s) (currentProvider s) (logger s) (promises s)
    (promiseCounter s) (wire s).
Definition with_presenceVersion v (s : Server) : Server :=
  mkServer (config s) (conns s) (clients s) (presence s) v
    (healthVersion s) (runs s) (chatHistory s) (idempotencyKeys s)
    (handshakeTimeouts s) (timers s) (timerCounter s) (connCounter s)
    (runCounter s) (globalSeq s) (sessionMeta s) (onAgentRun s)
    (currentModel s) (currentProvider s) (logger s) (promises s)
    (promiseCounter s) (wire s).
Definition with_healthVersion v (s : Server) : Server :=
  mkServer (config s) (conns s) (clients s) (presence s)
    (presenceVersion s) v (runs s) (chatHistory s) (idempotencyKeys s)
    (handshakeTimeouts s) (timers s) (timerCounter s) (connCounter s)
    (runCounter s) (globalSeq s) (sessionMeta s) (onAgentRun s)
    (currentModel s) (currentProvider s) (logger s) (promises s)
    (promiseCounter s) (wire s).
Definition with_runs v (s : Server) : Server :=
  mkServer (config s) (conns s) (clients s) (presence s)
    (presenceVersion s) (healthVersion s) v (chatHistory s)
    (idempotencyKeys s) (handshakeTimeouts s) (timers s) (timerCounter
    s) (connCounter s) (runCounter s) (globalSeq s) (sessionMeta s)
    (onAgentRun s) (currentModel s) (currentProvider s) (logger s)
    (promises s) (promiseCounter s) (wire s).
Definition with_chatHistory v (s : Server) : Server :=
  mkServer (config s) (conns s) (clients s) (presence s)
    (presenceVersion s) (healthVersion s) (runs s) v (idempotencyKeys s)
    (handshakeTimeouts s) (timers s) (timerCounter s) (connCounter s)
    (runCounter s) (globalSeq s) (sessionMeta s) (onAgentRun s)
    (currentModel s) (currentProvider s) (logger s) (promises s)
    (promiseCounter s) (wire s).
Definition with_idempotencyKeys v (s : Server) : Server :=
  mkServer (config s) (conns s) (clients s) (presence s)
    (presenceVersion s) (healthVersion s) (runs s) (chatHistory s) v
    (handshakeTimeouts s) (timers s) (timerCounter s) (connCounter s)
    (runCounter s) (globalSeq s) (sessionMeta s) (onAgentRun s)
    (currentModel s) (currentProvider s) (logger s) (promises s)
    (promiseCounter s) (wire s).
Definition with_handshakeTimeouts v (s : Server) : Server :=
  mkServer (config s) (conns s) (clients s) (presence s)
    (presenceVersion s) (healthVersion s) (runs s) (chatHistory s)
    (idempotencyKeys s) v (timers s) (timerCounter s) (connCounter s)
    (runCounter s) (globalSeq s) (sessionMeta s) (onAgentRun s)
    (currentModel s) (currentProvider s) (logger s) (promises s)
    (promiseCounter s) (wire s).
Definition with_timers v (s : Server) : Server :=
  mkServer (config s) (conns s) (clients s) (presence s)
    (presenceVersion s) (healthVersion s) (runs s) (chatHistory s)
    (idempotencyKeys s) (handshakeTimeouts s) v (timerCounter s)
    (connCounter s) (runCounter s) (globalSeq s) (sessionMeta s)
    (onAgentRun s) (currentModel s) (currentProvider s) (logger s)
    (promises s) (promiseCounter s) (wire s).
Definition with_timerCounter v (s : Server) : Server :=
  mkServer (config s) (conns s) (clients s) (presence s)
    (presenceVersion s) (healthVersion s) (runs s) (chatHistory s)
    (idempotencyKeys s) (handshakeTimeouts s) (timers s) v (connCounter
    s) (runCounter s) (globalSeq s) (sessionMeta s) (onAgentRun s)
    (currentModel s) (currentProvider s) (logger s) (promises s)
    (promiseCounter s) (wire s).
Definition with_connCounter v (s : Server) : Server :=
  mkServer (config s) (conns s) (clients s) (presence s)
    (presenceVersion s) (healthVersion s) (runs s) (chatHistory s)
    (idempotencyKeys s) (handshakeTimeouts s) (timers s) (timerCounter
    s) v (runCounter s) (globalSeq s) (sessionMeta s) (onAgentRun s)
    (currentModel s) (currentProvider s) (logger s) (promises s)
    (promiseCounter s) (wire s).
Definition with_runCounter v (s : Server) : Server :=
  mkServer (config s) (conns s) (clients s) (presence s)
    (presenceVersion s) (healthVersion s) (runs s) (chatHistory s)
    (idempotencyKeys s) (handshakeTimeouts s) (timers s) (timerCounter
    s) (connCounter s) v (globalSeq s) (sessionMeta s) (onAgentRun s)
    (currentModel s) (currentProvider s) (logger s) (promises s)
    (promiseCounter s) (wire s).
Definition with_globalSeq v (s : Server) : Server :=
  mkServer (config s) (conns s) (clients s) (presence s)
    (presenceVersion s) (healthVersion s) (runs s) (chatHistory s)
    (idempotencyKeys s) (handshakeTimeouts s) (timers s) (timerCounter
    s) (connCounter s) (runCounter s) v (sessionMeta s) (onAgentRun s)
    (currentModel s) (currentProvider s) (logger s) (promises s)
    (promiseCounter s) (wire s).
Definition with_sessionMeta v (s : Server) : Server :=
  mkServer (config s) (conns s) (clients s) (presence s)
    (presenceVersion s) (healthVersion s) (runs s) (chatHistory s)
    (idempotencyKeys s) (handshakeTimeouts s) (timers s) (timerCounter
    s) (connCounter s) (runCounter s) (globalSeq s) v (onAgentRun s)
    (currentModel s) (currentProvider s) (logger s) (promises s)
    (promiseCounter s) (wire s).
Definition with_currentModel v (s : Server) : Server :=
  mkServer (config s) (conns s) (clients s) (presence s)
    (presenceVersion s) (healthVersion s) (runs s) (chatHistory s)
    (idempotencyKeys s) (handshakeTimeouts s) (timers s) (timerCounter
    s) (connCounter s) (runCounter s) (globalSeq s) (sessionMeta s)
    (onAgentRun s) v (currentProvider s) (logger s) (promises s)
    (promiseCounter s) (wire s).
Definition with_logger v (s : Server) : Server :=
  mkServer (config s) (conns s) (clients s) (presence s)
    (presenceVersion s) (healthVersion s) (runs s) (chatHistory s)
    (idempotencyKeys s) (handshakeTimeouts s) (timers s) (timerCounter
    s) (connCounter s) (runCounter s) (globalSeq s) (sessionMeta s)
    (onAgentRun s) (currentModel s) (currentProvider s) v (promises s)
    (promiseCounter s) (wire s).
Definition with_promises v (s : Server) : Server :=
  mkServer (config s) (conns s) (clients s) (presence s)
    (presenceVersion s) (healthVersion s) (runs s) (chatHistory s)
    (idempotencyKeys s) (handshakeTimeouts s) (timers s) (timerCounter
    s) (connCounter s) (runCounter s) (globalSeq s) (sessionMeta s)
    (onAgentRun s) (currentModel s) (currentProvider s) (logger s) v
    (promiseCounter s) (wire s).
Definition with_promiseCounter v (s : Server) : Server :=
  mkServer (config s) (conns s) (clients s) (presence s)
    (presenceVersion s) (healthVersion s) (runs s) (chatHistory s)
    (idempotencyKeys s) (handshakeTimeouts s) (timers s) (timerCounter
    s) (connCounter s) (runCounter s) (globalSeq s) (sessionMeta s)
    (onAgentRun s) (currentModel s) (currentProvider s) (logger s)
    (promises s) v (wire s).
Definition with_wire v (s : Server) : Server :=
  mkServer (config s) (conns s) (clients s) (presence s)
    (presenceVersion s) (healthVersion s) (runs s) (chatHistory s)
    (idempotencyKeys s) (handshakeTimeouts s) (timers s) (timerCounter
    s) (connCounter s) (runCounter s) (globalSeq s) (sessionMeta s)
    (onAgentRun s) (currentModel s) (currentProvider s) (logger s)
    (promises s) (promiseCounter s) v.

(* ===================================================================== *)
(** ** The server's methods *)
(* ===================================================================== *)

Inductive FinishState := FinCompleted | FinError.

Definition runStateOf (st : FinishState) : RunState :=
  match st with FinCompleted => Completed | FinError => Errored end.

Record SlashResult := mkSlash {
  slashText : string;
  slashStopReason : option string;
  slashModel : option string;
  slashProvider : option string;
}.

Definition nl : string := String (ascii_of_nat 10) "".

Definition helpText : string :=
  "Available commands:" +:+ nl +:+
  "  /new     — Start a new session" +:+ nl +:+
  "  /model   — Show current model" +:+ nl +:+
  "  /model <name> — Switch model" +:+ nl +:+
  "  /models  — List available models" +:+ nl +:+
  "  /help    — Show this help".

Section Gateway.

(** The tool-call parts that [finishRun] builds, in demo mode, from
    [matchResponse(run.message).response.toolCalls]; the table of canned
    responses of [src/demo-responses.ts] is a parameter of the model. *)
Variable demoToolCallParts : string -> list ContentPart.

(** *** Helpers *)

Definition send (ws : nat) (f : Frame) (s : Server) : Server :=
  with_wire (wire s ++ [Send ws f]) s.

Definition close (ws : nat) (code : nat) (reason : string) (s : Server) : Server :=
  with_wire (wire s ++ [Close ws code reason]) s.

Definition sendResponse (ws : nat) (id : string) (payload : Payload) : Server -> Server :=
  send ws (ResOk id payload).

Definition sendError (ws : nat) (id code message : string) : Server -> Server :=
  send ws (ResErr id code message).

(** [broadcast]: the next global sequence number is stamped on the event,
    which is then sent to every client in turn. *)
Definition broadcast (body : EventBody) (s : Server) : Server :=
  let n := S (globalSeq s) in
  let s := with_globalSeq n s in
  with_wire (wire s ++ map (fun client => Send client (Event n body)) (clients s)) s.

Definition ensureSessionMeta (now : Z) (key : string) (s : Server) : Server :=
  match sessionMeta s !! key with
  | Some _ => s
  | None => with_sessionMeta (<[key := mkMeta None now now]> (sessionMeta s)) s
  end.

Definition touch (now : Z) (m : SessionMeta) : SessionMeta :=
  mkMeta (metaLabel m) (createdAt m) now.

Definition appendHistory (now : Z) (sessionKey : string) (e : HistoryEntry)
    (s : Server) : Server :=
  let history := JS.nullish (chatHistory s !! sessionKey) [] in
  let s := with_chatHistory (<[sessionKey := history ++ [e]]> (chatHistory s)) s in
  let s := ensureSessionMeta now sessionKey s in
  let s := with_sessionMeta (alter (touch now) sessionKey (sessionMeta s)) s in
  with_logger
    (fmap (fun lg => ConversationLogger.append lg sessionKey e) (logger s)) s.

Definition getChatHistory (s : Server) (sessionKey : string) : list HistoryEntry :=
  JS.nullish (chatHistory s !! sessionKey) [].

(** *** Idempotency *)

Definition isDuplicateKey (now : Z) (key : string) (s : Server) : bool * Server :=
  let '(dup, m) :=
    Dedupe.isDuplicateKey (dedupeTtlMs (config s)) now key (idempotencyKeys s) in
  (dup, with_idempotencyKeys m s).

Definition recordIdempotencyKey (now : Z) (key : string) (s : Server) : Server :=
  with_idempotencyKeys
    (Dedupe.recordIdempotencyKey (dedupeMaxKeys (config s)) now key
       (idempotencyKeys s)) s.

(** *** Run execution *)

Definition createRun (sessionKey message : string) (s : Server) : Server * string :=
  let n := S (runCounter s) in
  let rid := "run_" +:+ JS.toString36 n in
  let run := Run.mk rid sessionKey message 0 Running "" "" false [] in
  (with_runs (<[rid := run]> (runs s)) (with_runCounter n s), rid).

Definition emitAgentEvent (rid stream : string) (data : AgentData)
    (s : Server) : Server :=
  match runs s !! rid with
  | None => s
  | Some r =>
      let r := Run.setSeq (S (Run.seq r)) r in
      let s := with_runs (<[rid := r]> (runs s)) s in
      broadcast (AgentEvent rid (Run.sessionKey r) (Run.seq r) stream data) s
  end.

Definition emitChatEvent (rid : string) (state : ChatState)
    (textOrError : string) (s : Server) : Server :=
  match runs s !! rid with
  | None => s
  | Some r =>
      match state with
      | ChatError =>
          broadcast (ChatFailure rid (Run.sessionKey r) (Run.seq r) textOrError) s
      | _ =>
          let thinking :=
            if String.eqb (Run.accumulatedThinking r) "" then []
            else [ThinkingPart (Run.accumulatedThinking r)] in
          broadcast
            (ChatMessage rid (Run.sessionKey r) (Run.seq r) state
               (thinking ++ [TextPart textOrError])) s
      end
  end.

(** Calling one element of [run.waitResolvers] with the result object. *)
Definition resolveWaiter (rid : string) (st : RunState) (text : string)
    (s : Server) (w : Waiter) : Server :=
  match w with
  | SocketWaiter ws id timer =>
      let s := with_timers (delete timer (timers s)) s in
      sendResponse ws id (PRunResult rid st text) s
  | PromiseWaiter p => with_promises (promises s ++ [(p, text)]) s
  end.

Definition finishRun (now : Z) (rid : string) (state : FinishState)
    (errorMessage : option string)
    (externalContentParts : option (list ContentPart)) (s : Server) : Server :=
  match runs s !! rid with
  | None => s
  | Some run =>
      let s := with_runs (<[rid := Run.setState (runStateOf state) run]> (runs s)) s in
      let s :=
        match state with
        | FinCompleted =>
            let s := emitAgentEvent rid "lifecycle" LifecycleEnd s in
            let s := emitChatEvent rid Final (Run.accumulatedText run) s in
            let contentParts :=
              match externalContentParts with
              | Some parts => parts
              | None =>
                  demoToolCallParts (Run.message run)
                    ++ [TextPart (Run.accumulatedText run)]
              end in
            appendHistory now (Run.sessionKey run)
              (mkHistoryEntry RAssistant contentParts now (Some "end_turn")
                 None None) s
        | FinError =>
            let msg := JS.nullish errorMessage "Unknown error" in
            let s := emitAgentEvent rid "lifecycle" (LifecycleError msg) s in
            emitChatEvent rid ChatError msg s
        end in
      let s := with_sessionMeta
                 (alter (touch now) (Run.sessionKey run) (sessionMeta s)) s in
      let s := fold_left
                 (resolveWaiter rid (runStateOf state) (Run.accumulatedText run))
                 (Run.waitResolvers run) s in
      with_runs (alter (Run.setWaiters []) rid (runs s)) s
  end.

Definition handleSlashCommand (run : Run.t) (lower : string) (s : Server)
    : Server * option SlashResult :=
  if String.eqb lower "/new" then
    (with_chatHistory (delete (Run.sessionKey run) (chatHistory s)) s,
     Some (mkSlash "Session cleared. How can I help you?" None None None))
  else if String.eqb lower "/models" then
    (s, Some (mkSlash
                ("Available models:" +:+ nl +:+ "- " +:+ currentModel s +:+
                 " (" +:+ currentProvider s +:+ ")")
                None (Some (currentModel s)) (Some (currentProvider s))))
  else if String.eqb lower "/model" then
    (s, Some (mkSlash ("Current model: " +:+ currentModel s)
                None (Some (currentModel s)) (Some (currentProvider s))))
  else if JS.startsWith lower "/model " then
    let requested := JS.trim (JS.sliceFrom 7 (JS.trim (Run.message run))) in
    if negb (String.eqb requested "") then
      (with_currentModel requested s,
       Some (mkSlash ("Model set to " +:+ requested)
               None (Some requested) (Some (currentProvider s))))
    else
      (s, Some (mkSlash ("Current model: " +:+ currentModel s)
                  None (Some (currentModel s)) (Some (currentProvider s))))
  else if String.eqb lower "/help" then
    (s, Some (mkSlash helpText None None None))
  else
    (s, Some (mkSlash
                ("Unknown command: " +:+ JS.firstWord lower +:+
                 ". Type /help for available commands.")
                None None None)).

Definition setAccumulatedText (rid text : string) (s : Server) : Server :=
  with_runs (alter (Run.setText text) rid (runs s)) s.

(** [executeRun] up to its first [await].  A slash command is handled
    inline and to the end.  Otherwise the run is handed to the adapter
    (the external handler, or the demo streamer, which first emits the
    lifecycle start): what the adapter does afterwards reaches the server
    through [emitAgentEvent], [emitChatEvent] and [finishRun], as steps of
    their own. *)
Definition executeRun (now : Z) (rid : string) (s : Server) : Server :=
  match runs s !! rid with
  | None => s
  | Some run =>
      let trimmed := JS.trim (Run.message run) in
      let lower := JS.toLowerCase trimmed in
      let intercepted :=
        if JS.startsWith lower "/" then
          match handleSlashCommand run lower s with
          | (s, Some result) => Some (s, result)
          | (_, None) => None
          end
        else None in
      match intercepted with
      | Some (s, result) =>
          let s := emitAgentEvent rid "lifecycle" LifecycleStart s in
          let s := setAccumulatedText rid (slashText result) s in
          let s := emitChatEvent rid Delta (slashText result) s in
          let s := appendHistory now (Run.sessionKey run)
                     (mkHistoryEntry RAssistant [TextPart (slashText result)] now
                        (Some (JS.nullish (slashStopReason result) "stop"))
                        (Some (JS.nullish (slashModel result) (currentModel s)))
                        (Some (JS.nullish (slashProvider result) (currentProvider s))))
                     s in
          finishRun now rid FinCompleted None
            (Some [TextPart (slashText result)]) s
      | None =>
          if onAgentRun s then s
          else emitAgentEvent rid "lifecycle" LifecycleStart s
      end
  end.

(** *** Chat methods (§4.3) *)

Definition userEntry (now : Z) (text : string) : HistoryEntry :=
  mkHistoryEntry RUser [TextPart text] now None None None.

Definition handleChatSend (now : Z) (ws : nat) (id : string) (p : Params.t)
    (s : Server) : Server :=
  if negb (JS.truthy (Params.sessionKey p)) || negb (JS.truthy (Params.message p))
     || negb (JS.truthy (Params.idempotencyKey p)) then
    sendError ws id "INVALID_REQUEST"
      "Missing sessionKey, message, or idempotencyKey" s
  else
    let sessionKey := JS.nullish (Params.sessionKey p) "" in
    let message := JS.nullish (Params.message p) "" in
    let idempotencyKey := JS.nullish (Params.idempotencyKey p) "" in
    let '(dup, s) := isDuplicateKey now idempotencyKey s in
    if dup then
      sendError ws id "INVALID_REQUEST" "Duplicate idempotency key" s
    else
      let s := recordIdempotencyKey now idempotencyKey s in
      let s := ensureSessionMeta now sessionKey s in
      let '(s, rid) := createRun sessionKey message s in
      let s := appendHistory now sessionKey (userEntry now message) s in
      let s := send ws (ResOk id (PRunStarted rid (Some sessionKey))) s in
      executeRun now rid s.

(** The ids of the runs in the order [createRun] inserted them. *)
Definition runIds (s : Server) : list string :=
  map (fun n => "run_" +:+ JS.toString36 n) (seq 1 (runCounter s)).

Definition latestRunning (sessionKey : string) (s : Server) : option Run.t :=
  fold_left
    (fun target rid =>
       match runs s !! rid with
       | Some run =>
           if String.eqb (Run.sessionKey run) sessionKey
              && match Run.state run with Running => true | _ => false end
           then Some run else target
       | None => target
       end)
    (runIds s) None.

Definition isRunning (r : Run.t) : bool :=
  match Run.state r with Running => true | _ => false end.

Definition handleChatAbort (ws : nat) (id : string) (p : Params.t)
    (s : Server) : Server :=
  if negb (JS.truthy (Params.sessionKey p)) then
    sendError ws id "INVALID_REQUEST" "Missing sessionKey" s
  else
    let targetRun :=
      if JS.truthy (Params.runId p)
      then runs s !! JS.nullish (Params.runId p) ""
      else latestRunning (JS.nullish (Params.sessionKey p) "") s in
    match targetRun with
    | Some run =>
        if isRunning run then
          let run' := Run.setState Aborted (Run.setAborted true run) in
          let s := with_runs (<[Run.runId run := run']> (runs s)) s in
          sendResponse ws id (PAborted (Run.runId run)) s
        else sendError ws id "INVALID_REQUEST" "No active run to abort" s
    | None => sendError ws id "INVALID_REQUEST" "No active run to abort" s
    end.

(** [history.slice(-limit)] for an integer [limit]: a negative start counts
    from the end, and [-0] is [0]. *)
Definition sliceLast (limit : Z) (history : list HistoryEntry) : list HistoryEntry :=
  let len := Z.of_nat (length history) in
  let start := - limit in
  let from := if start <? 0 then Z.max (len + start) 0 else Z.min start len in
  drop (Z.to_nat from) history.

Definition handleChatHistory (now : Z) (ws : nat) (id : string) (p : Params.t)
    (s : Server) : Server :=
  if negb (JS.truthy (Params.sessionKey p)) then
    sendError ws id "INVALID_REQUEST" "Missing sessionKey" s
  else
    let sessionKey := JS.nullish (Params.sessionKey p) "" in
    let limit := Z.min (JS.nullish (Params.limit p) 50) 1000 in
    let history := JS.nullish (chatHistory s !! sessionKey) [] in
    let messages := sliceLast limit history in
    let s := sendResponse ws id (PHistory sessionKey messages) s in
    match history, greeting (config s) with
    | [], Some text =>
        if JS.truthy (Some text) then
          let s := send ws (Event 0 (Greeting sessionKey text)) s in
          appendHistory now sessionKey
            (mkHistoryEntry RAssistant [TextPart text] now (Some "end_turn")
               None None) s
        else s
    | _, _ => s
    end.

Definition handleChatInject (now : Z) (ws : nat) (id : string) (p : Params.t)
    (s : Server) : Server :=
  if negb (JS.truthy (Params.sessionKey p)) || negb (JS.truthy (Params.message p)) then
    sendError ws id "INVALID_REQUEST" "Missing sessionKey or message" s
  else
    let sessionKey := JS.nullish (Params.sessionKey p) "" in
    let s := appendHistory now sessionKey
               (userEntry now (JS.nullish (Params.message p) "")) s in
    sendResponse ws id (PInjected sessionKey) s.

Definition handleChatSubscribe (ws : nat) (id : string) (s : Server) : Server :=
  sendResponse ws id PSubscribed s.

(** *** Agent methods (§4.1) *)

Definition handleAgent (now : Z) (ws : nat) (id : string) (p : Params.t)
    (s : Server) : Server :=
  if negb (JS.truthy (Params.message p))
     || negb (JS.truthy (Params.idempotencyKey p)) then
    sendError ws id "INVALID_REQUEST" "Missing message or idempotencyKey" s
  else
    let message := JS.nullish (Params.message p) "" in
    let idempotencyKey := JS.nullish (Params.idempotencyKey p) "" in
    let '(dup, s) := isDuplicateKey now idempotencyKey s in
    if dup then
      sendError ws id "INVALID_REQUEST" "Duplicate idempotency key" s
    else
      let s := recordIdempotencyKey now idempotencyKey s in
      let sessionKey := JS.nullish (Params.sessionKey p) "default" in
      let s := ensureSessionMeta now sessionKey s in
      let '(s, rid) := createRun sessionKey message s in
      let s := sendResponse ws id (PRunStarted rid None) s in
      executeRun now rid s.

Definition handleAgentWait (ws : nat) (id : string) (p : Params.t)
    (s : Server) : Server :=
  if negb (JS.truthy (Params.runId p)) then
    sendError ws id "INVALID_REQUEST" "Missing runId" s
  else
    match runs s !! JS.nullish (Params.runId p) "" with
    | None => sendError ws id "INVALID_REQUEST" "Unknown runId" s
    | Some run =>
        if negb (isRunning run) then
          sendResponse ws id
            (PRunResult (Run.runId run) (Run.state run) (Run.accumulatedText run)) s
        else
          (* setTimeout(..., p.timeoutMs ?? 60_000): the callback stays
             pending until it fires or is cleared *)
          let timer := S (timerCounter s) in
          let s := with_timerCounter timer s in
          let s := with_timers (<[timer := WaitTimer ws id]> (timers s)) s in
          let run' := Run.setWaiters
                        (Run.waitResolvers run ++ [SocketWaiter ws id timer]) run in
          with_runs (<[Run.runId run := run']> (runs s)) s
    end.

(** [chatAndWait], the entry of the HTTP surface and of the MCP server:
    the promise it returns is settled by the waiter it registers. *)
Definition chatAndWait (now : Z) (sessionKey message : string) (s : Server)
    : Server * nat :=
  let '(s, rid) := createRun sessionKey message s in
  let s := appendHistory now sessionKey (userEntry now message) s in
  let promise := S (promiseCounter s) in
  let s := with_promiseCounter promise s in
  let s := with_runs
             (alter (fun r => Run.setWaiters
                                (Run.waitResolvers r ++ [PromiseWaiter promise]) r)
                rid (runs s)) s in
  (executeRun now rid s, promise).

(** *** Session methods (§4.4) *)

Definition handleSessionsList (ws : nat) (id : string) (s : Server) : Server :=
  let withMeta :=
    map (fun '(key, meta) =>
           mkSummary key (metaLabel meta)
             (length (JS.nullish (chatHistory s !! key) [])))
        (map_to_list (sessionMeta s)) in
  let historyOnly :=
    omap (fun '(key, history) =>
            match sessionMeta s !! key with
            | Some _ => None
            | None => Some (mkSummary key None (length history))
            end)
         (map_to_list (chatHistory s)) in
  sendResponse ws id (PSessions (withMeta ++ historyOnly)) s.

Definition labelTooLong (l : option (option string)) : bool :=
  match l with
  | Some (Some text) => (SESSION_LABEL_MAX_LENGTH <? String.length text)%nat
  | _ => false
  end.

Definition handleSessionsPatch (now : Z) (ws : nat) (id : string) (p : Params.t)
    (s : Server) : Server :=
  if negb (JS.truthy (Params.key p)) then
    sendError ws id "INVALID_REQUEST" "Missing key" s
  else if labelTooLong (Params.label p) then
    sendError ws id "INVALID_REQUEST" "Label exceeds 64 chars" s
  else
    let key := JS.nullish (Params.key p) "" in
    let s := ensureSessionMeta now key s in
    let s :=
      match Params.label p with
      | Some l =>
          with_sessionMeta
            (alter (fun m => mkMeta l (createdAt m) (lastActiveAt m)) key
               (sessionMeta s)) s
      | None => s
      end in
    sendResponse ws id (PPatched key) s.

Definition handleSessionsReset (ws : nat) (id : string) (p : Params.t)
    (s : Server) : Server :=
  let sessionKey :=
    JS.nullish (Params.key p) (JS.nullish (Params.sessionKey p) "main") in
  let s := with_chatHistory (delete sessionKey (chatHistory s)) s in
  sendResponse ws id (PReset sessionKey) s.

Definition handleSessionsDelete (ws : nat) (id : string) (p : Params.t)
    (s : Server) : Server :=
  if negb (JS.truthy (Params.key p)) then
    sendError ws id "INVALID_REQUEST" "Missing key" s
  else
    let key := JS.nullish (Params.key p) "" in
    let s := with_chatHistory (delete key (chatHistory s)) s in
    let s := with_sessionMeta (delete key (sessionMeta s)) s in
    sendResponse ws id (PDeleted key) s.

(** *** Configuration, models, messaging, health, logs *)

Definition handleConfigGet (ws : nat) (id : string) (s : Server) : Server :=
  sendResponse ws id (PConfig (serverVersion (config s))) s.

Definition handleModelsList (ws : nat) (id : string) (s : Server) : Server :=
  sendResponse ws id (PModels (currentModel s) (currentProvider s)) s.

Definition handleSend (now : Z) (ws : nat) (id : string) (p : Params.t)
    (s : Server) : Server :=
  if negb (JS.truthy (Params.to p)) || negb (JS.truthy (Params.message p))
     || negb (JS.truthy (Params.idempotencyKey p)) then
    sendError ws id "INVALID_REQUEST" "Missing to, message, or idempotencyKey" s
  else
    let idempotencyKey := JS.nullish (Params.idempotencyKey p) "" in
    let '(dup, s) := isDuplicateKey now idempotencyKey s in
    if dup then
      sendError ws id "INVALID_REQUEST" "Duplicate idempotency key" s
    else
      let s := recordIdempotencyKey now idempotencyKey s in
      sendResponse ws id (PSent (JS.nullish (Params.to p) "")) s.

Definition handleHealth (ws : nat) (id : string) (s : Server) : Server :=
  sendResponse ws id (PHealth (presenceVersion s) (healthVersion s)) s.

Definition handleStatus (ws : nat) (id : string) (s : Server) : Server :=
  sendResponse ws id
    (PStatus (length (clients s)) (size (chatHistory s))
       (length (List.filter (fun kr => isRunning (snd kr)) (map_to_list (runs s)))))
    s.

Definition handleLogsTail (ws : nat) (id : string) (s : Server) : Server :=
  sendResponse ws id PLogs s.

Definition stub (ws : nat) (id todo : string) (s : Server) : Server :=
  sendResponse ws id (PStub ("#TODO " +:+ todo)) s.

(** *** The method registry *)

Inductive MethodHandler :=
| HAgent | HAgentWait | HChatSend | HChatAbort | HChatHistory | HChatInject
| HChatSubscribe | HSessionsList | HSessionsPatch | HSessionsReset
| HSessionsDelete | HConfigGet | HModelsList | HHealth | HStatus
| HSystemPresence | HSend | HLogsTail
| HStub (todo : string).

Definition methods : list (string * MethodHandler) :=
  [
    ("agent", HAgent);
    ("agent.identity.get", HStub "Return agent identity — §4.1 agent.identity.get");
    ("agent.wait", HAgentWait);
    ("wake", HStub "Wake agent for voice/push — §4.1 wake");
    ("agents.list", HStub "List all agents — §4.2 agents.list");
    ("agents.create", HStub "Create a new agent — §4.2 agents.create");
    ("agents.update", HStub "Update agent settings — §4.2 agents.update");
    ("agents.delete", HStub "Delete an agent — §4.2 agents.delete");
    ("agents.files.list", HStub "List agent files — §4.2 agents.files.list");
    ("agents.files.get", HStub "Get agent file content — §4.2 agents.files.get");
    ("agents.files.set", HStub "Set agent file content — §4.2 agents.files.set");
    ("chat.send", HChatSend);
    ("chat.abort", HChatAbort);
    ("chat.history", HChatHistory);
    ("chat.inject", HChatInject);
    ("chat.subscribe", HChatSubscribe);
    ("sessions.list", HSessionsList);
    ("sessions.preview", HStub "Preview session transcripts — §4.4 sessions.preview");
    ("sessions.resolve", HStub "Resolve session by criteria — §4.4 sessions.resolve");
    ("sessions.patch", HSessionsPatch);
    ("sessions.reset", HSessionsReset);
    ("sessions.delete", HSessionsDelete);
    ("sessions.compact", HStub "Compact session transcript — §4.4 sessions.compact");
    ("sessions.usage", HStub "Get session usage stats — §4.4 sessions.usage");
    ("sessions.usage.timeseries", HStub "Get usage timeseries — §4.4 sessions.usage.timeseries");
    ("sessions.usage.logs", HStub "Get usage logs — §4.4 sessions.usage.logs");
    ("channels.status", HStub "Get channel connection status — §4.5 channels.status");
    ("channels.logout", HStub "Logout from a channel — §4.5 channels.logout");
    ("config.get", HConfigGet);
    ("config.set", HStub "Set full config YAML — §4.6 config.set");
    ("config.apply", HStub "Apply config and restart — §4.6 config.apply");
    ("config.patch", HStub "Patch config YAML — §4.6 config.patch");
    ("config.schema", HStub "Get config JSON schema — §4.6 config.schema");
    ("cron.list", HStub "List cron jobs — §4.7 cron.list");
    ("cron.status", HStub "Get cron scheduler status — §4.7 cron.status");
    ("cron.add", HStub "Add a cron job — §4.7 cron.add");
    ("cron.update", HStub "Update a cron job — §4.7 cron.update");
    ("cron.remove", HStub "Remove a cron job — §4.7 cron.remove");
    ("cron.run", HStub "Trigger a cron job manually — §4.7 cron.run");
    ("cron.runs", HStub "List cron job run history — §4.7 cron.runs");
    ("device.pair.list", HStub "List paired/pending devices — §4.8 device.pair.list");
    ("device.pair.approve", HStub "Approve device pairing — §4.8 device.pair.approve");
    ("device.pair.reject", HStub "Reject device pairing — §4.8 device.pair.reject");
    ("device.pair.remove", HStub "Remove a paired device — §4.8 device.pair.remove");
    ("device.token.rotate", HStub "Rotate device token — §4.8 device.token.rotate");
    ("device.token.revoke", HStub "Revoke device token — §4.8 device.token.revoke");
    ("node.list", HStub "List connected nodes — §4.9 node.list");
    ("node.describe", HStub "Describe a node — §4.9 node.describe");
    ("node.pair.request", HStub "Request node pairing — §4.9 node.pair.request");
    ("node.pair.list", HStub "List node pairing requests — §4.9 node.pair.list");
    ("node.pair.approve", HStub "Approve node pairing — §4.9 node.pair.approve");
    ("node.pair.reject", HStub "Reject node pairing — §4.9 node.pair.reject");
    ("node.pair.verify", HStub "Verify node pairing — §4.9 node.pair.verify");
    ("node.rename", HStub "Rename a node — §4.9 node.rename");
    ("node.invoke", HStub "Invoke command on node — §4.9 node.invoke");
    ("node.invoke.result", HStub "Return invoke result (node→server) — §4.9 node.invoke.result");
    ("node.event", HStub "Send node event — §4.9 node.event");
    ("exec.approval.request", HStub "Request execution approval — §4.10 exec.approval.request");
    ("exec.approval.waitDecision", HStub "Wait for approval decision — §4.10 exec.approval.waitDecision");
    ("exec.approval.resolve", HStub "Resolve approval request — §4.10 exec.approval.resolve");
    ("exec.approvals.get", HStub "Get approval rules — §4.10 exec.approvals.get");
    ("exec.approvals.set", HStub "Set approval rules — §4.10 exec.approvals.set");
    ("exec.approvals.node.get", HStub "Get node approval rules — §4.10 exec.approvals.node.get");
    ("exec.approvals.node.set", HStub "Set node approval rules — §4.10 exec.approvals.node.set");
    ("models.list", HModelsList);
    ("skills.status", HStub "Get skills status — §4.11 skills.status");
    ("skills.bins", HStub "List skill binaries (node) — §4.11 skills.bins");
    ("skills.install", HStub "Install a skill — §4.11 skills.install");
    ("skills.update", HStub "Update skill config — §4.11 skills.update");
    ("talk.config", HStub "Get talk/voice config — §4.12 talk.config");
    ("talk.mode", HStub "Toggle talk mode — §4.12 talk.mode");
    ("tts.status", HStub "Get TTS status — §4.12 tts.status");
    ("tts.enable", HStub "Enable TTS — §4.12 tts.enable");
    ("tts.disable", HStub "Disable TTS — §4.12 tts.disable");
    ("tts.convert", HStub "Convert text to speech — §4.12 tts.convert");
    ("tts.setProvider", HStub "Set TTS provider — §4.12 tts.setProvider");
    ("tts.providers", HStub "List TTS providers — §4.12 tts.providers");
    ("health", HHealth);
    ("status", HStatus);
    ("system-presence", HSystemPresence);
    ("last-heartbeat", HStub "Get last heartbeat info — §4.13 last-heartbeat");
    ("set-heartbeats", HStub "Configure heartbeat behavior — §4.13 set-heartbeats");
    ("system-event", HStub "Emit system event — §4.13 system-event");
    ("wizard.start", HStub "Start setup wizard — §4.14 wizard.start");
    ("wizard.next", HStub "Advance wizard step — §4.14 wizard.next");
    ("wizard.cancel", HStub "Cancel wizard — §4.14 wizard.cancel");
    ("wizard.status", HStub "Get wizard status — §4.14 wizard.status");
    ("send", HSend);
    ("poll", HStub "Create a poll — §4.15 poll");
    ("browser.request", HStub "Request browser action — §4.16 browser.request");
    ("push.test", HStub "Send test push notification — §4.17 push.test");
    ("update.run", HStub "Run server update — §4.18 update.run");
    ("logs.tail", HLogsTail);
    ("voicewake.get", HStub "Get voice wake config — §4.20 voicewake.get");
    ("voicewake.set", HStub "Set voice wake config — §4.20 voicewake.set");
    ("web.login.start", HStub "Start web login flow — §4.21 web.login.start");
    ("web.login.wait", HStub "Wait for web login completion — §4.21 web.login.wait");
    ("usage.status", HStub "Get usage status — §4.22 usage.status");
    ("usage.cost", HStub "Get usage cost breakdown — §4.22 usage.cost")
  ].

Fixpoint lookupMethod (name : string) (table : list (string * MethodHandler))
    : option MethodHandler :=
  match table with
  | [] => None
  | (n, h) :: rest => if String.eqb n name then Some h else lookupMethod name rest
  end.

Definition callHandler (now : Z) (h : MethodHandler) (ws : nat) (id : string)
    (p : Params.t) (s : Server) : Server :=
  match h with
  | HAgent => handleAgent now ws id p s
  | HAgentWait => handleAgentWait ws id p s
  | HChatSend => handleChatSend now ws id p s
  | HChatAbort => handleChatAbort ws id p s
  | HChatHistory => handleChatHistory now ws id p s
  | HChatInject => handleChatInject now ws id p s
  | HChatSubscribe => handleChatSubscribe ws id s
  | HSessionsList => handleSessionsList ws id s
  | HSessionsPatch => handleSessionsPatch now ws id p s
  | HSessionsReset => handleSessionsReset ws id p s
  | HSessionsDelete => handleSessionsDelete ws id p s
  | HConfigGet => handleConfigGet ws id s
  | HModelsList => handleModelsList ws id s
  | HHealth => handleHealth ws id s
  | HStatus => handleStatus ws id s
  | HSystemPresence => sendResponse ws id (PPresence (presence s)) s
  | HSend => handleSend now ws id p s
  | HLogsTail => handleLogsTail ws id s
  | HStub todo => stub ws id todo s
  end.

(** *** Connection lifecycle and handshake (§2.3) *)

Definition connData (s : Server) (ws : nat) : ConnectionData :=
  JS.nullish (conns s !! ws) (mkConn "" false false "").

Definition isAuthenticated (s : Server) (ws : nat) : bool :=
  authenticated (connData s ws).

Definition handleOpen (ws : nat) (uuid : string) (s : Server) : Server :=
  let n := S (connCounter s) in
  let s := with_connCounter n s in
  let cid := "conn_" +:+ JS.toString36 n in
  let timer := S (timerCounter s) in
  let s := with_timerCounter timer s in
  let s := with_timers (<[timer := HandshakeTimer ws]> (timers s)) s in
  let s := with_handshakeTimeouts (<[ws := timer]> (handshakeTimeouts s)) s in
  let s := with_conns (<[ws := mkConn cid false true uuid]> (conns s)) s in
  let s := send ws (Hello cid) s in
  send ws (Event 0 (ConnectChallenge uuid)) s.

Definition clearHandshakeTimeout (ws : nat) (s : Server) : Server :=
  match handshakeTimeouts s !! ws with
  | Some timer =>
      let s := with_timers (delete timer (timers s)) s in
      with_handshakeTimeouts (delete ws (handshakeTimeouts s)) s
  | None => s
  end.

Definition broadcastPresence (s : Server) : Server :=
  broadcast (PresenceEvent (presence s) (presenceVersion s)) s.

Definition removePresence (cid : string) (s : Server) : Server :=
  let s := with_presence
             (List.filter (fun p => negb (String.eqb (instanceId p) cid))
                (presence s)) s in
  with_presenceVersion (S (presenceVersion s)) s.

Definition handleClose (ws : nat) (s : Server) : Server :=
  let s := clearHandshakeTimeout ws s in
  let s := with_clients (List.filter (fun c => negb (Nat.eqb c ws)) (clients s)) s in
  if isAuthenticated s ws then
    broadcastPresence (removePresence (connId (connData s ws)) s)
  else s.

Definition optEq (a : option string) (b : string) : bool :=
  match a with Some a => String.eqb a b | None => false end.

Definition handleConnect (ws : nat) (id : string) (params : option Params.t)
    (s : Server) : Server :=
  let s := clearHandshakeTimeout ws s in
  let p := JS.nullish params Params.empty in
  if negb (JS.truthy (Params.clientId p))
     || negb (JS.truthy (Params.clientVersion p)) then
    let s := sendError ws id "INVALID_REQUEST"
               "Missing client.id or client.version" s in
    close ws 1008 "Invalid connect params" s
  else
    let min := JS.nullish (Params.minProtocol p) 1 in
    let max := JS.nullish (Params.maxProtocol p) 1 in
    if (PROTOCOL_VERSION <? min) || (PROTOCOL_VERSION >? max) then
      let s := sendError ws id "INVALID_REQUEST" "Protocol mismatch" s in
      close ws 1008 "Protocol mismatch" s
    else
      let authFailed :=
        if JS.truthy (Some (authToken (config s))) then
          negb (optEq (Params.authToken p) (authToken (config s)))
        else if JS.truthy (Some (authPassword (config s))) then
          negb (optEq (Params.authPassword p) (authPassword (config s)))
        else false in
      if authFailed then
        let s := sendError ws id "INVALID_REQUEST" "Authentication failed" s in
        close ws 1008 "Authentication failed" s
      else
        let d := connData s ws in
        let s := with_conns
                   (<[ws := mkConn (connId d) true (challengeSent d) (nonce d)]>
                      (conns s)) s in
        let s := if existsb (Nat.eqb ws) (clients s) then s
                 else with_clients (clients s ++ [ws]) s in
        let clientId := JS.nullish (Params.clientId p) "" in
        let entry :=
          mkPresence (JS.nullish (Params.clientDisplayName p) clientId)
            (JS.nullish (Params.clientVersion p) "") (connId d)
            (if JS.truthy (Params.role p) then Params.role p else None) in
        let s := with_presence (presence s ++ [entry]) s in
        let s := with_presenceVersion (S (presenceVersion s)) s in
        let authMode :=
          if JS.truthy (Some (authToken (config s))) then "token"
          else if JS.truthy (Some (authPassword (config s))) then "password"
          else "none" in
        let s := send ws
                   (ResOk id (PHelloOk (connId d) (map fst methods) (presence s)
                                authMode)) s in
        broadcastPresence s.

Definition handleMessage (now : Z) (ws : nat) (raw : RawMessage)
    (s : Server) : Server :=
  if rawLength raw >? maxPayload (config s) then
    let s := sendError ws "unknown" "INVALID_REQUEST" "Payload too large" s in
    close ws 1009 "Payload too large" s
  else
    match parsed raw with
    | SyntaxError => sendError ws "unknown" "INVALID_REQUEST" "Malformed JSON" s
    | JsonNull =>
        (* [frame.type] is read outside the [try]: on [null] it throws a
           TypeError, and the handler ends there with nothing sent *)
        s
    | JsonValue frame =>
        if negb (optEq (ftype frame) "req") then
          sendError ws "unknown" "INVALID_REQUEST" "Expected type: req" s
        else if negb (JS.truthy (fid frame)) || negb (JS.truthy (fmethod frame)) then
          sendError ws (JS.nullish (fid frame) "unknown") "INVALID_REQUEST"
            "Missing id or method" s
        else
          let id := JS.nullish (fid frame) "" in
          let method := JS.nullish (fmethod frame) "" in
          if negb (isAuthenticated s ws) then
            if negb (String.eqb method "connect") then
              let s := sendError ws id "INVALID_REQUEST"
                         "First message must be connect" s in
              close ws 1008 "First message must be connect" s
            else handleConnect ws id (fparams frame) s
          else
            match lookupMethod method methods with
            | None =>
                sendError ws id "INVALID_REQUEST" ("Unknown method: " +:+ method) s
            | Some handler =>
                callHandler now handler ws id
                  (JS.nullish (fparams frame) Params.empty) s
            end
    end.

(** *** Timers and periodic work *)

(** A pending [setTimeout] callback runs: the handshake watchdog of
    [handleOpen], or the timeout of [handleAgentWait]. *)
Definition fireTimer (timer : nat) (s : Server) : Server :=
  match timers s !! timer with
  | None => s
  | Some t =>
      let s := with_timers (delete timer (timers s)) s in
      match t with
      | HandshakeTimer ws =>
          let s := if negb (isAuthenticated s ws)
                   then close ws 1008 "Handshake timeout" s else s in
          with_handshakeTimeouts (delete ws (handshakeTimeouts s)) s
      | WaitTimer ws id => sendError ws id "AGENT_TIMEOUT" "Wait timed out" s
      end
  end.

Definition dedupeCleanup (now : Z) (s : Server) : Server :=
  with_idempotencyKeys
    (Dedupe.sweep (dedupeTtlMs (config s)) now (idempotencyKeys s)) s.

(** The [catch] of [executeRun] around the external handler. *)
Definition adapterThrows (now : Z) (rid err : string) (s : Server) : Server :=
  match runs s !! rid with
  | Some run =>
      if isRunning run then finishRun now rid FinError (Some err) None s else s
  | None => s
  end.

(** *** Periodic broadcasts, shutdown and the public helpers *)

(** The callback of [startTick]. *)
Definition tick (now : Z) (s : Server) : Server := broadcast (TickEvent now) s.

(** The callback of [startHealthRefresh]; [this.health] is never written
    and stays the empty object. *)
Definition healthRefresh (s : Server) : Server :=
  let s := with_healthVersion (S (healthVersion s)) s in
  broadcast (HealthEvent (presenceVersion s) (healthVersion s)) s.

Definition abortIfRunning (r : Run.t) : Run.t :=
  if isRunning r then Run.setState Aborted (Run.setAborted true r) else r.

(** [stop]: the sockets that [server.stop(true)] closes report it through
    [handleClose], as inputs of their own. *)
Definition stop (s : Server) : Server :=
  let s := broadcast (ShutdownEvent "server_stop") s in
  let s := with_timers
             (map_fold (fun _ timer pending => delete timer pending)
                (timers s) (handshakeTimeouts s)) s in
  let s := with_handshakeTimeouts ∅ s in
  with_runs (fmap abortIfRunning (runs s)) s.

Definition clearSession (sessionKey : string) (s : Server) : Server :=
  let s := with_chatHistory (delete sessionKey (chatHistory s)) s in
  with_sessionMeta (delete sessionKey (sessionMeta s)) s.

(** [isAborted], which the demo streamer calls between its steps; the
    adapters make the same check on the run's abort signal and the same
    write. *)
Definition isAborted (rid : string) (s : Server) : bool * Server :=
  match runs s !! rid with
  | Some run =>
      if Run.aborted run
      then (true, with_runs (<[rid := Run.setState Aborted run]> (runs s)) s)
      else (false, s)
  | None => (false, s)
  end.

(** [run.accumulatedThinking = text], written by an adapter. *)
Definition setAccumulatedThinking (rid text : string) (s : Server) : Server :=
  with_runs
    (alter (fun r => Run.mk (Run.runId r) (Run.sessionKey r) (Run.message r)
                       (Run.seq r) (Run.state r) (Run.accumulatedText r) text
                       (Run.aborted r) (Run.waitResolvers r))
       rid (runs s)) s.

(** *** HTTP surface (§6) *)

Record HttpMessage := mkHttpMessage {
  msgRole : string;
  msgContent : string;
}.

Record HttpRequest := mkHttpRequest {
  httpMethod : string;
  httpPath : string;
  authorization : option string;       (* req.headers.get("authorization") *)
  bodyMessages : list HttpMessage;
  bodyUser : option string;
}.

Inductive HttpResponse :=
| JsonResponse (status : nat) (errorType : string)
| StreamResponse (status : nat).

Definition httpStatus (r : HttpResponse) : nat :=
  match r with JsonResponse st _ => st | StreamResponse st => st end.

Definition optNe (a : option string) (b : string) : bool := negb (optEq a b).

(** The response object [handleHttpChatCompletions] returns; the stream it
    carries is started afterwards by [startCompletion]. *)
Definition handleHttpChatCompletions (req : HttpRequest) (s : Server) : HttpResponse :=
  if JS.truthy (Some (authToken (config s)))
     && optNe (authorization req) ("Bearer " +:+ authToken (config s))
  then JsonResponse 401 "auth_error"
  else StreamResponse 200.

Definition handleHttpRequest (req : HttpRequest) (s : Server) : option HttpResponse :=
  let isPost := String.eqb (httpMethod req) "POST" in
  if String.eqb (httpPath req) "/v1/chat/completions" && isPost then
    Some (handleHttpChatCompletions req s)
  else if String.eqb (httpPath req) "/v1/responses" && isPost then
    Some (JsonResponse 501 "not_implemented")
  else if String.eqb (httpPath req) "/hooks/wake" && isPost then
    Some (JsonResponse 501 "not_implemented")
  else if String.eqb (httpPath req) "/hooks/agent" && isPost then
    Some (JsonResponse 501 "not_implemented")
  else if String.eqb (httpPath req) "/tools/invoke" && isPost then
    Some (JsonResponse 501 "not_implemented")
  else None.

(** The [start] callback of the stream, up to the [await] on
    [chatAndWait]. *)
Definition startCompletion (now : Z) (req : HttpRequest) (s : Server) : Server * nat :=
  let lastUser :=
    last (map msgContent
            (List.filter (fun m => String.eqb (msgRole m) "user") (bodyMessages req))) in
  let message := JS.nullish lastUser "" in
  let sessionKey := JS.nullish (bodyUser req) "http-default" in
  let s :=
    fold_left
      (fun s m =>
         if String.eqb (msgRole m) "system" || String.eqb (msgRole m) "developer"
         then appendHistory now sessionKey
                (userEntry now ("[System] " +:+ msgContent m)) s
         else s)
      (bodyMessages req) s in
  chatAndWait now sessionKey message s.

(** *** The server as a transition system *)

(** What happens to a running server, one event-loop task at a time: the
    WebSocket callbacks ([Accept], [Message], [Disconnect]), the timers
    ([TimerFires] for the [setTimeout] callbacks, [DedupeCleanup], [Tick]
    and [HealthRefresh] for the intervals), an HTTP request, the public
    methods [stop], [clearSession] and [chatAndWait], and what an external
    adapter does to the server while its run is in flight: the calls of
    [emitAgentEvent], [emitChatEvent] and [finishRun], an exception, the
    writes of [run.accumulatedText] and [run.accumulatedThinking], and the
    write of [run.state] under the check of the abort signal.  Every input
    is accepted in every state, also an interval after [Stop] has cleared
    it: the executions of the server are among those of [exec]. *)
Inductive Input :=
| Accept (ws : nat) (uuid : string)
| Message (ws : nat) (raw : RawMessage)
| Disconnect (ws : nat)
| TimerFires (timer : nat)
| DedupeCleanup
| HttpCompletion (req : HttpRequest)
| EmitAgentEvent (rid stream : string) (data : AgentData)
| EmitChatEvent (rid : string) (state : ChatState) (text : string)
| FinishRun (rid : string) (state : FinishState) (errorMessage : option string)
            (parts : option (list ContentPart))
| AdapterThrows (rid err : string)
| AdapterSetsText (rid text : string)
| AdapterSetsThinking (rid text : string)
| AdapterChecksAbort (rid : string)
| Tick
| HealthRefresh
| Stop
| ClearSession (sessionKey : string)
| ChatAndWait (sessionKey message : string).

Definition step (s : Server) (i : Z * Input) : Server :=
  let now := fst i in
  match snd i with
  | Accept ws uuid => handleOpen ws uuid s
  | Message ws raw => handleMessage now ws raw s
  | Disconnect ws => handleClose ws s
  | TimerFires timer => fireTimer timer s
  | DedupeCleanup => dedupeCleanup now s
  | HttpCompletion req =>
      match handleHttpRequest req s with
      | Some (StreamResponse _) => fst (startCompletion now req s)
      | _ => s
      end
  | EmitAgentEvent rid stream data => emitAgentEvent rid stream data s
  | EmitChatEvent rid state text => emitChatEvent rid state text s
  | FinishRun rid state err parts => finishRun now rid state err parts s
  | AdapterThrows rid err => adapterThrows now rid err s
  | AdapterSetsText rid text => setAccumulatedText rid text s
  | AdapterSetsThinking rid text => setAccumulatedThinking rid text s
  | AdapterChecksAbort rid => snd (isAborted rid s)
  | Tick => tick now s
  | HealthRefresh => healthRefresh s
  | Stop => stop s
  | ClearSession sessionKey => clearSession sessionKey s
  | ChatAndWait sessionKey message => fst (chatAndWait now sessionKey message s)
  end.

Definition exec (s : Server) (inputs : list (Z * Input)) : Server :=
  fold_left step inputs s.

End Gateway.

(** The server as its constructor leaves it. *)
Definition newServer (cfg : ResolvedConfig) (external : bool) : Server :=
  mkServer cfg ∅ [] [] 0 0 ∅ ∅ [] ∅ ∅ 0 0 0 0 ∅ external "demo" "miniclaw"
    (fmap (fun d => ConversationLogger.mkLogger d ∅) (logDir cfg)) [] 0 [].

(** The constructor's defaults for the fields a [ServerConfig] leaves out. *)
Definition defaultConfig : ResolvedConfig :=
  mkConfig "" "" "2026.2.23" DEFAULT_MAX_PAYLOAD DEFAULT_DEDUPE_MAX
    DEFAULT_DEDUPE_TTL_MS None None.

(* ===================================================================== *)
(** * Properties *)
(* ===================================================================== *)

(** ** Strings *)

Lemma truthy_Some (k : string) : JS.truthy (Some k) = true <-> k <> "".
Proof.
  unfold JS.truthy. destruct (String.eqb_spec k ""); simpl; split; congruence.
Qed.

Lemma truthy_inv (o : option string) :
  JS.truthy o = true -> exists k, o = Some k /\ k <> "".
Proof.
  destruct o as [k|]; simpl; [|discriminate].
  intros H. exists k. split; [reflexivity|]. now apply truthy_Some.
Qed.

(** ** The idempotency map *)

Module DedupeFacts.
Import Dedupe.

Definition nonEmptyKeys (m : t) : Prop := Forall (fun e => fst e <> "") m.

Lemma get_set_eq k v m : get k (set k v m) = Some v.
Proof.
  induction m as [|[k' ts] r IH]; simpl.
  - now rewrite String.eqb_refl.
  - destruct (String.eqb k' k) eqn:E; simpl; rewrite E; auto.
Qed.

Lemma length_set_le k v m : (length (set k v m) <= S (length m))%nat.
Proof.
  induction m as [|[k' ts] r IH]; simpl; [lia|].
  destruct (String.eqb k' k); simpl; lia.
Qed.

Lemma length_delete_le k m : (length (delete k m) <= length m)%nat.
Proof.
  induction m as [|[k' ts] r IH]; simpl; [lia|].
  destruct (String.eqb k' k); simpl; lia.
Qed.

Lemma nonEmpty_delete k m : nonEmptyKeys m -> nonEmptyKeys (delete k m).
Proof.
  unfold nonEmptyKeys. induction 1 as [|[k' ts] r Hk Hr IH]; simpl; [constructor|].
  destruct (String.eqb k' k); [assumption|]. now constructor.
Qed.

Lemma nonEmpty_set k v m : k <> "" -> nonEmptyKeys m -> nonEmptyKeys (set k v m).
Proof.
  unfold nonEmptyKeys. intros Hk. induction 1 as [|[k' ts] r Hk' Hr IH]; simpl.
  - repeat constructor. exact Hk.
  - destruct (String.eqb k' k); constructor; auto.
Qed.

Lemma nonEmpty_sweep ttl now m : nonEmptyKeys m -> nonEmptyKeys (sweep ttl now m).
Proof.
  unfold nonEmptyKeys, sweep. rewrite !List.Forall_forall.
  intros H e He. apply List.filter_In in He. now apply H.
Qed.

Lemma size_sweep_le ttl now m : size (sweep ttl now m) <= size m.
Proof.
  unfold size, sweep. pose proof (List.filter_length_le
    (fun e : string * Z => negb (now - snd e >? ttl)) m). lia.
Qed.

(** A probe never grows the map, and an entry it leaves was there before. *)
Lemma probe_size_le ttl now k m : size (snd (isDuplicateKey ttl now k m)) <= size m.
Proof.
  unfold isDuplicateKey, size. destruct (get k m); simpl; [|lia].
  destruct (now - z >? ttl); simpl; [|lia].
  pose proof (length_delete_le k m). lia.
Qed.

Lemma probe_nonEmpty ttl now k m :
  nonEmptyKeys m -> nonEmptyKeys (snd (isDuplicateKey ttl now k m)).
Proof.
  unfold isDuplicateKey. intros H. destruct (get k m); simpl; [|assumption].
  destruct (now - z >? ttl); simpl; [now apply nonEmpty_delete | assumption].
Qed.

(** At capacity, the first entry in insertion order goes and the new key
    is then set in what remains. *)
Lemma record_at_capacity max now key k0 t0 rest :
  k0 <> "" -> size ((k0, t0) :: rest) >= max ->
  recordIdempotencyKey max now key ((k0, t0) :: rest) = set key now rest.
Proof.
  intros Hk Hsz. unfold recordIdempotencyKey.
  replace (size ((k0, t0) :: rest) >=? max) with true
    by (symmetry; apply Z.geb_le; lia).
  cbn [oldestKey]. apply truthy_Some in Hk. rewrite Hk.
  cbn [delete]. now rewrite String.eqb_refl.
Qed.

Lemma record_below_capacity max now key m :
  size m < max -> recordIdempotencyKey max now key m = set key now m.
Proof.
  intros Hsz. unfold recordIdempotencyKey.
  replace (size m >=? max) with false; [reflexivity|].
  symmetry. rewrite Z.geb_leb. apply Z.leb_gt. lia.
Qed.

Lemma record_bounded max now key m :
  1 <= max -> nonEmptyKeys m -> size m <= max ->
  size (recordIdempotencyKey max now key m) <= max.
Proof.
  intros Hmax Hne Hsz.
  destruct (Z_lt_le_dec (size m) max) as [Hlt|Hge].
  - rewrite record_below_capacity by assumption.
    pose proof (length_set_le key now m). unfold size in *. lia.
  - destruct m as [|[k0 t0] rest]; [unfold size in *; simpl in *; lia|].
    rewrite record_at_capacity; [| now inversion Hne | lia].
    pose proof (length_set_le key now rest). unfold size in *. simpl in *. lia.
Qed.

Lemma record_nonEmpty max now key m :
  key <> "" -> nonEmptyKeys m -> nonEmptyKeys (recordIdempotencyKey max now key m).
Proof.
  intros Hk Hne. unfold recordIdempotencyKey. apply nonEmpty_set; [assumption|].
  destruct (size m >=? max); [|assumption].
  destruct (oldestKey m); [|assumption].
  destruct (JS.truthy (Some s)); [now apply nonEmpty_delete | assumption].
Qed.

Lemma record_get max now key m :
  get key (recordIdempotencyKey max now key m) = Some now.
Proof. unfold recordIdempotencyKey. apply get_set_eq. Qed.

(** The probe answers "duplicate" exactly for a key that is present and
    whose age does not exceed the TTL. *)
Lemma probe_true_iff ttl now k m :
  fst (isDuplicateKey ttl now k m) = true <->
  exists ts, get k m = Some ts /\ now - ts <= ttl.
Proof.
  unfold isDuplicateKey. destruct (get k m) as [ts|]; simpl.
  - destruct (Z.gtb_spec (now - ts) ttl); simpl; split.
    + discriminate.
    + intros (ts' & [= <-] & H'). lia.
    + intros _. exists ts. split; [reflexivity | lia].
    + reflexivity.
  - split; [discriminate | intros (ts & [=] & _)].
Qed.

End DedupeFacts.

(** ** Frame properties of the server's methods *)

(** What the idempotency checks depend on. *)
Definition cacheOf (s : Server) : ResolvedConfig * Dedupe.t :=
  (config s, idempotencyKeys s).

(** [s'] has the wire log of [s] with more entries after it. *)
Definition wireExtends (s s' : Server) : Prop :=
  exists more, wire s' = wire s ++ more.

Lemma wireExtends_refl s : wireExtends s s.
Proof. exists []. now rewrite app_nil_r. Qed.

Lemma wireExtends_trans s1 s2 s3 :
  wireExtends s1 s2 -> wireExtends s2 s3 -> wireExtends s1 s3.
Proof.
  intros [l1 H1] [l2 H2]. exists (l1 ++ l2). now rewrite H2, H1, app_assoc.
Qed.

Lemma wireExtends_In s s' x : wireExtends s s' -> In x (wire s) -> In x (wire s').
Proof. intros [l ->] H. apply in_or_app. now left. Qed.

Create Rewrite HintDb cache.

Ltac split_cases :=
  repeat match goal with
    | |- context [match ?x with _ => _ end] => destruct x eqn:?
    end.

Section Frames.

Variable demo : string -> list ContentPart.

(** *** The configuration and the idempotency map *)

Lemma cache_send ws f s : cacheOf (send ws f s) = cacheOf s.
Proof. reflexivity. Qed.

Lemma cache_close ws c r s : cacheOf (close ws c r s) = cacheOf s.
Proof. reflexivity. Qed.

Lemma cache_sendResponse ws id p s : cacheOf (sendResponse ws id p s) = cacheOf s.
Proof. reflexivity. Qed.

Lemma cache_sendError ws id c m s : cacheOf (sendError ws id c m s) = cacheOf s.
Proof. reflexivity. Qed.

Lemma cache_broadcast b s : cacheOf (broadcast b s) = cacheOf s.
Proof. reflexivity. Qed.

Lemma cache_ensureSessionMeta now k s : cacheOf (ensureSessionMeta now k s) = cacheOf s.
Proof. unfold ensureSessionMeta. now split_cases. Qed.

Lemma cache_appendHistory now k e s : cacheOf (appendHistory now k e s) = cacheOf s.
Proof.
  unfold appendHistory, cacheOf. cbn.
  fold (cacheOf (ensureSessionMeta now k
    (with_chatHistory (<[k:=JS.nullish (chatHistory s !! k) [] ++ [e]]> (chatHistory s)) s))).
  now rewrite cache_ensureSessionMeta.
Qed.

Lemma cache_createRun k m s : cacheOf (fst (createRun k m s)) = cacheOf s.
Proof. reflexivity. Qed.

Lemma cache_emitAgentEvent rid st d s : cacheOf (emitAgentEvent rid st d s) = cacheOf s.
Proof. unfold emitAgentEvent. now split_cases. Qed.

Lemma cache_emitChatEvent rid st t s : cacheOf (emitChatEvent rid st t s) = cacheOf s.
Proof. unfold emitChatEvent. now split_cases. Qed.

Lemma cache_resolveWaiter rid st t s w : cacheOf (resolveWaiter rid st t s w) = cacheOf s.
Proof. now destruct w. Qed.

Lemma cache_resolveWaiters rid st t ws s :
  cacheOf (fold_left (resolveWaiter rid st t) ws s) = cacheOf s.
Proof.
  revert s. induction ws as [|w ws IH]; intros s; simpl; [reflexivity|].
  now rewrite IH, cache_resolveWaiter.
Qed.

Lemma cache_with_runs v s : cacheOf (with_runs v s) = cacheOf s.
Proof. reflexivity. Qed.

Lemma cache_with_sessionMeta v s : cacheOf (with_sessionMeta v s) = cacheOf s.
Proof. reflexivity. Qed.

Lemma cache_with_chatHistory v s : cacheOf (with_chatHistory v s) = cacheOf s.
Proof. reflexivity. Qed.

Lemma cache_with_currentModel v s : cacheOf (with_currentModel v s) = cacheOf s.
Proof. reflexivity. Qed.

Lemma cache_with_timers v s : cacheOf (with_timers v s) = cacheOf s.
Proof. reflexivity. Qed.

Lemma cache_with_runCounter v s : cacheOf (with_runCounter v s) = cacheOf s.
Proof. reflexivity. Qed.

Lemma cache_with_promiseCounter v s : cacheOf (with_promiseCounter v s) = cacheOf s.
Proof. reflexivity. Qed.

Hint Rewrite cache_send cache_close cache_sendResponse cache_sendError
  cache_broadcast cache_ensureSessionMeta cache_appendHistory
  cache_emitAgentEvent cache_emitChatEvent cache_resolveWaiter
  cache_resolveWaiters cache_with_runs cache_with_sessionMeta
  cache_with_chatHistory cache_with_currentModel cache_with_timers
  cache_with_promiseCounter cache_with_runCounter : cache.

Lemma cache_finishRun now rid st err parts s :
  cacheOf (finishRun demo now rid st err parts s) = cacheOf s.
Proof.
  unfold finishRun. destruct (runs s !! rid); [|reflexivity].
  destruct st; now autorewrite with cache.
Qed.

Lemma cache_handleSlashCommand run lower s :
  cacheOf (fst (handleSlashCommand run lower s)) = cacheOf s.
Proof. unfold handleSlashCommand. now split_cases. Qed.

Lemma cache_setAccumulatedText rid t s : cacheOf (setAccumulatedText rid t s) = cacheOf s.
Proof. reflexivity. Qed.

Hint Rewrite cache_finishRun cache_setAccumulatedText : cache.

Lemma cache_executeRun now rid s : cacheOf (executeRun demo now rid s) = cacheOf s.
Proof.
  unfold executeRun. destruct (runs s !! rid) as [run|]; [|reflexivity].
  destruct (JS.startsWith _ "/").
  - pose proof (cache_handleSlashCommand run
      (JS.toLowerCase (JS.trim (Run.message run))) s) as H.
    destruct (handleSlashCommand _ _ s) as [s' [result|]]; simpl in H.
    + autorewrite with cache. exact H.
    + destruct (onAgentRun s); now autorewrite with cache.
  - destruct (onAgentRun s); now autorewrite with cache.
Qed.

Hint Rewrite cache_executeRun : cache.

Lemma cache_chatAndWait now k m s : cacheOf (fst (chatAndWait demo now k m s)) = cacheOf s.
Proof. unfold chatAndWait. cbn. now autorewrite with cache. Qed.

Lemma cache_handleChatAbort ws id p s : cacheOf (handleChatAbort ws id p s) = cacheOf s.
Proof. unfold handleChatAbort. now split_cases. Qed.

Lemma cache_handleChatHistory now ws id p s :
  cacheOf (handleChatHistory now ws id p s) = cacheOf s.
Proof. unfold handleChatHistory. split_cases; now autorewrite with cache. Qed.

Lemma cache_handleChatInject now ws id p s :
  cacheOf (handleChatInject now ws id p s) = cacheOf s.
Proof. unfold handleChatInject. split_cases; now autorewrite with cache. Qed.

Lemma cache_handleAgentWait ws id p s : cacheOf (handleAgentWait ws id p s) = cacheOf s.
Proof. unfold handleAgentWait. now split_cases. Qed.

Lemma cache_handleSessionsPatch now ws id p s :
  cacheOf (handleSessionsPatch now ws id p s) = cacheOf s.
Proof. unfold handleSessionsPatch. split_cases; now autorewrite with cache. Qed.

Lemma cache_handleSessionsDelete ws id p s :
  cacheOf (handleSessionsDelete ws id p s) = cacheOf s.
Proof. unfold handleSessionsDelete. now split_cases. Qed.

Lemma cache_clearHandshakeTimeout ws s : cacheOf (clearHandshakeTimeout ws s) = cacheOf s.
Proof. unfold clearHandshakeTimeout. now split_cases. Qed.

Lemma cache_handleClose ws s : cacheOf (handleClose ws s) = cacheOf s.
Proof.
  unfold handleClose. split_cases; cbn; apply cache_clearHandshakeTimeout.
Qed.

Lemma cache_handleConnect ws id p s : cacheOf (handleConnect ws id p s) = cacheOf s.
Proof.
  unfold handleConnect. split_cases; cbn; apply cache_clearHandshakeTimeout.
Qed.

Lemma cache_fireTimer t s : cacheOf (fireTimer t s) = cacheOf s.
Proof. unfold fireTimer. now split_cases. Qed.

Lemma cache_adapterThrows now rid err s : cacheOf (adapterThrows demo now rid err s) = cacheOf s.
Proof. unfold adapterThrows. split_cases; now autorewrite with cache. Qed.

Lemma cache_injectSystem now k msgs s :
  cacheOf
    (fold_left
       (fun s m =>
          if String.eqb (msgRole m) "system" || String.eqb (msgRole m) "developer"
          then appendHistory now k (userEntry now ("[System] " +:+ msgContent m)) s
          else s) msgs s) = cacheOf s.
Proof.
  revert s. induction msgs as [|m msgs IH]; intros s; simpl; [reflexivity|].
  rewrite IH. destruct (_ || _); now autorewrite with cache.
Qed.

Lemma cache_startCompletion now req s :
  cacheOf (fst (startCompletion demo now req s)) = cacheOf s.
Proof.
  unfold startCompletion. now rewrite cache_chatAndWait, cache_injectSystem.
Qed.

(** *** The bound on the idempotency map as an invariant *)

Definition cacheInv (s : Server) : Prop :=
  DedupeFacts.nonEmptyKeys (idempotencyKeys s) /\
  Dedupe.size (idempotencyKeys s) <= dedupeMaxKeys (config s).

Lemma cacheInv_frame s s' : cacheOf s' = cacheOf s -> cacheInv s -> cacheInv s'.
Proof. unfold cacheOf, cacheInv. intros [= -> ->]. auto. Qed.

Lemma config_isDuplicateKey now k s :
  config (snd (isDuplicateKey now k s)) = config s.
Proof.
  unfold isDuplicateKey. now destruct (Dedupe.isDuplicateKey _ _ _ _).
Qed.

Lemma keys_isDuplicateKey now k s :
  idempotencyKeys (snd (isDuplicateKey now k s)) =
  snd (Dedupe.isDuplicateKey (dedupeTtlMs (config s)) now k (idempotencyKeys s)).
Proof.
  unfold isDuplicateKey. now destruct (Dedupe.isDuplicateKey _ _ _ _).
Qed.

Lemma dup_isDuplicateKey now k s :
  fst (isDuplicateKey now k s) =
  fst (Dedupe.isDuplicateKey (dedupeTtlMs (config s)) now k (idempotencyKeys s)).
Proof.
  unfold isDuplicateKey. now destruct (Dedupe.isDuplicateKey _ _ _ _).
Qed.

Lemma cacheInv_isDuplicateKey now k s :
  cacheInv s -> cacheInv (snd (isDuplicateKey now k s)).
Proof.
  intros [Hne Hsz]. unfold cacheInv.
  rewrite config_isDuplicateKey, keys_isDuplicateKey. split.
  - now apply DedupeFacts.probe_nonEmpty.
  - pose proof (DedupeFacts.probe_size_le (dedupeTtlMs (config s)) now k
                  (idempotencyKeys s)). lia.
Qed.

Lemma cacheInv_record now k s :
  1 <= dedupeMaxKeys (config s) -> k <> "" ->
  cacheInv s -> cacheInv (recordIdempotencyKey now k s).
Proof.
  intros Hmax Hk [Hne Hsz]. unfold cacheInv, recordIdempotencyKey. cbn. split.
  - now apply DedupeFacts.record_nonEmpty.
  - now apply DedupeFacts.record_bounded.
Qed.

Lemma cacheInv_dedupeCleanup now s : cacheInv s -> cacheInv (dedupeCleanup now s).
Proof.
  intros [Hne Hsz]. unfold cacheInv, dedupeCleanup. cbn. split.
  - now apply DedupeFacts.nonEmpty_sweep.
  - pose proof (DedupeFacts.size_sweep_le (dedupeTtlMs (config s)) now
                  (idempotencyKeys s)). lia.
Qed.

Lemma nullish_truthy (o : option string) :
  JS.truthy o = true -> JS.nullish o "" <> "".
Proof. intros H. apply truthy_inv in H as (k & -> & Hk). exact Hk. Qed.

Ltac probe_then now k s s1 dup Hd :=
  destruct (isDuplicateKey now k s) as [dup s1] eqn:Hd;
  pose proof (config_isDuplicateKey now k s) as Hcfg;
  pose proof (cacheInv_isDuplicateKey now k s) as Hinv;
  rewrite Hd in Hcfg, Hinv; cbn [snd] in Hcfg, Hinv.

Lemma cacheInv_handleChatSend now ws id p s :
  1 <= dedupeMaxKeys (config s) -> cacheInv s ->
  cacheInv (handleChatSend demo now ws id p s) /\
  config (handleChatSend demo now ws id p s) = config s.
Proof.
  intros Hmax Hs. unfold handleChatSend.
  destruct (JS.truthy (Params.sessionKey p)); cbn [negb orb]; [|auto].
  destruct (JS.truthy (Params.message p)); cbn [negb orb]; [|auto].
  destruct (JS.truthy (Params.idempotencyKey p)) eqn:Hk; cbn [negb orb]; [|auto].
  apply nullish_truthy in Hk.
  probe_then now (JS.nullish (Params.idempotencyKey p) "") s s1 dup Hd.
  destruct dup; [split; [eapply cacheInv_frame; [reflexivity | auto] | exact Hcfg]|].
  unfold createRun. cbn zeta.
  assert (Hc : forall X Y, cacheOf X = cacheOf Y -> config X = config Y)
    by (unfold cacheOf; now intros X Y [= -> _]).
  split.
  - eapply cacheInv_frame with
      (s := recordIdempotencyKey now (JS.nullish (Params.idempotencyKey p) "") s1).
    + now autorewrite with cache.
    + apply cacheInv_record; [now rewrite Hcfg | assumption | now apply Hinv].
  - rewrite <- Hcfg.
    transitivity
      (config (recordIdempotencyKey now (JS.nullish (Params.idempotencyKey p) "") s1));
      [apply Hc; now autorewrite with cache | reflexivity].
Qed.

Lemma cacheInv_handleAgent now ws id p s :
  1 <= dedupeMaxKeys (config s) -> cacheInv s ->
  cacheInv (handleAgent demo now ws id p s) /\
  config (handleAgent demo now ws id p s) = config s.
Proof.
  intros Hmax Hs. unfold handleAgent.
  destruct (JS.truthy (Params.message p)); cbn [negb orb]; [|auto].
  destruct (JS.truthy (Params.idempotencyKey p)) eqn:Hk; cbn [negb orb]; [|auto].
  apply nullish_truthy in Hk.
  probe_then now (JS.nullish (Params.idempotencyKey p) "") s s1 dup Hd.
  destruct dup; [split; [eapply cacheInv_frame; [reflexivity | auto] | exact Hcfg]|].
  unfold createRun. cbn zeta.
  assert (Hc : forall X Y, cacheOf X = cacheOf Y -> config X = config Y)
    by (unfold cacheOf; now intros X Y [= -> _]).
  split.
  - eapply cacheInv_frame with
      (s := recordIdempotencyKey now (JS.nullish (Params.idempotencyKey p) "") s1).
    + now autorewrite with cache.
    + apply cacheInv_record; [now rewrite Hcfg | assumption | now apply Hinv].
  - rewrite <- Hcfg.
    transitivity
      (config (recordIdempotencyKey now (JS.nullish (Params.idempotencyKey p) "") s1));
      [apply Hc; now autorewrite with cache | reflexivity].
Qed.

Lemma cacheInv_handleSend now ws id p s :
  1 <= dedupeMaxKeys (config s) -> cacheInv s ->
  cacheInv (handleSend now ws id p s) /\
  config (handleSend now ws id p s) = config s.
Proof.
  intros Hmax Hs. unfold handleSend.
  destruct (JS.truthy (Params.to p)); cbn [negb orb]; [|auto].
  destruct (JS.truthy (Params.message p)); cbn [negb orb]; [|auto].
  destruct (JS.truthy (Params.idempotencyKey p)) eqn:Hk; cbn [negb orb]; [|auto].
  apply nullish_truthy in Hk.
  probe_then now (JS.nullish (Params.idempotencyKey p) "") s s1 dup Hd.
  destruct dup; [split; [eapply cacheInv_frame; [reflexivity | auto] | exact Hcfg]|].
  split; [|exact Hcfg].
  eapply cacheInv_frame; [apply cache_sendResponse|].
  apply cacheInv_record; [now rewrite Hcfg | assumption | now apply Hinv].
Qed.

Lemma frame_gives s s' :
  cacheOf s' = cacheOf s -> cacheInv s -> cacheInv s' /\ config s' = config s.
Proof.
  intros H Hs. split; [now apply (cacheInv_frame s) |].
  unfold cacheOf in H. now injection H.
Qed.

Lemma cacheInv_callHandler now h ws id p s :
  1 <= dedupeMaxKeys (config s) -> cacheInv s ->
  cacheInv (callHandler demo now h ws id p s) /\
  config (callHandler demo now h ws id p s) = config s.
Proof.
  intros Hmax Hs.
  destruct h; cbn [callHandler];
    try (apply frame_gives; [reflexivity | exact Hs]).
  - now apply cacheInv_handleAgent.
  - apply frame_gives; [apply cache_handleAgentWait | exact Hs].
  - now apply cacheInv_handleChatSend.
  - apply frame_gives; [apply cache_handleChatAbort | exact Hs].
  - apply frame_gives; [apply cache_handleChatHistory | exact Hs].
  - apply frame_gives; [apply cache_handleChatInject | exact Hs].
  - apply frame_gives; [apply cache_handleSessionsPatch | exact Hs].
  - apply frame_gives; [apply cache_handleSessionsDelete | exact Hs].
  - now apply cacheInv_handleSend.
Qed.

Lemma cacheInv_handleMessage now ws raw s :
  1 <= dedupeMaxKeys (config s) -> cacheInv s ->
  cacheInv (handleMessage demo now ws raw s) /\
  config (handleMessage demo now ws raw s) = config s.
Proof.
  intros Hmax Hs. unfold handleMessage.
  destruct (rawLength raw >? maxPayload (config s));
    [apply frame_gives; [reflexivity | exact Hs]|].
  destruct (parsed raw) as [| |frame];
    [apply frame_gives; [reflexivity | exact Hs]
    |apply frame_gives; [reflexivity | exact Hs]|].
  destruct (negb (optEq (ftype frame) "req"));
    [apply frame_gives; [reflexivity | exact Hs]|].
  destruct (_ || _); [apply frame_gives; [reflexivity | exact Hs]|].
  destruct (negb (isAuthenticated s ws)).
  - destruct (negb _); apply frame_gives;
      [reflexivity | exact Hs | apply cache_handleConnect | exact Hs].
  - destruct (lookupMethod _ _);
      [now apply cacheInv_callHandler | apply frame_gives; [reflexivity | exact Hs]].
Qed.

Lemma cacheInv_step s i :
  1 <= dedupeMaxKeys (config s) -> cacheInv s ->
  cacheInv (step demo s i) /\ config (step demo s i) = config s.
Proof.
  intros Hmax Hs. destruct i as [now []]; cbn [step fst snd].
  - apply frame_gives; [reflexivity | exact Hs].
  - now apply cacheInv_handleMessage.
  - apply frame_gives; [apply cache_handleClose | exact Hs].
  - apply frame_gives; [apply cache_fireTimer | exact Hs].
  - split; [now apply cacheInv_dedupeCleanup | reflexivity].
  - destruct (handleHttpRequest req s) as [[]|];
      apply frame_gives; try reflexivity; try exact Hs.
    apply cache_startCompletion.
  - apply frame_gives; [apply cache_emitAgentEvent | exact Hs].
  - apply frame_gives; [apply cache_emitChatEvent | exact Hs].
  - apply frame_gives; [apply cache_finishRun | exact Hs].
  - apply frame_gives; [apply cache_adapterThrows | exact Hs].
  - apply frame_gives; [reflexivity | exact Hs].
  - apply frame_gives; [reflexivity | exact Hs].
  - apply frame_gives; [|exact Hs]. unfold isAborted. now split_cases.
  - apply frame_gives; [reflexivity | exact Hs].
  - apply frame_gives; [reflexivity | exact Hs].
  - apply frame_gives; [reflexivity | exact Hs].
  - apply frame_gives; [reflexivity | exact Hs].
  - apply frame_gives; [apply cache_chatAndWait | exact Hs].
Qed.

Lemma cacheInv_exec inputs s :
  1 <= dedupeMaxKeys (config s) -> cacheInv s ->
  cacheInv (exec demo s inputs) /\ config (exec demo s inputs) = config s.
Proof.
  revert s. induction inputs as [|i inputs IH]; intros s Hmax Hs; [now split|].
  cbn [exec fold_left].
  destruct (cacheInv_step s i Hmax Hs) as [Hs' Hcfg].
  destruct (IH (step demo s i)) as [H1 H2]; [now rewrite Hcfg | assumption |].
  split; [exact H1 | now rewrite <- Hcfg].
Qed.

(** *** The wire log only grows *)

Lemma wireExtends_eq s s' : wire s' = wire s -> wireExtends s s'.
Proof. intros H. exists []. now rewrite app_nil_r. Qed.

Lemma wireExtends_send ws f s : wireExtends s (send ws f s).
Proof. now exists [Send ws f]. Qed.

Lemma wireExtends_broadcast b s : wireExtends s (broadcast b s).
Proof. unfold broadcast. eexists. reflexivity. Qed.

Lemma wire_ensureSessionMeta now k s : wire (ensureSessionMeta now k s) = wire s.
Proof. unfold ensureSessionMeta. now split_cases. Qed.

Lemma wire_appendHistory now k e s : wire (appendHistory now k e s) = wire s.
Proof. unfold appendHistory. cbn. now rewrite wire_ensureSessionMeta. Qed.

Lemma wireExtends_emitAgentEvent rid st d s : wireExtends s (emitAgentEvent rid st d s).
Proof.
  unfold emitAgentEvent. destruct (runs s !! rid); [|apply wireExtends_refl].
  eexists. reflexivity.
Qed.

Lemma wireExtends_emitChatEvent rid st t s : wireExtends s (emitChatEvent rid st t s).
Proof.
  unfold emitChatEvent. destruct (runs s !! rid); [|apply wireExtends_refl].
  destruct st; eexists; reflexivity.
Qed.

Lemma wireExtends_resolveWaiters rid st t ws s :
  wireExtends s (fold_left (resolveWaiter rid st t) ws s).
Proof.
  revert s. induction ws as [|w ws IH]; intros s; simpl; [apply wireExtends_refl|].
  eapply wireExtends_trans; [|apply IH].
  destruct w; [eexists; reflexivity | now apply wireExtends_eq].
Qed.

Lemma wireExtends_finishRun now rid st err parts s :
  wireExtends s (finishRun demo now rid st err parts s).
Proof.
  unfold finishRun. destruct (runs s !! rid) as [run|]; [|apply wireExtends_refl].
  eapply wireExtends_trans; [|apply wireExtends_eq; reflexivity].
  eapply wireExtends_trans; [|apply wireExtends_resolveWaiters].
  eapply wireExtends_trans; [|apply wireExtends_eq; reflexivity].
  destruct st.
  - eapply wireExtends_trans; [|apply wireExtends_eq, wire_appendHistory].
    eapply wireExtends_trans; [|apply wireExtends_emitChatEvent].
    eapply wireExtends_trans; [|apply wireExtends_emitAgentEvent].
    apply wireExtends_eq. reflexivity.
  - eapply wireExtends_trans; [|apply wireExtends_emitChatEvent].
    eapply wireExtends_trans; [|apply wireExtends_emitAgentEvent].
    apply wireExtends_eq. reflexivity.
Qed.

Lemma wire_handleSlashCommand run lower s :
  wire (fst (handleSlashCommand run lower s)) = wire s.
Proof. unfold handleSlashCommand. now split_cases. Qed.

Lemma wireExtends_executeRun now rid s : wireExtends s (executeRun demo now rid s).
Proof.
  unfold executeRun. destruct (runs s !! rid) as [run|]; [|apply wireExtends_refl].
  assert (Hdemo : wireExtends s
            (if onAgentRun s then s
             else emitAgentEvent rid "lifecycle" LifecycleStart s))
    by (destruct (onAgentRun s);
        [apply wireExtends_refl | apply wireExtends_emitAgentEvent]).
  destruct (JS.startsWith _ "/"); [|exact Hdemo].
  pose proof (wire_handleSlashCommand run
    (JS.toLowerCase (JS.trim (Run.message run))) s) as H.
  destruct (handleSlashCommand _ _ s) as [s' [result|]]; [|exact Hdemo].
  cbn [fst] in H.
  eapply wireExtends_trans; [|apply wireExtends_finishRun].
  eapply wireExtends_trans; [|apply wireExtends_eq, wire_appendHistory].
  eapply wireExtends_trans; [|apply wireExtends_emitChatEvent].
  eapply wireExtends_trans; [|apply wireExtends_eq; reflexivity].
  eapply wireExtends_trans; [|apply wireExtends_emitAgentEvent].
  now apply wireExtends_eq.
Qed.

Lemma with_idempotencyKeys_id s : with_idempotencyKeys (idempotencyKeys s) s = s.
Proof. now destruct s. Qed.

Lemma runCounter_ensureSessionMeta now k s :
  runCounter (ensureSessionMeta now k s) = runCounter s.
Proof. unfold ensureSessionMeta. now split_cases. Qed.

Lemma keys_of_cache s s' : cacheOf s' = cacheOf s -> idempotencyKeys s' = idempotencyKeys s.
Proof. unfold cacheOf. now intros [= _ ->]. Qed.

(** ** Idempotency of [chat.send] *)

(** C4 (as amended): the probe answers "duplicate" exactly when the key is
    present and at most TTL milliseconds old (an entry expires only once
    its age exceeds the TTL).  For a [chat.send] whose key is cached
    with first-seen time [ts]: up to [ts + TTL] it fails with
    INVALID_REQUEST "Duplicate idempotency key" and changes nothing else;
    later the probe purges the entry, the request is accepted with a new
    run id, and the key is recorded again with the new time. *)
Theorem chat_send_duplicate_until_ttl_exceeded
    (s : Server) (now : Z) (ws : nat) (id : string) (p : Params.t)
    (sk msg k : string) (ts : Z)
    (Hsk : Params.sessionKey p = Some sk) (Hsk' : sk <> "")
    (Hmsg : Params.message p = Some msg) (Hmsg' : msg <> "")
    (Hk : Params.idempotencyKey p = Some k) (Hk' : k <> "")
    (Hcached : Dedupe.get k (idempotencyKeys s) = Some ts) :
  let ttl := dedupeTtlMs (config s) in
  let s' := handleChatSend demo now ws id p s in
  (forall k', fst (isDuplicateKey now k' s) = true <->
              exists ts', Dedupe.get k' (idempotencyKeys s) = Some ts' /\
                          now - ts' <= ttl)
  /\ (now - ts <= ttl ->
      s' = sendError ws id "INVALID_REQUEST" "Duplicate idempotency key" s)
  /\ (now - ts > ttl ->
      idempotencyKeys (snd (isDuplicateKey now k s)) =
        Dedupe.delete k (idempotencyKeys s)
      /\ In (Send ws (ResOk id (PRunStarted
                                  ("run_" +:+ JS.toString36 (S (runCounter s)))
                                  (Some sk))))
            (wire s')
      /\ Dedupe.get k (idempotencyKeys s') = Some now).
Proof.
  intros ttl s'. split; [|split].
  - intros k'. rewrite dup_isDuplicateKey. apply DedupeFacts.probe_true_iff.
  - intros Hfresh. subst s'. unfold handleChatSend.
    rewrite Hsk, Hmsg, Hk.
    apply truthy_Some in Hsk', Hmsg', Hk'. rewrite Hsk', Hmsg', Hk'.
    cbn [negb orb JS.nullish].
    unfold isDuplicateKey, Dedupe.isDuplicateKey. rewrite Hcached.
    destruct (Z.gtb_spec (now - ts) (dedupeTtlMs (config s))); [subst ttl; lia|].
    now rewrite with_idempotencyKeys_id.
  - intros Hold.
    assert (Hprobe : isDuplicateKey now k s =
              (false, with_idempotencyKeys (Dedupe.delete k (idempotencyKeys s)) s)).
    { unfold isDuplicateKey, Dedupe.isDuplicateKey. rewrite Hcached.
      destruct (Z.gtb_spec (now - ts) (dedupeTtlMs (config s)));
        [reflexivity | subst ttl; lia]. }
    split; [now rewrite Hprobe|].
    subst s'. unfold handleChatSend.
    rewrite Hsk, Hmsg, Hk.
    apply truthy_Some in Hsk', Hmsg', Hk'. rewrite Hsk', Hmsg', Hk'.
    cbn [negb orb JS.nullish]. rewrite Hprobe. unfold createRun. cbn zeta.
    rewrite runCounter_ensureSessionMeta. cbn [runCounter recordIdempotencyKey
      with_idempotencyKeys].
    split.
    + eapply wireExtends_In; [apply wireExtends_executeRun|].
      unfold send at 1. cbn [wire with_wire]. apply in_or_app. right. now left.
    + match goal with
      | |- Dedupe.get k (idempotencyKeys (executeRun _ _ _ (send _ _ (appendHistory _ _ _
             (with_runs _ (with_runCounter _ (ensureSessionMeta _ _ ?s0))))))) = _ =>
          rewrite (keys_of_cache s0)
      end.
      * apply DedupeFacts.record_get.
      * now autorewrite with cache.
Qed.

(** ** The bound of the idempotency map *)

Lemma cacheInv_newServer cfg external :
  1 <= dedupeMaxKeys cfg -> cacheInv (newServer cfg external).
Proof.
  intros H. split; [constructor | unfold Dedupe.size; cbn; lia].
Qed.

(** C7 (as amended): with a capacity of at least one key, in every state
    the server reaches the idempotency map holds at most [dedupeMaxKeys]
    entries.  Recording a key there sets the key to the current time and
    keeps the bound; below the capacity nothing is removed, and at the
    capacity the entry inserted earliest is removed first and the key is
    set in what remains. *)
Theorem idempotency_cache_evicts_oldest_and_stays_bounded
    (cfg : ResolvedConfig) (external : bool) (inputs : list (Z * Input))
    (Hmax : 1 <= dedupeMaxKeys cfg) :
  let s := exec demo (newServer cfg external) inputs in
  Dedupe.size (idempotencyKeys s) <= dedupeMaxKeys cfg
  /\ forall now key,
       let s' := recordIdempotencyKey now key s in
       Dedupe.get key (idempotencyKeys s') = Some now
       /\ Dedupe.size (idempotencyKeys s') <= dedupeMaxKeys cfg
       /\ (Dedupe.size (idempotencyKeys s) < dedupeMaxKeys cfg ->
           idempotencyKeys s' = Dedupe.set key now (idempotencyKeys s))
       /\ (Dedupe.size (idempotencyKeys s) = dedupeMaxKeys cfg ->
           exists oldest ts rest,
             idempotencyKeys s = (oldest, ts) :: rest /\
             idempotencyKeys s' = Dedupe.set key now rest).
Proof.
  intros s.
  destruct (cacheInv_exec inputs (newServer cfg external)) as [[Hne Hsz] Hcfg];
    [exact Hmax | now apply cacheInv_newServer |].
  fold s in Hne, Hsz, Hcfg. cbn [newServer config] in Hcfg.
  rewrite Hcfg in Hsz. split; [exact Hsz|].
  intros now key. cbv zeta. unfold recordIdempotencyKey.
  cbn [idempotencyKeys with_idempotencyKeys]. rewrite Hcfg.
  split; [apply DedupeFacts.record_get|].
  split; [now apply DedupeFacts.record_bounded|].
  split; [apply DedupeFacts.record_below_capacity|].
  intros Hfull.
  destruct (idempotencyKeys s) as [|[oldest ts] rest] eqn:Hkeys.
  - unfold Dedupe.size in Hfull. cbn in Hfull. lia.
  - exists oldest, ts, rest. split; [reflexivity|].
    apply DedupeFacts.record_at_capacity.
    + now inversion Hne.
    + lia.
Qed.

(** ** Frames before the handshake *)


(** ** The [agent] method and the session history *)

Lemma chatHistory_ensureSessionMeta now k s :
  chatHistory (ensureSessionMeta now k s) = chatHistory s.
Proof. unfold ensureSessionMeta. now split_cases. Qed.

Lemma runs_ensureSessionMeta now k s : runs (ensureSessionMeta now k s) = runs s.
Proof. unfold ensureSessionMeta. now split_cases. Qed.

Lemma onAgentRun_ensureSessionMeta now k s :
  onAgentRun (ensureSessionMeta now k s) = onAgentRun s.
Proof. unfold ensureSessionMeta. now split_cases. Qed.

(** C2 (what the code does): an accepted [agent] request whose message is
    not a slash command creates the run and acknowledges it with the new
    run id, but leaves every session history as it was: the user message
    is not appended, so neither [chat.history] nor the adapter, which
    reads [getChatHistory], sees it. *)
Theorem agent_request_leaves_history_unchanged
    (s : Server) (now : Z) (ws : nat) (id : string) (p : Params.t)
    (msg k : string)
    (Hmsg : Params.message p = Some msg) (Hmsg' : msg <> "")
    (Hk : Params.idempotencyKey p = Some k) (Hk' : k <> "")
    (Hfresh : Dedupe.get k (idempotencyKeys s) = None)
    (Hplain : JS.startsWith (JS.toLowerCase (JS.trim msg)) "/" = false) :
  let sessionKey := JS.nullish (Params.sessionKey p) "default" in
  let rid := "run_" +:+ JS.toString36 (S (runCounter s)) in
  let s' := handleAgent demo now ws id p s in
  chatHistory s' = chatHistory s
  /\ getChatHistory s' sessionKey = getChatHistory s sessionKey
  /\ In (Send ws (ResOk id (PRunStarted rid None))) (wire s')
  /\ exists run, runs s' !! rid = Some run
                 /\ Run.message run = msg
                 /\ Run.sessionKey run = sessionKey
                 /\ Run.state run = Running.
Proof.
  intros sessionKey rid s'.
  assert (Hs' : s' =
    let s1 := recordIdempotencyKey now k s in
    let s2 := ensureSessionMeta now sessionKey s1 in
    let run := Run.mk rid sessionKey msg 0 Running "" "" false [] in
    let s3 := with_runs (<[rid := run]> (runs s2)) (with_runCounter (S (runCounter s)) s2) in
    let s4 := sendResponse ws id (PRunStarted rid None) s3 in
    if onAgentRun s then s4 else emitAgentEvent rid "lifecycle" LifecycleStart s4).
  { subst s'. unfold handleAgent. rewrite Hmsg, Hk.
    apply truthy_Some in Hmsg', Hk'. rewrite Hmsg', Hk'.
    cbn [negb orb JS.nullish].
    unfold isDuplicateKey, Dedupe.isDuplicateKey. rewrite Hfresh.
    rewrite with_idempotencyKeys_id. unfold createRun. cbn zeta.
    rewrite runCounter_ensureSessionMeta.
    cbn [runCounter recordIdempotencyKey with_idempotencyKeys].
    fold rid. fold sessionKey. unfold executeRun.
    cbn [runs sendResponse send with_wire with_runs].
    rewrite lookup_insert_eq. cbn [Run.message]. rewrite Hplain.
    match goal with
    | |- (if onAgentRun ?x then _ else _) = _ =>
        replace (onAgentRun x) with (onAgentRun s)
          by (cbn; now rewrite onAgentRun_ensureSessionMeta)
    end.
    reflexivity. }
  cbn zeta in Hs'.
  assert (Hhist : chatHistory s' = chatHistory s).
  { rewrite Hs'. destruct (onAgentRun s).
    - cbn. now rewrite chatHistory_ensureSessionMeta.
    - unfold emitAgentEvent. cbn [runs sendResponse send with_wire with_runs].
      rewrite lookup_insert_eq. cbn. now rewrite chatHistory_ensureSessionMeta. }
  split; [exact Hhist|]. split; [unfold getChatHistory; now rewrite Hhist|].
  rewrite Hs'. destruct (onAgentRun s).
  - split.
    + cbn. apply in_or_app. right. now left.
    + eexists. cbn [runs sendResponse send with_wire with_runs].
      rewrite lookup_insert_eq. repeat split.
  - unfold emitAgentEvent. cbn [runs sendResponse send with_wire with_runs].
    rewrite lookup_insert_eq. split.
    + cbn. apply in_or_app. left. apply in_or_app. right. now left.
    + eexists. cbn [runs broadcast with_wire with_runs with_globalSeq].
      rewrite lookup_insert_eq. repeat split.
Qed.

(** ** [chat.history] *)

Lemma sliceLast_zero (history : list HistoryEntry) : sliceLast 0 history = history.
Proof.
  unfold sliceLast. cbn. rewrite Z.min_l by lia. reflexivity.
Qed.

(** For a positive limit the reply is the last [min limit 1000] entries. *)
Lemma sliceLast_positive (limit : Z) (history : list HistoryEntry) :
  1 <= limit ->
  sliceLast (Z.min limit 1000) history =
  drop (length history - Z.to_nat (Z.min limit 1000)) history.
Proof.
  intros H. unfold sliceLast.
  destruct (Z.ltb_spec (- Z.min limit 1000) 0); [|lia].
  f_equal. lia.
Qed.

(** C6 (what the code does): a [chat.history] request with limit 0 is
    answered with the whole history of the session, because
    [history.slice(-0)] is [history.slice(0)]. *)
Theorem chat_history_limit_zero_returns_everything
    (s : Server) (now : Z) (ws : nat) (id : string) (p : Params.t) (sk : string)
    (Hsk : Params.sessionKey p = Some sk) (Hsk' : sk <> "")
    (Hlimit : Params.limit p = Some 0) :
  exists more,
    wire (handleChatHistory now ws id p s) =
    wire s ++ Send ws (ResOk id (PHistory sk (getChatHistory s sk))) :: more.
Proof.
  unfold handleChatHistory. rewrite Hsk, Hlimit.
  apply truthy_Some in Hsk'. rewrite Hsk'. cbn [negb JS.nullish].
  change (Z.min 0 1000) with 0. rewrite sliceLast_zero.
  unfold getChatHistory.
  destruct (JS.nullish (chatHistory s !! sk) []) eqn:Hh.
  - destruct (greeting _) as [text|]; [|now exists []].
    destruct (JS.truthy (Some text)); [|now exists []].
    rewrite wire_appendHistory. cbn. rewrite <- app_assoc. eexists. reflexivity.
  - now exists [].
Qed.

(** ** Finishing a run *)

(** The responses the registered [agent.wait] waiters send, and the
    promises the [chatAndWait] waiters settle. *)
Definition socketReplies (rid : string) (st : RunState) (text : string)
    (waiters : list Waiter) : list Wire :=
  omap (fun w => match w with
                 | SocketWaiter ws id _ => Some (Send ws (ResOk id (PRunResult rid st text)))
                 | PromiseWaiter _ => None
                 end) waiters.

Definition settled (text : string) (waiters : list Waiter) : list (nat * string) :=
  omap (fun w => match w with
                 | SocketWaiter _ _ _ => None
                 | PromiseWaiter p => Some (p, text)
                 end) waiters.

Lemma resolveWaiters_spec rid st text waiters s :
  let s' := fold_left (resolveWaiter rid st text) waiters s in
  wire s' = wire s ++ socketReplies rid st text waiters
  /\ promises s' = promises s ++ settled text waiters
  /\ chatHistory s' = chatHistory s
  /\ runs s' = runs s
  /\ sessionMeta s' = sessionMeta s
  /\ globalSeq s' = globalSeq s.
Proof.
  revert s. induction waiters as [|w waiters IH]; intros s; cbn zeta.
  - cbn. now rewrite !app_nil_r.
  - cbn [fold_left].
    destruct (IH (resolveWaiter rid st text s w)) as (H1 & H2 & H3 & H4 & H5 & H6).
    rewrite H1, H2, H3, H4, H5, H6. destruct w; cbn; rewrite <- ?app_assoc; auto 7.
Qed.

Lemma emitAgentEvent_eq rid stream data s r :
  runs s !! rid = Some r ->
  emitAgentEvent rid stream data s =
  broadcast (AgentEvent rid (Run.sessionKey r) (S (Run.seq r)) stream data)
    (with_runs (<[rid := Run.setSeq (S (Run.seq r)) r]> (runs s)) s).
Proof. intros H. unfold emitAgentEvent. now rewrite H. Qed.

Lemma emitChatEvent_error_eq rid text s r :
  runs s !! rid = Some r ->
  emitChatEvent rid ChatError text s =
  broadcast (ChatFailure rid (Run.sessionKey r) (Run.seq r) text) s.
Proof. intros H. unfold emitChatEvent. now rewrite H. Qed.

Lemma emitChatEvent_message_eq rid st text s r :
  runs s !! rid = Some r -> st <> ChatError ->
  emitChatEvent rid st text s =
  broadcast
    (ChatMessage rid (Run.sessionKey r) (Run.seq r) st
       ((if String.eqb (Run.accumulatedThinking r) "" then []
         else [ThinkingPart (Run.accumulatedThinking r)]) ++ [TextPart text])) s.
Proof. intros H Hst. unfold emitChatEvent. rewrite H. now destruct st. Qed.

(** C5: finishing a run in the error state broadcasts (to every client, as
    the next two events of the global sequence) the lifecycle event of
    phase "error" and then the chat event of state "error", both with the
    error message; leaves every session history unchanged; marks the
    run "error"; and calls every registered waiter with a result whose
    state is "error" (a response on the socket of each [agent.wait], the
    promise of each [chatAndWait]), after which no waiter is left. *)
Theorem finish_run_error
    (s : Server) (now : Z) (rid : string) (run : Run.t) (err : option string)
    (Hrun : runs s !! rid = Some run) :
  let msg := JS.nullish err "Unknown error" in
  let sk := Run.sessionKey run in
  let n := S (Run.seq run) in
  let s' := finishRun demo now rid FinError err None s in
  wire s' =
    wire s
    ++ map (fun c => Send c (Event (S (globalSeq s))
                               (AgentEvent rid sk n "lifecycle" (LifecycleError msg))))
           (clients s)
    ++ map (fun c => Send c (Event (S (S (globalSeq s))) (ChatFailure rid sk n msg)))
           (clients s)
    ++ socketReplies rid Errored (Run.accumulatedText run) (Run.waitResolvers run)
  /\ promises s' =
       promises s ++ settled (Run.accumulatedText run) (Run.waitResolvers run)
  /\ globalSeq s' = S (S (globalSeq s))
  /\ chatHistory s' = chatHistory s
  /\ exists run', runs s' !! rid = Some run'
                  /\ Run.state run' = Errored
                  /\ Run.waitResolvers run' = [].
Proof.
  intros msg sk n s'. subst s'. unfold finishRun. rewrite Hrun.
  cbn [runStateOf]. fold msg.
  set (s1 := with_runs (<[rid := Run.setState Errored run]> (runs s)) s).
  assert (H1 : runs s1 !! rid = Some (Run.setState Errored run))
    by (subst s1; cbn; apply lookup_insert_eq).
  rewrite (emitAgentEvent_eq _ _ _ _ _ H1).
  set (r2 := Run.setSeq (S (Run.seq (Run.setState Errored run)))
               (Run.setState Errored run)).
  match goal with |- context [emitChatEvent _ _ _ ?x] => set (s2 := x) end.
  assert (H2 : runs s2 !! rid = Some r2)
    by (subst s2; cbn; apply lookup_insert_eq).
  rewrite (emitChatEvent_error_eq _ _ _ _ H2).
  match goal with |- context [fold_left _ _ ?x] => set (s4 := x) end.
  destruct (resolveWaiters_spec rid Errored (Run.accumulatedText run)
              (Run.waitResolvers run) s4) as (Hw & Hp & Hh & Hr & _ & Hg).
  cbn zeta in Hw, Hp, Hh, Hr, Hg.
  cbn [wire promises chatHistory runs globalSeq with_runs].
  rewrite Hw, Hp, Hh, Hr, Hg. repeat split.
  - subst s4 s2 s1 r2. cbn. now rewrite <- !app_assoc.
  - subst s4 s2 s1. cbn. rewrite lookup_alter_eq, lookup_insert_eq. cbn.
    eexists. repeat split.
Qed.

(** ** Slash commands *)

Lemma startsWith_slash_lower (t : string) :
  JS.startsWith (JS.toLowerCase t) "/" = JS.startsWith t "/".
Proof.
  destruct t as [|c r]; [reflexivity|].
  destruct c as [[] [] [] [] [] [] [] []]; try reflexivity.
  now destruct r.
Qed.

(** The run registered under [rid] belongs to session [sk]. *)
Definition runOf (s : Server) (rid sk : string) : Prop :=
  exists r, runs s !! rid = Some r /\ Run.sessionKey r = sk.

Lemma runOf_emitAgentEvent rid sk stream data s :
  runOf s rid sk -> runOf (emitAgentEvent rid stream data s) rid sk.
Proof.
  intros (r & Hr & Hsk). rewrite (emitAgentEvent_eq _ _ _ _ _ Hr).
  eexists. cbn. rewrite lookup_insert_eq. split; [reflexivity | exact Hsk].
Qed.

Lemma runs_emitChatEvent rid st text s : runs (emitChatEvent rid st text s) = runs s.
Proof. unfold emitChatEvent. now split_cases. Qed.

Lemma runOf_emitChatEvent rid sk st text s :
  runOf s rid sk -> runOf (emitChatEvent rid st text s) rid sk.
Proof. unfold runOf. now rewrite runs_emitChatEvent. Qed.

Lemma runOf_setAccumulatedText rid sk text s :
  runOf s rid sk -> runOf (setAccumulatedText rid text s) rid sk.
Proof.
  intros (r & Hr & Hsk). exists (Run.setText text r). cbn.
  rewrite lookup_alter_eq, Hr. split; [reflexivity | exact Hsk].
Qed.

Lemma runs_appendHistory now k e s : runs (appendHistory now k e s) = runs s.
Proof. unfold appendHistory. cbn. now rewrite runs_ensureSessionMeta. Qed.

Lemma runOf_appendHistory now k e rid sk s :
  runOf s rid sk -> runOf (appendHistory now k e s) rid sk.
Proof. unfold runOf. now rewrite runs_appendHistory. Qed.

Lemma chatHistory_emitAgentEvent rid stream data s :
  chatHistory (emitAgentEvent rid stream data s) = chatHistory s.
Proof. unfold emitAgentEvent. now split_cases. Qed.

Lemma chatHistory_emitChatEvent rid st text s :
  chatHistory (emitChatEvent rid st text s) = chatHistory s.
Proof. unfold emitChatEvent. now split_cases. Qed.

Lemma chatHistory_appendHistory now k e s :
  chatHistory (appendHistory now k e s) =
  <[k := getChatHistory s k ++ [e]]> (chatHistory s).
Proof. unfold appendHistory. cbn. now rewrite chatHistory_ensureSessionMeta. Qed.

Lemma getChatHistory_appendHistory now k e s :
  getChatHistory (appendHistory now k e s) k = getChatHistory s k ++ [e].
Proof.
  unfold getChatHistory at 1. rewrite chatHistory_appendHistory.
  now rewrite lookup_insert_eq.
Qed.

(** A completed run whose content parts the caller supplies: [finishRun]
    appends them as one assistant entry with stop reason "end_turn". *)
Lemma finishRun_completed_history now rid sk err parts s :
  runOf s rid sk ->
  getChatHistory (finishRun demo now rid FinCompleted err (Some parts) s) sk =
  getChatHistory s sk
    ++ [mkHistoryEntry RAssistant parts now (Some "end_turn") None None].
Proof.
  intros (r & Hr & Hsk). unfold finishRun. rewrite Hr.
  match goal with |- context [fold_left _ _ ?x] => set (s4 := x) end.
  destruct (resolveWaiters_spec rid (runStateOf FinCompleted)
              (Run.accumulatedText r) (Run.waitResolvers r) s4)
    as (_ & _ & Hh & _).
  cbn zeta in Hh. unfold getChatHistory at 1.
  cbn [chatHistory with_runs]. rewrite Hh. subst s4.
  cbn [chatHistory with_sessionMeta]. rewrite Hsk.
  fold (getChatHistory
          (appendHistory now sk
             (mkHistoryEntry RAssistant parts now (Some "end_turn") None None)
             (emitChatEvent rid Final (Run.accumulatedText r)
                (emitAgentEvent rid "lifecycle" LifecycleEnd
                   (with_runs (<[rid:=Run.setState (runStateOf FinCompleted) r]> (runs s)) s))))
          sk).
  rewrite getChatHistory_appendHistory. unfold getChatHistory.
  now rewrite chatHistory_emitChatEvent, chatHistory_emitAgentEvent.
Qed.

(** Every slash command is handled: it yields a reply without a stop
    reason of its own, keeps the run table, and only ["/new"] touches the
    history, which it clears for the session of the run. *)
Lemma handleSlashCommand_spec run lower s :
  exists s0 result,
    handleSlashCommand run lower s = (s0, Some result)
    /\ slashStopReason result = None
    /\ runs s0 = runs s
    /\ getChatHistory s0 (Run.sessionKey run) =
         (if String.eqb lower "/new" then []
          else getChatHistory s (Run.sessionKey run)).
Proof.
  unfold handleSlashCommand.
  destruct (String.eqb lower "/new").
  - eexists _, _. split; [reflexivity|]. repeat split.
    unfold getChatHistory. cbn. now rewrite lookup_delete_eq.
  - split_cases; eexists _, _; (split; [reflexivity|]); repeat split.
Qed.

(** C10: for a run whose trimmed message begins with "/", [executeRun]
    leaves the session history with two more assistant entries of the same
    text: the first, appended by the interceptor, has stop reason "stop"
    (no command supplies another) and names the model and provider; the
    second, appended by [finishRun], has stop reason "end_turn".  They
    follow the history the session had, or an empty one after ["/new"]. *)
Theorem slash_command_appends_two_assistant_entries
    (s : Server) (now : Z) (rid : string) (run : Run.t)
    (Hrun : runs s !! rid = Some run)
    (Hslash : JS.startsWith (JS.trim (Run.message run)) "/" = true) :
  let sk := Run.sessionKey run in
  let lower := JS.toLowerCase (JS.trim (Run.message run)) in
  let before := if String.eqb lower "/new" then [] else getChatHistory s sk in
  exists text model provider,
    getChatHistory (executeRun demo now rid s) sk =
    before ++
      [mkHistoryEntry RAssistant [TextPart text] now (Some "stop")
         (Some model) (Some provider);
       mkHistoryEntry RAssistant [TextPart text] now (Some "end_turn")
         None None].
Proof.
  intros sk lower before. unfold executeRun. rewrite Hrun.
  fold lower. unfold lower at 1. rewrite startsWith_slash_lower, Hslash.
  destruct (handleSlashCommand_spec run lower s)
    as (s0 & result & Hcmd & Hstop & Hruns & Hhist).
  rewrite Hcmd, Hstop. cbn [JS.nullish]. fold sk in Hhist |- *.
  assert (H0 : runOf s0 rid sk) by (exists run; now rewrite Hruns).
  set (s1 := emitAgentEvent rid "lifecycle" LifecycleStart s0).
  set (s2 := setAccumulatedText rid (slashText result) s1).
  set (s3 := emitChatEvent rid Delta (slashText result) s2).
  do 3 eexists.
  rewrite (finishRun_completed_history now rid sk).
  - rewrite getChatHistory_appendHistory.
    assert (Hsame : getChatHistory s3 sk = before).
    { unfold getChatHistory in *. subst s3 s2 s1 before.
      rewrite chatHistory_emitChatEvent. cbn [chatHistory setAccumulatedText with_runs].
      now rewrite chatHistory_emitAgentEvent. }
    rewrite Hsame, <- app_assoc. reflexivity.
  - apply runOf_appendHistory, runOf_emitChatEvent, runOf_setAccumulatedText,
      runOf_emitAgentEvent, H0.
Qed.

End Frames.

(* ===================================================================== *)
(** * Concrete executions *)
(* ===================================================================== *)

Module Scenario.

(** A demo table without tool calls. *)
Definition noTools : string -> list ContentPart := fun _ => [].

Definition request (id method : string) (p : Params.t) : RawMessage :=
  mkRaw 64 (JsonValue (mkRequest (Some "req") (Some id) (Some method) (Some p))).

Definition connectParams (token password : option string) : Params.t :=
  Params.mk None None None None None None None None None
    (Some "t") (Some "1") None (Some 3) (Some 3) token password None.

Definition sendParams (sessionKey : option string) (message key : string) : Params.t :=
  Params.mk sessionKey (Some message) (Some key) None None None None None None
    None None None None None None None None.

Definition waitParams (runId : string) (timeoutMs : Z) : Params.t :=
  Params.mk None None None None (Some runId) (Some timeoutMs) None None None
    None None None None None None None None.

Definition historyParams (sessionKey : string) (limit : option Z) : Params.t :=
  Params.mk (Some sessionKey) None None limit None None None None None
    None None None None None None None None.

(** One client, connected and authenticated on socket 1. *)
Definition handshake : list (Z * Input) :=
  [(0, Accept 1 "nonce");
   (1, Message 1 (request "c" "connect" (connectParams None None)))].

(** A server whose runs are executed by an external handler. *)
Definition connected : Server :=
  exec noTools (newServer defaultConfig true) handshake.

(** The client starts a run, waits for it with a timeout, the timeout
    fires, and then the handler finishes the run. *)
Definition waitTimesOutThenRunEnds : list (Z * Input) :=
  [(2, Message 1 (request "r1" "agent" (sendParams None "hello" "k1")));
   (3, Message 1 (request "r2" "agent.wait" (waitParams "run_1" 10)));
   (13, TimerFires 2);
   (30, FinishRun "run_1" FinCompleted None (Some [TextPart "done"]))].

Definition responsesTo (ws : nat) (id : string) (log : list Wire) : list Frame :=
  omap (fun w => match w with
                 | Send ws' (ResOk id' p) =>
                     if Nat.eqb ws' ws && String.eqb id' id then Some (ResOk id' p) else None
                 | Send ws' (ResErr id' c m) =>
                     if Nat.eqb ws' ws && String.eqb id' id then Some (ResErr id' c m) else None
                 | _ => None
                 end) log.

Definition closes (ws : nat) (log : list Wire) : list Wire :=
  List.filter (fun w => match w with Close ws' _ _ => Nat.eqb ws' ws | _ => false end) log.

End Scenario.

(** ** One response per request *)

(** The timeout of [agent.wait] answers the caller and leaves the run table,
    and with it the waiter registered on the run, as it was. *)
Lemma fireTimer_wait_keeps_waiter (timer ws : nat) (id : string) (s : Server) :
  timers s !! timer = Some (WaitTimer ws id) ->
  runs (fireTimer timer s) = runs s
  /\ wire (fireTimer timer s) =
       wire s ++ [Send ws (ResErr id "AGENT_TIMEOUT" "Wait timed out")].
Proof. intros H. unfold fireTimer. rewrite H. now split. Qed.

(** C1 (what the code does): the request [agent.wait] with id "r2" is
    answered twice on a connection that stays open.  The timeout sends the
    AGENT_TIMEOUT error but leaves the waiter registered on the run; when
    the run ends, [finishRun] calls the waiter, which sends a second
    response with the same id. *)
Theorem agent_wait_timeout_then_second_response :
  let s := exec Scenario.noTools Scenario.connected Scenario.waitTimesOutThenRunEnds in
  isAuthenticated Scenario.connected 1 = true
  /\ Scenario.responsesTo 1 "r2" (wire s) =
       [ResErr "r2" "AGENT_TIMEOUT" "Wait timed out";
        ResOk "r2" (PRunResult "run_1" Completed "")]
  /\ Scenario.closes 1 (wire s) = [].
Proof. vm_compute. repeat split. Qed.

(** ** The [agent] method: instances *)

Lemma agent_request_leaves_history_unchanged_witness :
  let s' := handleAgent Scenario.noTools 2 1 "r1"
              (Scenario.sendParams None "hello" "k1") Scenario.connected in
  getChatHistory s' "default" = []
  /\ In (Send 1 (ResOk "r1" (PRunStarted "run_1" None))) (wire s').
Proof.
  pose proof (agent_request_leaves_history_unchanged Scenario.noTools
                Scenario.connected 2 1 "r1" (Scenario.sendParams None "hello" "k1")
                "hello" "k1" eq_refl ltac:(discriminate) eq_refl
                ltac:(discriminate) eq_refl eq_refl) as H.
  cbn zeta in H. destruct H as (_ & Hhist & Hack & _).
  split; [exact (eq_trans Hhist eq_refl) | exact Hack].
Defined.

(** The same message sent with [chat.send] is in the history when the
    request has been acknowledged. *)
Example chat_send_appends_user_message :
  getChatHistory
    (handleChatSend Scenario.noTools 2 1 "r1"
       (Scenario.sendParams (Some "default") "hello" "k1") Scenario.connected)
    "default"
  = [userEntry 2 "hello"].
Proof. vm_compute. reflexivity. Qed.

(** A slash command sent with [agent] leaves the two assistant entries and,
    again, no user entry. *)
Example agent_slash_command_history :
  map (fun e => (role e, stopReason e))
      (getChatHistory
         (handleAgent Scenario.noTools 2 1 "r1"
            (Scenario.sendParams None "/help" "k1") Scenario.connected)
         "default")
  = [(RAssistant, Some "stop"); (RAssistant, Some "end_turn")].
Proof. vm_compute. reflexivity. Qed.

(** ** Frames before the handshake: instances *)

Definition challenged : Server :=
  exec Scenario.noTools (newServer defaultConfig true) [(0, Accept 1 "nonce")].



(** The text [null], before or after the handshake, gets no answer. *)
Example null_frame_is_not_answered :
  handleMessage Scenario.noTools 5 1 (mkRaw 4 JsonNull) challenged = challenged
  /\ handleMessage Scenario.noTools 5 1 (mkRaw 4 JsonNull) Scenario.connected
     = Scenario.connected.
Proof. split; vm_compute; reflexivity. Qed.

(** ** Idempotency: instances *)

(** C4, as stated, fails at the boundary: a key first seen exactly TTL
    milliseconds ago is still reported as a duplicate. *)
Lemma duplicate_at_exactly_ttl :
  let ttl := 100 in
  let now := 100 in
  let firstSeen := 0 in
  Dedupe.get "K" [("K", firstSeen)] = Some firstSeen
  /\ fst (Dedupe.isDuplicateKey ttl now "K" [("K", firstSeen)]) = true
  /\ ~ (now - firstSeen < ttl).
Proof. vm_compute. repeat split. intros H. discriminate. Qed.

(** The client has sent [chat.send] with key "K" at time 2. *)
Definition sentOnce : Server :=
  handleChatSend Scenario.noTools 2 1 "r1"
    (Scenario.sendParams (Some "main") "hello" "K") Scenario.connected.

Lemma chat_send_duplicate_until_ttl_exceeded_witness :
  handleChatSend Scenario.noTools (2 + DEFAULT_DEDUPE_TTL_MS) 1 "r2"
    (Scenario.sendParams (Some "main") "again" "K") sentOnce
  = sendError 1 "r2" "INVALID_REQUEST" "Duplicate idempotency key" sentOnce.
Proof.
  pose proof (chat_send_duplicate_until_ttl_exceeded Scenario.noTools sentOnce
                (2 + DEFAULT_DEDUPE_TTL_MS) 1 "r2"
                (Scenario.sendParams (Some "main") "again" "K")
                "main" "again" "K" 2
                eq_refl ltac:(discriminate) eq_refl ltac:(discriminate)
                eq_refl ltac:(discriminate) eq_refl) as H.
  cbn zeta in H. destruct H as (_ & Hdup & _).
  apply Hdup. vm_compute. discriminate.
Defined.

(** One millisecond later the same key is accepted again. *)
Example chat_send_after_ttl_accepted :
  Scenario.responsesTo 1 "r2"
    (wire (handleChatSend Scenario.noTools (3 + DEFAULT_DEDUPE_TTL_MS) 1 "r2"
             (Scenario.sendParams (Some "main") "again" "K") sentOnce))
  = [ResOk "r2" (PRunStarted "run_2" (Some "main"))].
Proof. vm_compute. reflexivity. Qed.

(** With room for two keys, a third [chat.send] evicts the first key. *)
Definition smallCache : ResolvedConfig :=
  mkConfig "" "" "2026.2.23" DEFAULT_MAX_PAYLOAD 2 DEFAULT_DEDUPE_TTL_MS None None.

Definition threeSends : list (Z * Input) :=
  Scenario.handshake ++
  [(2, Message 1 (Scenario.request "r1" "chat.send" (Scenario.sendParams (Some "main") "a" "K1")));
   (3, Message 1 (Scenario.request "r2" "chat.send" (Scenario.sendParams (Some "main") "b" "K2")));
   (4, Message 1 (Scenario.request "r3" "chat.send" (Scenario.sendParams (Some "main") "c" "K3")))].

Example third_send_evicts_first_key :
  idempotencyKeys (exec Scenario.noTools (newServer smallCache true) threeSends)
  = [("K2", 3); ("K3", 4)].
Proof. vm_compute. reflexivity. Qed.

Definition twoSends : list (Z * Input) :=
  Scenario.handshake ++
  [(2, Message 1 (Scenario.request "r1" "chat.send" (Scenario.sendParams (Some "main") "a" "K1")));
   (3, Message 1 (Scenario.request "r2" "chat.send" (Scenario.sendParams (Some "main") "b" "K2")))].

(** The map is full after two requests; recording a third key drops the
    first. *)
Lemma idempotency_cache_evicts_oldest_and_stays_bounded_witness :
  idempotencyKeys
    (recordIdempotencyKey 4 "K3"
       (exec Scenario.noTools (newServer smallCache true) twoSends))
  = [("K2", 3); ("K3", 4)].
Proof.
  assert (Hmax : 1 <= dedupeMaxKeys smallCache) by (vm_compute; discriminate).
  pose proof (idempotency_cache_evicts_oldest_and_stays_bounded Scenario.noTools
                smallCache true twoSends Hmax) as H.
  cbv zeta in H. destruct H as (_ & H).
  destruct (H 4 "K3") as (_ & _ & _ & Hfull).
  destruct (Hfull ltac:(vm_compute; reflexivity)) as (oldest & ts & rest & Hkeys & Hrec).
  vm_compute in Hkeys. injection Hkeys as _ _ <-. exact Hrec.
Defined.

(** Without the assumption on the capacity the bound fails: a capacity of
    zero has nothing to evict, and the key is inserted all the same. *)
Example capacity_zero_is_exceeded :
  Dedupe.recordIdempotencyKey 0 5 "K" [] = [("K", 5)].
Proof. reflexivity. Qed.

Definition noRoom : ResolvedConfig :=
  mkConfig "" "" "2026.2.23" DEFAULT_MAX_PAYLOAD 0 DEFAULT_DEDUPE_TTL_MS None None.

(** C7, as stated, fails: the constructor accepts a capacity of zero, and
    the first accepted request leaves one key in the map. *)
Lemma cache_of_capacity_zero_holds_a_key :
  let s := exec Scenario.noTools (newServer noRoom true)
             (Scenario.handshake ++
              [(2, Message 1 (Scenario.request "r1" "chat.send"
                                (Scenario.sendParams (Some "main") "a" "K1")))]) in
  dedupeMaxKeys (config s) = 0
  /\ idempotencyKeys s = [("K1", 2)]
  /\ ~ (Dedupe.size (idempotencyKeys s) <= dedupeMaxKeys (config s)).
Proof. vm_compute. repeat split. intros H. now apply H. Qed.

(** ** Finishing a run in error: instance *)

(** A run is in progress and one [agent.wait] is registered on it. *)
Definition waiting : Server :=
  exec Scenario.noTools Scenario.connected
    [(2, Message 1 (Scenario.request "r1" "agent" (Scenario.sendParams None "hello" "k1")));
     (3, Message 1 (Scenario.request "r2" "agent.wait" (Scenario.waitParams "run_1" 10)))].

Lemma finish_run_error_witness :
  let s' := finishRun Scenario.noTools 9 "run_1" FinError (Some "boom") None waiting in
  wire s' =
    wire waiting ++
      [Send 1 (Event 2 (AgentEvent "run_1" "default" 1 "lifecycle" (LifecycleError "boom")));
       Send 1 (Event 3 (ChatFailure "run_1" "default" 1 "boom"));
       Send 1 (ResOk "r2" (PRunResult "run_1" Errored ""))]
  /\ chatHistory s' = chatHistory waiting.
Proof.
  pose proof (finish_run_error Scenario.noTools waiting 9 "run_1"
                (Run.mk "run_1" "default" "hello" 0 Running "" "" false
                   [SocketWaiter 1 "r2" 2])
                (Some "boom") eq_refl) as H.
  cbn zeta in H. destruct H as (Hwire & _ & _ & Hhist & _).
  split; [exact (eq_trans Hwire eq_refl) | exact Hhist].
Defined.

(** ** [chat.history]: instances *)

(** The session "main" holds two entries. *)
Definition twoEntries : Server :=
  exec Scenario.noTools Scenario.connected
    [(2, Message 1 (Scenario.request "r1" "chat.send"
                      (Scenario.sendParams (Some "main") "hello" "k1")));
     (3, Message 1 (Scenario.request "r2" "chat.inject"
                      (Scenario.sendParams (Some "main") "note" "k2")))].

Lemma chat_history_limit_zero_returns_everything_witness :
  In (Send 1 (ResOk "h1" (PHistory "main" [userEntry 2 "hello"; userEntry 3 "note"])))
     (wire (handleChatHistory 9 1 "h1" (Scenario.historyParams "main" (Some 0))
              twoEntries)).
Proof.
  destruct (chat_history_limit_zero_returns_everything twoEntries 9 1 "h1"
              (Scenario.historyParams "main" (Some 0)) "main"
              eq_refl ltac:(discriminate) eq_refl) as [more H].
  rewrite H. apply in_or_app. right. left. reflexivity.
Defined.

Example chat_history_limit_one :
  Scenario.responsesTo 1 "h1"
    (wire (handleChatHistory 9 1 "h1" (Scenario.historyParams "main" (Some 1))
             twoEntries))
  = [ResOk "h1" (PHistory "main" [userEntry 3 "note"])].
Proof. vm_compute. reflexivity. Qed.

(** ** Authentication of the HTTP surface *)

(** With a token configured, a request whose Authorization header is absent
    or is not "Bearer <token>" gets status 401. *)
Lemma http_completions_reject_wrong_token (s : Server) (req : HttpRequest) :
  authToken (config s) <> "" ->
  authorization req <> Some ("Bearer " +:+ authToken (config s)) ->
  handleHttpChatCompletions req s = JsonResponse 401 "auth_error".
Proof.
  intros Htok Hhdr. unfold handleHttpChatCompletions.
  apply truthy_Some in Htok. rewrite Htok. cbn [andb].
  assert (optNe (authorization req) ("Bearer " +:+ authToken (config s)) = true) as ->;
    [|reflexivity].
  unfold optNe, optEq. destruct (authorization req) as [h|]; [|reflexivity].
  apply negb_true_iff, String.eqb_neq. congruence.
Qed.

Lemma http_completions_accept_token (s : Server) (req : HttpRequest) :
  authorization req = Some ("Bearer " +:+ authToken (config s)) ->
  handleHttpChatCompletions req s = StreamResponse 200.
Proof.
  intros Hhdr. unfold handleHttpChatCompletions, optNe, optEq. rewrite Hhdr.
  rewrite String.eqb_refl. cbn [negb]. now rewrite andb_false_r.
Qed.

Lemma http_completions_open_without_token (s : Server) (req : HttpRequest) :
  authToken (config s) = "" -> handleHttpChatCompletions req s = StreamResponse 200.
Proof. intros Hno. unfold handleHttpChatCompletions. now rewrite Hno. Qed.

(** C9 (as amended): a POST to /v1/chat/completions is checked exactly when
    a token is configured.  With a token, a request whose Authorization
    header is missing or is not "Bearer <token>" is answered with status
    401 and one that carries it is served; without a token the request is
    served whatever the header, also on a server with a password: the
    password is a credential of the WebSocket handshake only. *)
Theorem http_completions_checked_iff_token_configured
    (s : Server) (req : HttpRequest)
    (Hpost : httpMethod req = "POST")
    (Hpath : httpPath req = "/v1/chat/completions") :
  let token := authToken (config s) in
  (token <> "" -> authorization req <> Some ("Bearer " +:+ token) ->
   handleHttpRequest req s = Some (JsonResponse 401 "auth_error"))
  /\ (token <> "" -> authorization req = Some ("Bearer " +:+ token) ->
      handleHttpRequest req s = Some (StreamResponse 200))
  /\ (token = "" -> handleHttpRequest req s = Some (StreamResponse 200)).
Proof.
  cbv zeta. unfold handleHttpRequest. rewrite Hpost, Hpath, !String.eqb_refl.
  cbn [andb].
  split; [|split].
  - intros Htok Hhdr. now rewrite http_completions_reject_wrong_token.
  - intros _ Hhdr. now rewrite http_completions_accept_token.
  - intros Hno. now rewrite http_completions_open_without_token.
Qed.

Definition tokenOnly : ResolvedConfig :=
  mkConfig "secret" "" "2026.2.23" DEFAULT_MAX_PAYLOAD DEFAULT_DEDUPE_MAX
    DEFAULT_DEDUPE_TTL_MS None None.

Definition passwordOnly : ResolvedConfig :=
  mkConfig "" "pass123" "2026.2.23" DEFAULT_MAX_PAYLOAD DEFAULT_DEDUPE_MAX
    DEFAULT_DEDUPE_TTL_MS None None.

Definition anonymousCompletion : HttpRequest :=
  mkHttpRequest "POST" "/v1/chat/completions" None [mkHttpMessage "user" "hello"] None.

Lemma http_completions_checked_iff_token_configured_witness :
  handleHttpRequest anonymousCompletion (newServer tokenOnly false)
  = Some (JsonResponse 401 "auth_error").
Proof.
  exact (proj1 (http_completions_checked_iff_token_configured
                  (newServer tokenOnly false) anonymousCompletion eq_refl eq_refl)
           ltac:(discriminate) ltac:(discriminate)).
Defined.

(** C9, as stated, fails: on a server with a password and no token, a
    request without an Authorization header is served. *)
Lemma password_alone_leaves_completions_open :
  authPassword (config (newServer passwordOnly false)) = "pass123"
  /\ handleHttpRequest anonymousCompletion (newServer passwordOnly false)
     = Some (StreamResponse 200).
Proof. split; reflexivity. Qed.

(** On the same server the WebSocket handshake does check the password. *)
Example connect_without_password_rejected :
  wire (exec Scenario.noTools (newServer passwordOnly false)
          [(0, Accept 1 "nonce");
           (1, Message 1 (Scenario.request "c" "connect" (Scenario.connectParams None None)))])
  = [Send 1 (Hello "conn_1"); Send 1 (Event 0 (ConnectChallenge "nonce"));
     Send 1 (ResErr "c" "INVALID_REQUEST" "Authentication failed");
     Close 1 1008 "Authentication failed"].
Proof. vm_compute. reflexivity. Qed.

(** ** Slash commands: instance *)

(** A session with two entries, and a run for the message " /Help ". *)
Definition helpRun : Server :=
  with_runs (<["run_1" := Run.mk "run_1" "main" " /Help " 0 Running "" "" false []]>
               (runs twoEntries)) twoEntries.

Lemma slash_command_appends_two_assistant_entries_witness :
  exists text model provider,
    getChatHistory (executeRun Scenario.noTools 9 "run_1" helpRun) "main"
    = [userEntry 2 "hello"; userEntry 3 "note";
       mkHistoryEntry RAssistant [TextPart text] 9 (Some "stop") (Some model)
         (Some provider);
       mkHistoryEntry RAssistant [TextPart text] 9 (Some "end_turn") None None].
Proof.
  assert (Hrun : runs helpRun !! "run_1" =
                 Some (Run.mk "run_1" "main" " /Help " 0 Running "" "" false []))
    by (vm_compute; reflexivity).
  destruct (slash_command_appends_two_assistant_entries Scenario.noTools
              helpRun 9 "run_1" _ Hrun eq_refl) as (text & model & provider & H).
  exists text, model, provider. exact (eq_trans H eq_refl).
Defined.

Example help_command_history :
  map (fun e => (role e, stopReason e))
      (getChatHistory
         (handleChatSend Scenario.noTools 2 1 "r1"
            (Scenario.sendParams (Some "main") "/help" "k1") Scenario.connected)
         "main")
  = [(RUser, None); (RAssistant, Some "stop"); (RAssistant, Some "end_turn")].
Proof. vm_compute. reflexivity. Qed.

(* ===================================================================== *)
(** * The disk log *)
(* ===================================================================== *)

Module LoggerFacts.
Import ConversationLogger.

Definition sanitizeChar (c : ascii) : ascii := if safeChar c then c else "-"%char.

Lemma replaceUnsafe_cons c r :
  replaceUnsafe (String c r) = String (sanitizeChar c) (replaceUnsafe r).
Proof. unfold sanitizeChar. cbn. now destruct (safeChar c). Qed.

Lemma replaceUnsafe_length key : String.length (replaceUnsafe key) = String.length key.
Proof.
  induction key as [|c r IH]; [reflexivity|].
  rewrite replaceUnsafe_cons. cbn. now rewrite IH.
Qed.

Lemma replaceUnsafe_get i key :
  String.get i (replaceUnsafe key) = option_map sanitizeChar (String.get i key).
Proof.
  revert i. induction key as [|c r IH]; intros i; [reflexivity|].
  rewrite replaceUnsafe_cons. destruct i; cbn; [reflexivity | apply IH].
Qed.

Lemma sliceTo_length n s :
  String.length (JS.sliceTo n s) = Nat.min (String.length s) n.
Proof.
  unfold JS.sliceTo. revert n. induction s as [|c r IH]; intros n.
  - now destruct n.
  - destruct n; cbn; [reflexivity|]. now rewrite IH.
Qed.

Lemma sliceTo_get n s i :
  String.get i (JS.sliceTo n s) = if (i <? n)%nat then String.get i s else None.
Proof.
  unfold JS.sliceTo. destruct (Nat.ltb_spec i n) as [Hlt|Hge].
  - rewrite substring_correct1 by exact Hlt. now rewrite Nat.add_0_r.
  - now apply substring_correct2.
Qed.

Lemma sanitizeChar_safe c : safeChar (sanitizeChar c) = true.
Proof. unfold sanitizeChar. destruct (safeChar c) eqn:E; [exact E | reflexivity]. Qed.

End LoggerFacts.

Lemma logger_ensureSessionMeta now k s : logger (ensureSessionMeta now k s) = logger s.
Proof. unfold ensureSessionMeta. now split_cases. Qed.


Example sanitizeKey_example :
  ConversationLogger.sanitizeKey "agent:main/user 42" = "agent-main-user-42".
Proof. reflexivity. Qed.

(** A key that needs sanitizing is logged under the sanitized file name with
    the original key in the line. *)
Example logged_line_keeps_session_key :
  let lg := ConversationLogger.append (ConversationLogger.mkLogger "logs" ∅)
              "agent:main" (userEntry 0 "hi") in
  ConversationLogger.files lg !! "logs/agent-main-1970-01-01.jsonl"
  = Some [ConversationLogger.mkLogLine "agent:main" (userEntry 0 "hi")].
Proof. vm_compute. reflexivity. Qed.

(* ===================================================================== *)
(** * Further properties of the gateway *)
(* ===================================================================== *)

(** ** The handshake *)

Lemma conns_clearHandshakeTimeout ws s : conns (clearHandshakeTimeout ws s) = conns s.
Proof. unfold clearHandshakeTimeout. now split_cases. Qed.

Lemma wire_clearHandshakeTimeout ws s : wire (clearHandshakeTimeout ws s) = wire s.
Proof. unfold clearHandshakeTimeout. now split_cases. Qed.

Lemma presence_clearHandshakeTimeout ws s :
  presence (clearHandshakeTimeout ws s) = presence s.
Proof. unfold clearHandshakeTimeout. now split_cases. Qed.

Lemma config_clearHandshakeTimeout ws s : config (clearHandshakeTimeout ws s) = config s.
Proof. unfold clearHandshakeTimeout. now split_cases. Qed.

Lemma isAuthenticated_clearHandshakeTimeout ws ws' s :
  isAuthenticated (clearHandshakeTimeout ws s) ws' = isAuthenticated s ws'.
Proof. unfold isAuthenticated, connData. now rewrite conns_clearHandshakeTimeout. Qed.

Lemma optEq_true (a : option string) (b : string) : optEq a b = true <-> a = Some b.
Proof.
  destruct a as [a|]; cbn; [|split; discriminate].
  rewrite String.eqb_eq. split; congruence.
Qed.

(** What the client must present: the token when one is configured (the
    password is then not looked at), else the password when one is
    configured, else nothing. *)
Definition credentialsAccepted (cfg : ResolvedConfig) (p : Params.t) : Prop :=
  (authToken cfg <> "" -> Params.authToken p = Some (authToken cfg))
  /\ (authToken cfg = "" -> authPassword cfg <> "" ->
      Params.authPassword p = Some (authPassword cfg)).

Definition protocolAccepted (p : Params.t) : Prop :=
  JS.nullish (Params.minProtocol p) 1 <= PROTOCOL_VERSION
  <= JS.nullish (Params.maxProtocol p) 1.

Lemma authFailed_spec cfg p :
  (if JS.truthy (Some (authToken cfg))
   then negb (optEq (Params.authToken p) (authToken cfg))
   else if JS.truthy (Some (authPassword cfg))
        then negb (optEq (Params.authPassword p) (authPassword cfg))
        else false) = false
  <-> credentialsAccepted cfg p.
Proof.
  unfold credentialsAccepted.
  destruct (JS.truthy (Some (authToken cfg))) eqn:Ht.
  - apply truthy_Some in Ht. rewrite negb_false_iff, optEq_true.
    split; [intros H; split; [auto | congruence] | intros [H _]; auto].
  - assert (Ht' : authToken cfg = "").
    { destruct (String.eqb_spec (authToken cfg) ""); [assumption|].
      apply truthy_Some in n. congruence. }
    destruct (JS.truthy (Some (authPassword cfg))) eqn:Hp.
    + apply truthy_Some in Hp. rewrite negb_false_iff, optEq_true.
      split; [intros H; split; [congruence | auto] | intros [_ H]; auto].
    + split; [intros _|reflexivity]. split; [congruence|].
      intros _ Hpw. apply truthy_Some in Hpw. congruence.
Qed.

(** X1: a [connect] request that names its client is accepted exactly when
    the protocol range contains version 3 (a bound left out counts as 1, so
    a request without [maxProtocol] is refused) and the credentials match
    (the token when one is configured, otherwise the password when one is
    configured).  When it is refused the socket is closed with code 1008 and
    the connection stays unauthenticated and absent from the presence list;
    when it is accepted the connection is a client, its presence entry is
    the last one, and the presence version has grown by one. *)
Theorem connect_accepted_iff
    (s : Server) (ws : nat) (id : string) (p : Params.t)
    (Hunauth : isAuthenticated s ws = false)
    (Hid : JS.truthy (Params.clientId p) = true)
    (Hversion : JS.truthy (Params.clientVersion p) = true) :
  let s' := handleConnect ws id (Some p) s in
  (isAuthenticated s' ws = true <->
   protocolAccepted p /\ credentialsAccepted (config s) p)
  /\ (isAuthenticated s' ws = false ->
      presence s' = presence s /\ clients s' = clients s /\
      exists message reason,
        wire s' = wire s ++ [Send ws (ResErr id "INVALID_REQUEST" message);
                             Close ws 1008 reason])
  /\ (isAuthenticated s' ws = true ->
      In ws (clients s')
      /\ presenceVersion s' = S (presenceVersion s)
      /\ exists entry, presence s' = presence s ++ [entry]
                       /\ instanceId entry = connId (connData s ws)).
Proof.
  intros s'. subst s'. unfold handleConnect. cbn [JS.nullish].
  rewrite Hid, Hversion. cbn [negb orb].
  set (s0 := clearHandshakeTimeout ws s).
  assert (Hs0 : isAuthenticated s0 ws = false)
    by (subst s0; now rewrite isAuthenticated_clearHandshakeTimeout).
  assert (Hcfg : config s0 = config s) by apply config_clearHandshakeTimeout.
  assert (Hw : wire s0 = wire s) by apply wire_clearHandshakeTimeout.
  assert (Hp : presence s0 = presence s) by apply presence_clearHandshakeTimeout.
  assert (Hc : clients s0 = clients s)
    by (subst s0; unfold clearHandshakeTimeout; now split_cases).
  assert (Hv : presenceVersion s0 = presenceVersion s)
    by (subst s0; unfold clearHandshakeTimeout; now split_cases).
  assert (Hd : connData s0 ws = connData s ws)
    by (subst s0; unfold connData; now rewrite conns_clearHandshakeTimeout).
  unfold protocolAccepted.
  assert (Hreject : forall message reason,
    let r := close ws 1008 reason (sendError ws id "INVALID_REQUEST" message s0) in
    ~ (protocolAccepted p /\ credentialsAccepted (config s) p) ->
    (isAuthenticated r ws = true <->
     protocolAccepted p /\ credentialsAccepted (config s) p)
    /\ (isAuthenticated r ws = false ->
        presence r = presence s /\ clients r = clients s /\
        exists message reason,
          wire r = wire s ++ [Send ws (ResErr id "INVALID_REQUEST" message);
                              Close ws 1008 reason])
    /\ (isAuthenticated r ws = true ->
        In ws (clients r)
        /\ presenceVersion r = S (presenceVersion s)
        /\ exists entry, presence r = presence s ++ [entry]
                         /\ instanceId entry = connId (connData s ws))).
  { intros message reason r Hnot.
    assert (Hr : isAuthenticated r ws = false) by exact Hs0.
    rewrite Hr. split; [split; [discriminate | tauto]|]. split; [|discriminate].
    intros _. repeat split; try assumption.
    exists message, reason. subst r. cbn. rewrite Hw. now rewrite <- app_assoc. }
  unfold protocolAccepted in Hreject.
  destruct (Z.ltb_spec PROTOCOL_VERSION (JS.nullish (Params.minProtocol p) 1)) as [Hmin|Hmin];
    cbn [orb]; cbv iota; [apply Hreject; lia|].
  destruct (Z.gtb_spec PROTOCOL_VERSION (JS.nullish (Params.maxProtocol p) 1)) as [Hmax|Hmax];
    cbv iota; [apply Hreject; lia|].
  pose proof (authFailed_spec (config s0) p) as Hauth.
  destruct (if JS.truthy (Some (authToken (config s0))) then negb _ else _) eqn:Hfail;
    rewrite Hcfg in Hauth.
  { apply Hreject. intros [_ Hcred]. apply Hauth in Hcred. discriminate. }
  assert (Hok : isAuthenticated
                  (with_conns (<[ws := mkConn (connId (connData s0 ws)) true
                                         (challengeSent (connData s0 ws))
                                         (nonce (connData s0 ws))]> (conns s0)) s0) ws
                = true).
  { unfold isAuthenticated, connData. cbn. now rewrite lookup_insert_eq. }
  split; [|split].
  - split; [intros _; split; [lia | now apply Hauth] | intros _].
    destruct (existsb _ _); cbn; unfold isAuthenticated, connData; cbn;
      now rewrite lookup_insert_eq.
  - intros Hno. exfalso. revert Hno.
    destruct (existsb _ _); cbn; unfold isAuthenticated, connData; cbn;
      now rewrite lookup_insert_eq.
  - intros _. rewrite <- Hd, <- Hp, <- Hv.
    match goal with
    | |- context [if ?c then with_conns _ _ else _] => destruct c eqn:Hex
    end; cbn.
    + split; [|split; [reflexivity | eexists; split; reflexivity]].
      apply existsb_exists in Hex as (x & Hx & Heq). apply Nat.eqb_eq in Heq. now subst.
    + split; [|split; [reflexivity | eexists; split; reflexivity]].
      apply in_or_app. right. now left.
Qed.

Lemma connect_accepted_iff_witness :
  isAuthenticated
    (handleConnect 1 "c" (Some (Scenario.connectParams None None)) challenged) 1 = true.
Proof.
  pose proof (connect_accepted_iff challenged 1 "c" (Scenario.connectParams None None)
                eq_refl eq_refl eq_refl) as H.
  cbn zeta in H. destruct H as (Hiff & _). apply Hiff. split.
  - unfold protocolAccepted, PROTOCOL_VERSION, Scenario.connectParams.
    cbn [Params.minProtocol Params.maxProtocol JS.nullish]. lia.
  - split; [intros Hne; now elim Hne | intros _ Hne; now elim Hne].
Defined.

(** A client that leaves out [maxProtocol] is refused whatever else it
    sends, since the bound then counts as 1. *)
Example connect_without_max_protocol :
  let p := Params.mk None None None None None None None None None
             (Some "t") (Some "1") None (Some 1) None None None None in
  Scenario.closes 1 (wire (handleConnect 1 "c" (Some p) challenged))
  = [Close 1 1008 "Protocol mismatch"].
Proof. vm_compute. reflexivity. Qed.

(** ** The handshake watchdog *)

Lemma timers_handleConnect ws id params s :
  timers (handleConnect ws id params s) = timers (clearHandshakeTimeout ws s).
Proof.
  unfold handleConnect.
  destruct (negb _ || negb _); [reflexivity|].
  destruct ((_ <? _) || (_ >? _)); [reflexivity|].
  destruct (if JS.truthy (Some (authToken _)) then negb _ else _); [reflexivity|].
  match goal with
  | |- context [if ?c then with_conns _ _ else _] => destruct c
  end; reflexivity.
Qed.

Lemma conns_handleOpen ws uuid s :
  conns (handleOpen ws uuid s) =
  <[ws := mkConn ("conn_" +:+ JS.toString36 (S (connCounter s))) false true uuid]>
    (conns s).
Proof. reflexivity. Qed.

Lemma timers_handleOpen ws uuid s :
  timers (handleOpen ws uuid s) = <[S (timerCounter s) := HandshakeTimer ws]> (timers s).
Proof. reflexivity. Qed.

Lemma handshakeTimeouts_handleOpen ws uuid s :
  handshakeTimeouts (handleOpen ws uuid s) =
  <[ws := S (timerCounter s)]> (handshakeTimeouts s).
Proof. reflexivity. Qed.

Lemma isAuthenticated_handleOpen ws uuid s :
  isAuthenticated (handleOpen ws uuid s) ws = false.
Proof.
  unfold isAuthenticated, connData. now rewrite conns_handleOpen, lookup_insert_eq.
Qed.

Lemma fireTimer_handshake timer ws s :
  timers s !! timer = Some (HandshakeTimer ws) ->
  isAuthenticated s ws = false ->
  wire (fireTimer timer s) = wire s ++ [Close ws 1008 "Handshake timeout"].
Proof.
  intros Ht Hauth. unfold fireTimer. rewrite Ht.
  change (isAuthenticated (with_timers (delete timer (timers s)) s) ws)
    with (isAuthenticated s ws).
  now rewrite Hauth.
Qed.

Lemma fireTimer_cleared timer s : timers s !! timer = None -> fireTimer timer s = s.
Proof. intros H. unfold fireTimer. now rewrite H. Qed.

(** X2: [handleOpen] arms a watchdog for the new socket.  If it fires while
    the connection is unauthenticated the socket is closed with code 1008;
    once a [connect] request has been handled, accepted or not, the
    watchdog is disarmed and its firing changes nothing. *)
Theorem handshake_watchdog
    (s : Server) (ws : nat) (uuid id : string) (params : option Params.t) :
  let opened := handleOpen ws uuid s in
  let timer := S (timerCounter s) in
  isAuthenticated opened ws = false
  /\ wire (fireTimer timer opened) =
       wire opened ++ [Close ws 1008 "Handshake timeout"]
  /\ fireTimer timer (handleConnect ws id params opened) =
       handleConnect ws id params opened.
Proof.
  cbv zeta. split; [apply isAuthenticated_handleOpen|]. split.
  - apply fireTimer_handshake; [|apply isAuthenticated_handleOpen].
    rewrite timers_handleOpen. apply lookup_insert_eq.
  - apply fireTimer_cleared. rewrite timers_handleConnect.
    unfold clearHandshakeTimeout.
    rewrite handshakeTimeouts_handleOpen, lookup_insert_eq.
    cbn [timers with_timers with_handshakeTimeouts].
    apply lookup_delete_eq.
Qed.

(** ** Finishing a run *)

Section Finishing.

Variable demo : string -> list ContentPart.

(** The content of the "final" chat event: the thinking collected so far,
    when there is some, then the text. *)
Definition finalContent (run : Run.t) : list ContentPart :=
  (if String.eqb (Run.accumulatedThinking run) "" then []
   else [ThinkingPart (Run.accumulatedThinking run)])
  ++ [TextPart (Run.accumulatedText run)].

(** The parts stored in the history: those the adapter supplies, else the
    demo tool calls for the message followed by the text. *)
Definition storedParts (run : Run.t) (parts : option (list ContentPart)) : list ContentPart :=
  match parts with
  | Some parts => parts
  | None => demo (Run.message run) ++ [TextPart (Run.accumulatedText run)]
  end.

Lemma lookup_appendHistory_ne now k e s k' :
  k <> k' -> chatHistory (appendHistory now k e s) !! k' = chatHistory s !! k'.
Proof. intros H. rewrite chatHistory_appendHistory. now apply lookup_insert_ne. Qed.

(** X3: finishing a run as completed broadcasts the lifecycle event of
    phase "end" and the chat event of state "final" (thinking, if any, then
    the accumulated text) as the next two events of the global sequence,
    appends one assistant entry with stop reason "end_turn" to the history
    of the run's session and to no other, marks the run completed, and
    answers every waiter with the state "completed". *)
Theorem finish_run_completed
    (s : Server) (now : Z) (rid : string) (run : Run.t) (err : option string)
    (parts : option (list ContentPart))
    (Hrun : runs s !! rid = Some run) :
  let sk := Run.sessionKey run in
  let n := S (Run.seq run) in
  let s' := finishRun demo now rid FinCompleted err parts s in
  wire s' =
    wire s
    ++ map (fun c => Send c (Event (S (globalSeq s))
                               (AgentEvent rid sk n "lifecycle" LifecycleEnd)))
           (clients s)
    ++ map (fun c => Send c (Event (S (S (globalSeq s)))
                               (ChatMessage rid sk n Final (finalContent run))))
           (clients s)
    ++ socketReplies rid Completed (Run.accumulatedText run) (Run.waitResolvers run)
  /\ getChatHistory s' sk =
       getChatHistory s sk
       ++ [mkHistoryEntry RAssistant (storedParts run parts) now (Some "end_turn")
             None None]
  /\ (forall k, k <> sk -> chatHistory s' !! k = chatHistory s !! k)
  /\ exists run', runs s' !! rid = Some run'
                  /\ Run.state run' = Completed
                  /\ Run.waitResolvers run' = [].
Proof.
  intros sk n s'. subst s'. unfold finishRun. rewrite Hrun. cbn [runStateOf].
  set (s1 := with_runs (<[rid := Run.setState Completed run]> (runs s)) s).
  assert (H1 : runs s1 !! rid = Some (Run.setState Completed run))
    by (subst s1; cbn; apply lookup_insert_eq).
  rewrite (emitAgentEvent_eq _ _ _ _ _ H1).
  set (r2 := Run.setSeq (S (Run.seq (Run.setState Completed run)))
               (Run.setState Completed run)).
  match goal with |- context [emitChatEvent _ _ _ ?x] => set (s2 := x) end.
  assert (H2 : runs s2 !! rid = Some r2)
    by (subst s2; cbn; apply lookup_insert_eq).
  rewrite (emitChatEvent_message_eq _ Final _ _ _ H2) by discriminate.
  fold (storedParts run parts).
  match goal with |- context [fold_left _ _ ?x] => set (s4 := x) end.
  destruct (resolveWaiters_spec rid Completed (Run.accumulatedText run)
              (Run.waitResolvers run) s4) as (Hw & _ & Hh & Hr & _).
  cbn zeta in Hw, Hh, Hr. unfold getChatHistory at 1.
  cbn [wire chatHistory runs with_runs].
  rewrite Hw, Hh, Hr. repeat split.
  - subst s4. cbn [wire with_sessionMeta]. rewrite wire_appendHistory.
    subst s2 s1 r2. cbn. unfold finalContent. now rewrite <- !app_assoc.
  - subst s4. cbn [chatHistory with_sessionMeta].
    rewrite chatHistory_appendHistory, lookup_insert_eq. reflexivity.
  - intros k Hk. subst s4. cbn [chatHistory with_sessionMeta].
    rewrite lookup_appendHistory_ne by (intros E; apply Hk; now rewrite <- E).
    reflexivity.
  - subst s4. cbn [runs with_sessionMeta]. rewrite runs_appendHistory.
    subst s2 s1. cbn. rewrite lookup_alter_eq, lookup_insert_eq. cbn.
    eexists. repeat split.
Qed.

(** The responses among the frames of a wire log. *)
Definition responses (log : list Wire) : list Wire :=
  List.filter (fun w => match w with
                        | Send _ (ResOk _ _) | Send _ (ResErr _ _ _) => true
                        | _ => false
                        end) log.

Lemma responses_app l1 l2 : responses (l1 ++ l2) = responses l1 ++ responses l2.
Proof. apply List.filter_app. Qed.

Lemma responses_events (f : nat -> Wire) (l : list nat) :
  (forall c, exists n b, f c = Send c (Event n b)) -> responses (map f l) = [].
Proof.
  intros H. induction l as [|c l IH]; [reflexivity|]. cbn.
  destruct (H c) as (n & b & ->). exact IH.
Qed.

Lemma responses_broadcast b s : responses (wire (broadcast b s)) = responses (wire s).
Proof.
  unfold broadcast. cbn. rewrite responses_app, responses_events; [apply app_nil_r|].
  intros c. eauto.
Qed.

Lemma responses_emitAgentEvent rid stream data s :
  responses (wire (emitAgentEvent rid stream data s)) = responses (wire s).
Proof.
  unfold emitAgentEvent. destruct (runs s !! rid); [|reflexivity].
  now rewrite responses_broadcast.
Qed.

Lemma responses_emitChatEvent rid st text s :
  responses (wire (emitChatEvent rid st text s)) = responses (wire s).
Proof.
  unfold emitChatEvent. destruct (runs s !! rid); [|reflexivity].
  destruct st; now rewrite responses_broadcast.
Qed.

Lemma responses_socketReplies rid st text waiters :
  responses (socketReplies rid st text waiters) = socketReplies rid st text waiters.
Proof.
  induction waiters as [|[] w IH]; cbn; [reflexivity | f_equal; exact IH | exact IH].
Qed.

(** The responses [finishRun] sends are those of the waiters registered on
    the run, in the order they registered. *)
Lemma finishRun_responses now rid run st err parts s :
  runs s !! rid = Some run ->
  responses (wire (finishRun demo now rid st err parts s)) =
  responses (wire s)
  ++ socketReplies rid (runStateOf st) (Run.accumulatedText run) (Run.waitResolvers run).
Proof.
  intros Hrun. unfold finishRun. rewrite Hrun.
  match goal with |- context [fold_left _ _ ?x] => set (s4 := x) end.
  destruct (resolveWaiters_spec rid (runStateOf st) (Run.accumulatedText run)
              (Run.waitResolvers run) s4) as (Hw & _).
  cbn zeta in Hw. cbn [wire with_runs]. rewrite Hw, responses_app, responses_socketReplies.
  f_equal. subst s4. cbn [wire with_sessionMeta]. destruct st.
  - now rewrite wire_appendHistory, responses_emitChatEvent, responses_emitAgentEvent.
  - now rewrite responses_emitChatEvent, responses_emitAgentEvent.
Qed.

Lemma finishRun_clears_waiters now rid run st err parts s :
  runs s !! rid = Some run ->
  exists run', runs (finishRun demo now rid st err parts s) !! rid = Some run'
               /\ Run.state run' = runStateOf st
               /\ Run.accumulatedText run' = Run.accumulatedText run
               /\ Run.runId run' = Run.runId run
               /\ Run.sessionKey run' = Run.sessionKey run
               /\ Run.waitResolvers run' = [].
Proof.
  intros Hrun. unfold finishRun. rewrite Hrun.
  match goal with |- context [fold_left _ _ ?x] => set (s4 := x) end.
  destruct (resolveWaiters_spec rid (runStateOf st) (Run.accumulatedText run)
              (Run.waitResolvers run) s4) as (_ & _ & _ & Hr & _).
  cbn zeta in Hr. cbn [runs with_runs]. rewrite Hr. subst s4.
  cbn [runs with_sessionMeta].
  set (s1 := with_runs (<[rid := Run.setState (runStateOf st) run]> (runs s)) s).
  assert (H1 : runs s1 !! rid = Some (Run.setState (runStateOf st) run))
    by (subst s1; cbn; apply lookup_insert_eq).
  destruct st.
  - rewrite runs_appendHistory, runs_emitChatEvent, (emitAgentEvent_eq _ _ _ _ _ H1).
    cbn. rewrite lookup_alter_eq, lookup_insert_eq. cbn. eexists. repeat split.
  - rewrite runs_emitChatEvent, (emitAgentEvent_eq _ _ _ _ _ H1).
    cbn. rewrite lookup_alter_eq, lookup_insert_eq. cbn. eexists. repeat split.
Qed.

End Finishing.

(** ** Waiting for a run *)

Section Waiting.

Variable demo : string -> list ContentPart.

Definition waitFor (runId : string) : Params.t :=
  Params.mk None None None None (Some runId) None None None None None None None None
    None None None None.

(** X4: every waiter registered on a run is answered by the first
    [finishRun] and by no later one: a second [finishRun] on the same run
    sends no response at all.  An [agent.wait] that arrives after the run
    has finished is answered at once with the state and text the earlier
    waiters received, and registers neither a timer nor a waiter. *)
Theorem waiters_answered_once_late_wait_immediate
    (s : Server) (now now' : Z) (rid : string) (run : Run.t)
    (st st' : FinishState) (err err' : option string)
    (parts parts' : option (list ContentPart)) (ws : nat) (id : string)
    (Hrid : rid <> "")
    (Hrun : runs s !! rid = Some run)
    (Hname : Run.runId run = rid) :
  let finished := finishRun demo now rid st err parts s in
  responses (wire finished) =
    responses (wire s)
    ++ socketReplies rid (runStateOf st) (Run.accumulatedText run) (Run.waitResolvers run)
  /\ responses (wire (finishRun demo now' rid st' err' parts' finished)) =
       responses (wire finished)
  /\ wire (handleAgentWait ws id (waitFor rid) finished) =
       wire finished
       ++ [Send ws (ResOk id (PRunResult rid (runStateOf st) (Run.accumulatedText run)))]
  /\ timers (handleAgentWait ws id (waitFor rid) finished) = timers finished
  /\ runs (handleAgentWait ws id (waitFor rid) finished) = runs finished.
Proof.
  intros finished.
  destruct (finishRun_clears_waiters demo now rid run st err parts s Hrun)
    as (run' & Hrun' & Hst & Htext & Hid & _ & Hnone).
  fold finished in Hrun'.
  split; [now apply finishRun_responses|]. split.
  - rewrite (finishRun_responses demo now' rid run' st' err' parts' finished Hrun').
    rewrite Hnone. apply app_nil_r.
  - assert (Hwait : handleAgentWait ws id (waitFor rid) finished =
              sendResponse ws id
                (PRunResult rid (runStateOf st) (Run.accumulatedText run)) finished).
    { unfold handleAgentWait, waitFor. cbn [Params.runId JS.nullish].
      apply truthy_Some in Hrid. rewrite Hrid. cbn [negb]. rewrite Hrun'.
      unfold isRunning. rewrite Hst, Htext, Hid, Hname. now destruct st. }
    rewrite Hwait. repeat split.
Qed.

(** ** Aborting a run *)

Definition abortParams (sessionKey runId : string) : Params.t :=
  Params.mk (Some sessionKey) None None None (Some runId) None None None None None None
    None None None None None None.

Definition aborted (run : Run.t) : Run.t :=
  Run.setState Aborted (Run.setAborted true run).

(** X5: [chat.abort] with a run id aborts that run whenever it is running,
    whichever session the request names (the session key only has to be
    present): the run becomes "aborted" with its cancel flag set and the
    caller gets [{runId, aborted: true}].  After that a second abort fails
    with "No active run to abort", an exception of the adapter is swallowed
    without any event, and [agent.wait] answers at once with the state
    "aborted". *)
Theorem abort_by_run_id
    (s : Server) (now : Z) (ws : nat) (id sk rid : string) (run : Run.t)
    (Hsk : sk <> "") (Hrid : rid <> "")
    (Hrun : runs s !! rid = Some run)
    (Hname : Run.runId run = rid)
    (Hrunning : Run.state run = Running) :
  let s' := handleChatAbort ws id (abortParams sk rid) s in
  s' = sendResponse ws id (PAborted rid)
         (with_runs (<[rid := aborted run]> (runs s)) s)
  /\ (forall id', handleChatAbort ws id' (abortParams sk rid) s' =
                  sendError ws id' "INVALID_REQUEST" "No active run to abort" s')
  /\ (forall err, adapterThrows demo now rid err s' = s')
  /\ (forall id', handleAgentWait ws id' (waitFor rid) s' =
                  sendResponse ws id'
                    (PRunResult rid Aborted (Run.accumulatedText run)) s').
Proof.
  intros s'.
  assert (Hs' : s' = sendResponse ws id (PAborted rid)
                       (with_runs (<[rid := aborted run]> (runs s)) s)).
  { subst s'. unfold handleChatAbort, abortParams.
    cbn [Params.sessionKey Params.runId JS.nullish].
    apply truthy_Some in Hsk, Hrid. rewrite Hsk, Hrid. cbn [negb]. rewrite Hrun.
    unfold isRunning. rewrite Hrunning, Hname. reflexivity. }
  assert (Hrun' : runs s' !! rid = Some (aborted run))
    by (rewrite Hs'; cbn; apply lookup_insert_eq).
  split; [exact Hs'|]. clearbody s'. apply truthy_Some in Hsk, Hrid. repeat split.
  - intros id'. unfold handleChatAbort, abortParams.
    cbn [Params.sessionKey Params.runId JS.nullish].
    rewrite Hsk, Hrid. cbn [negb]. now rewrite Hrun'.
  - intros err. unfold adapterThrows. now rewrite Hrun'.
  - intros id'. unfold handleAgentWait, waitFor. cbn [Params.runId JS.nullish].
    rewrite Hrid. cbn [negb]. rewrite Hrun'. cbn. now rewrite Hname.
Qed.

(** The search of [chat.abort] without a run id. *)
Definition pick (s : Server) (sk : string) (target : option Run.t) (rid : string)
    : option Run.t :=
  match runs s !! rid with
  | Some run =>
      if String.eqb (Run.sessionKey run) sk
         && match Run.state run with Running => true | _ => false end
      then Some run else target
  | None => target
  end.

Definition candidate (s : Server) (sk rid : string) : Prop :=
  exists run, runs s !! rid = Some run /\ Run.sessionKey run = sk
              /\ Run.state run = Running.

Lemma pick_spec s sk target rid :
  (candidate s sk rid /\ pick s sk target rid = runs s !! rid)
  \/ (~ candidate s sk rid /\ pick s sk target rid = target).
Proof.
  unfold pick, candidate. destruct (runs s !! rid) as [run|] eqn:Hrun.
  - destruct (String.eqb_spec (Run.sessionKey run) sk) as [Hsk|Hsk]; cbn.
    + destruct (Run.state run) eqn:Hst;
        try (right; split; [intros (r & [= <-] & _ & H); congruence | reflexivity]).
      left. split; [eauto | reflexivity].
    + right. split; [intros (r & [= <-] & H & _); congruence | reflexivity].
  - right. split; [intros (r & [=] & _) | reflexivity].
Qed.

Lemma latest_fold s sk ids :
  match fold_left (pick s sk) ids None with
  | Some run =>
      exists pre rid post,
        ids = pre ++ rid :: post /\ runs s !! rid = Some run
        /\ candidate s sk rid
        /\ forall rid', In rid' post -> ~ candidate s sk rid'
  | None => forall rid, In rid ids -> ~ candidate s sk rid
  end.
Proof.
  induction ids as [|rid ids IH] using rev_ind; [intros ? []|].
  rewrite fold_left_app. cbn [fold_left].
  destruct (pick_spec s sk (fold_left (pick s sk) ids None) rid) as [[Hc ->]|[Hc ->]].
  - destruct Hc as (run & Hrun & Hrest). rewrite Hrun.
    exists ids, rid, []. repeat split; [exact Hrun | exists run; now split | intros ? []].
  - destruct (fold_left (pick s sk) ids None) as [run|].
    + destruct IH as (pre & rid0 & post & -> & Hrun & Hcand & Hlater).
      exists pre, rid0, (post ++ [rid]). rewrite <- app_assoc. repeat split; try assumption.
      intros rid' Hin. apply in_app_or in Hin as [Hin|[<-|[]]]; auto.
    + intros rid' Hin. apply in_app_or in Hin as [Hin|[<-|[]]]; auto.
Qed.

(** X6: the run [chat.abort] picks when no run id is given is the running
    run of the named session that was created last; and when it picks none,
    no run created so far is a running run of that session. *)
Theorem latest_running_is_last_running_run (s : Server) (sk : string) :
  match latestRunning sk s with
  | Some run =>
      Run.state run = Running /\ Run.sessionKey run = sk
      /\ exists earlier rid later,
           runIds s = earlier ++ rid :: later /\ runs s !! rid = Some run
           /\ forall rid' run', In rid' later -> runs s !! rid' = Some run' ->
                                Run.sessionKey run' = sk -> Run.state run' <> Running
  | None =>
      forall rid run, In rid (runIds s) -> runs s !! rid = Some run ->
                      Run.sessionKey run = sk -> Run.state run <> Running
  end.
Proof.
  pose proof (latest_fold s sk (runIds s)) as H.
  change (fold_left (pick s sk) (runIds s) None) with (latestRunning sk s) in H.
  destruct (latestRunning sk s) as [run|].
  - destruct H as (pre & rid & post & Hids & Hrun & (r & Hr & Hsk & Hst) & Hlater).
    assert (r = run) as -> by congruence.
    repeat split; try assumption. exists pre, rid, post. repeat split; try assumption.
    intros rid' run' Hin Hr' Hsk' Hst'. apply (Hlater rid' Hin). now exists run'.
  - intros rid run Hin Hr Hsk Hst. apply (H rid Hin). now exists run.
Qed.

End Waiting.

Lemma waiters_answered_once_late_wait_immediate_witness :
  wire (handleAgentWait 1 "late" (waitFor "run_1")
          (finishRun Scenario.noTools 9 "run_1" FinCompleted None None waiting))
  = wire (finishRun Scenario.noTools 9 "run_1" FinCompleted None None waiting)
    ++ [Send 1 (ResOk "late" (PRunResult "run_1" Completed ""))].
Proof.
  pose proof (waiters_answered_once_late_wait_immediate Scenario.noTools waiting 9 9
                "run_1"
                (Run.mk "run_1" "default" "hello" 0 Running "" "" false
                   [SocketWaiter 1 "r2" 2])
                FinCompleted FinCompleted None None None None 1 "late"
                ltac:(discriminate) eq_refl eq_refl) as H.
  cbn zeta in H. destruct H as (_ & _ & Hlate & _). exact Hlate.
Defined.

Lemma abort_by_run_id_witness :
  handleChatAbort 1 "a1" (abortParams "some-other-session" "run_1") waiting
  = sendResponse 1 "a1" (PAborted "run_1")
      (with_runs
         (<["run_1" := aborted (Run.mk "run_1" "default" "hello" 0 Running "" "" false
                                  [SocketWaiter 1 "r2" 2])]> (runs waiting))
         waiting).
Proof.
  pose proof (abort_by_run_id Scenario.noTools waiting 9 1 "a1" "some-other-session"
                "run_1"
                (Run.mk "run_1" "default" "hello" 0 Running "" "" false
                   [SocketWaiter 1 "r2" 2])
                ltac:(discriminate) ltac:(discriminate) eq_refl eq_refl eq_refl) as H.
  cbn zeta in H. destruct H as (Habort & _). exact Habort.
Defined.

(** ** Sessions *)

Definition listed (s : Server) : list SessionSummary :=
  map (fun '(key, meta) =>
         mkSummary key (metaLabel meta) (length (JS.nullish (chatHistory s !! key) [])))
      (map_to_list (sessionMeta s))
  ++ omap (fun '(key, history) =>
             match sessionMeta s !! key with
             | Some _ => None
             | None => Some (mkSummary key None (length history))
             end)
          (map_to_list (chatHistory s)).

Lemma handleSessionsList_listed ws id s :
  handleSessionsList ws id s = sendResponse ws id (PSessions (listed s)) s.
Proof. reflexivity. Qed.

Lemma withMeta_keys (s : Server) (l : list (string * SessionMeta)) :
  map summaryKey
    (map (fun '(key, meta) =>
            mkSummary key (metaLabel meta) (length (JS.nullish (chatHistory s !! key) [])))
         l) = map fst l.
Proof. induction l as [|[k m] l IH]; cbn; [reflexivity | f_equal; exact IH]. Qed.

Lemma historyOnly_keys (s : Server) (l : list (string * list HistoryEntry)) k :
  In k (map summaryKey
          (omap (fun '(key, history) =>
                   match sessionMeta s !! key with
                   | Some _ => None
                   | None => Some (mkSummary key None (length history))
                   end) l))
  <-> In k (map fst l) /\ sessionMeta s !! k = None.
Proof.
  induction l as [|[k' h] l IH]; cbn; [tauto|].
  destruct (sessionMeta s !! k') eqn:Hm; cbn; rewrite IH; split.
  - tauto.
  - intros [[<-|Hin] Hnone]; [congruence | tauto].
  - intros [<-|[Hin Hnone]]; tauto.
  - tauto.
Qed.

Lemma historyOnly_NoDup (s : Server) (l : list (string * list HistoryEntry)) :
  NoDup (map fst l) ->
  NoDup (map summaryKey
           (omap (fun '(key, history) =>
                    match sessionMeta s !! key with
                    | Some _ => None
                    | None => Some (mkSummary key None (length history))
                    end) l)).
Proof.
  induction l as [|[k' h] l IH]; cbn; [constructor|].
  intros Hnd. apply NoDup_cons in Hnd as [Hnotin Hnd].
  destruct (sessionMeta s !! k') eqn:Hm; cbn; [now apply IH|].
  apply NoDup_cons. split; [|now apply IH].
  rewrite list_elem_of_In, historyOnly_keys. rewrite list_elem_of_In in Hnotin. tauto.
Qed.

Lemma in_map_fst_map_to_list {V} (m : gmap string V) k :
  In k (map fst (map_to_list m)) <-> is_Some (m !! k).
Proof.
  rewrite in_map_iff. split.
  - intros ([k' v] & <- & Hin). apply list_elem_of_In, elem_of_map_to_list in Hin. eauto.
  - intros [v Hv]. exists (k, v). split; [reflexivity|].
    now apply list_elem_of_In, elem_of_map_to_list.
Qed.

Lemma fmap_is_map {A B} (f : A -> B) (l : list A) : f <$> l = map f l.
Proof. induction l as [|x l IH]; cbn; [reflexivity | f_equal; exact IH]. Qed.

Lemma NoDup_map_fst_map_to_list {V} (m : gmap string V) : NoDup (map fst (map_to_list m)).
Proof. rewrite <- fmap_is_map. apply NoDup_fst_map_to_list. Qed.

(** X7: [sessions.list] answers with one summary for each session that has
    metadata or a history, and with no other: no key is listed twice, and
    the message count of every summary is the length of that session's
    history. *)
Theorem sessions_list_covers_each_session_once (ws : nat) (id : string) (s : Server) :
  handleSessionsList ws id s = sendResponse ws id (PSessions (listed s)) s
  /\ NoDup (map summaryKey (listed s))
  /\ (forall key, In key (map summaryKey (listed s)) <->
                  is_Some (sessionMeta s !! key) \/ is_Some (chatHistory s !! key))
  /\ (forall summary, In summary (listed s) ->
        messageCount summary = length (getChatHistory s (summaryKey summary))).
Proof.
  split; [reflexivity|]. unfold listed. rewrite map_app, withMeta_keys. repeat split.
  - apply NoDup_app. split; [apply NoDup_map_fst_map_to_list|]. split.
    + intros k. rewrite !list_elem_of_In, in_map_fst_map_to_list, historyOnly_keys.
      intros [v Hv] [_ Hnone]. congruence.
    + apply historyOnly_NoDup, NoDup_map_fst_map_to_list.
  - intros H. apply in_app_or in H as [H|H].
    + left. now apply in_map_fst_map_to_list.
    + right. apply historyOnly_keys in H as [H _]. now apply in_map_fst_map_to_list.
  - intros [H|H]; apply in_or_app.
    + left. now apply in_map_fst_map_to_list.
    + destruct (sessionMeta s !! key) eqn:Hm.
      * left. apply in_map_fst_map_to_list. eauto.
      * right. apply historyOnly_keys. split; [now apply in_map_fst_map_to_list | exact Hm].
  - intros summary H. apply in_app_or in H as [H|H].
    + apply in_map_iff in H as ([k m] & <- & _). reflexivity.
    + apply list_elem_of_In, list_elem_of_omap in H as ([k h] & Hin & Hs).
      apply elem_of_map_to_list in Hin.
      destruct (sessionMeta s !! k); [discriminate|]. injection Hs as <-. cbn.
      unfold getChatHistory. now rewrite Hin.
Qed.

Definition patchParams (key : string) (label : option (option string)) : Params.t :=
  Params.mk None None None None None None (Some key) label None None None None None
    None None None None.

(** X8: [sessions.patch] refuses a label of more than 64 characters and then
    changes nothing but the wire (no metadata is created for the key); a
    label of at most 64 characters is stored, in metadata created on the
    spot when the session had none, and the creation time of existing
    metadata is kept. *)
Theorem sessions_patch_label_bound
    (s : Server) (now : Z) (ws : nat) (id key text : string)
    (Hkey : key <> "") :
  let s' := handleSessionsPatch now ws id (patchParams key (Some (Some text))) s in
  ((64 < String.length text)%nat ->
   s' = sendError ws id "INVALID_REQUEST" "Label exceeds 64 chars" s)
  /\ ((String.length text <= 64)%nat ->
      wire s' = wire s ++ [Send ws (ResOk id (PPatched key))]
      /\ exists meta, sessionMeta s' !! key = Some meta
                      /\ metaLabel meta = Some text
                      /\ createdAt meta =
                           match sessionMeta s !! key with
                           | Some old => createdAt old
                           | None => now
                           end).
Proof.
  intros s'. subst s'. unfold handleSessionsPatch, patchParams.
  cbn [Params.key Params.label JS.nullish labelTooLong].
  apply truthy_Some in Hkey. rewrite Hkey. cbn [negb]. unfold SESSION_LABEL_MAX_LENGTH.
  split; intros Hlen.
  - apply Nat.ltb_lt in Hlen. now rewrite Hlen.
  - apply Nat.ltb_ge in Hlen. rewrite Hlen. split.
    + cbn. now rewrite wire_ensureSessionMeta.
    + cbn [sessionMeta sendResponse send with_wire with_sessionMeta].
      rewrite lookup_alter_eq. unfold ensureSessionMeta.
      destruct (sessionMeta s !! key) as [old|] eqn:Hold.
      * rewrite Hold. cbn. eexists. repeat split.
      * cbn. rewrite lookup_insert_eq. cbn. eexists. repeat split.
Qed.

Lemma sessions_patch_label_bound_witness :
  handleSessionsPatch 5 1 "p1"
    (patchParams "main" (Some (Some
       "0123456789012345678901234567890123456789012345678901234567890123x")))
    Scenario.connected
  = sendError 1 "p1" "INVALID_REQUEST" "Label exceeds 64 chars" Scenario.connected.
Proof.
  pose proof (sessions_patch_label_bound Scenario.connected 5 1 "p1" "main"
                "0123456789012345678901234567890123456789012345678901234567890123x"
                ltac:(discriminate)) as H.
  cbn zeta in H. destruct H as (Hlong & _). apply Hlong. cbn. lia.
Defined.

(** ** Injecting and reading back *)

Definition injectParams (sessionKey message : string) : Params.t :=
  Params.mk (Some sessionKey) (Some message) None None None None None None None None
    None None None None None None None.

Lemma sliceLast_suffix (limit : Z) (history : list HistoryEntry) :
  exists dropped, history = dropped ++ sliceLast limit history.
Proof.
  unfold sliceLast. eexists. symmetry. apply take_drop.
Qed.

Lemma sliceLast_last (limit : Z) (history : list HistoryEntry) (e : HistoryEntry) :
  1 <= limit -> sliceLast limit (history ++ [e]) =
                sliceLast (limit - 1) history ++ [e]
                \/ (limit = 1 /\ sliceLast limit (history ++ [e]) = [e]).
Proof.
  intros Hl. unfold sliceLast. rewrite length_app. cbn [length].
  destruct (Z.ltb_spec (- limit) 0); [|lia].
  destruct (Z.eq_dec limit 1) as [->|Hne].
  - right. split; [reflexivity|].
    replace (Z.to_nat (Z.max (Z.of_nat (length history + 1) + - (1)) 0))
      with (length history) by lia.
    now rewrite drop_app_length.
  - left. destruct (Z.ltb_spec (- (limit - 1)) 0); [|lia].
    replace (Z.to_nat (Z.max (Z.of_nat (length history + 1) + - limit) 0))
      with (Z.to_nat (Z.max (Z.of_nat (length history) + - (limit - 1)) 0)) by lia.
    rewrite drop_app_le by lia. reflexivity.
Qed.

(** X9: a message injected with [chat.inject] is what [chat.history] then
    returns last: for every limit of at least 1 (or none) the reply is a
    single frame whose messages are a suffix of the session's history and
    end with the injected user entry; no greeting is sent. *)
Theorem inject_then_history_returns_it_last
    (s : Server) (now now' : Z) (ws : nat) (id id' sk msg : string)
    (limit : option Z)
    (Hsk : sk <> "") (Hmsg : msg <> "")
    (Hlimit : 1 <= JS.nullish limit 50) :
  let injected := handleChatInject now ws id (injectParams sk msg) s in
  let s' := handleChatHistory now' ws id' (Scenario.historyParams sk limit) injected in
  getChatHistory injected sk = getChatHistory s sk ++ [userEntry now msg]
  /\ exists messages earlier,
       wire s' = wire injected ++ [Send ws (ResOk id' (PHistory sk messages))]
       /\ getChatHistory injected sk = earlier ++ messages
       /\ last messages = Some (userEntry now msg).
Proof.
  intros injected s'.
  assert (Hinj : injected = sendResponse ws id (PInjected sk)
                              (appendHistory now sk (userEntry now msg) s)).
  { subst injected. unfold handleChatInject, injectParams.
    cbn [Params.sessionKey Params.message JS.nullish].
    apply truthy_Some in Hsk, Hmsg. now rewrite Hsk, Hmsg. }
  assert (Hhist : getChatHistory injected sk = getChatHistory s sk ++ [userEntry now msg]).
  { rewrite Hinj. unfold getChatHistory at 1. cbn [chatHistory sendResponse send with_wire].
    fold (getChatHistory (appendHistory now sk (userEntry now msg) s) sk).
    apply getChatHistory_appendHistory. }
  split; [exact Hhist|]. clearbody injected.
  subst s'. unfold handleChatHistory, Scenario.historyParams.
  cbn [Params.sessionKey Params.limit JS.nullish].
  apply truthy_Some in Hsk. rewrite Hsk. cbn [negb].
  fold (getChatHistory injected sk). rewrite Hhist.
  set (lim := Z.min (JS.nullish limit 50) 1000).
  assert (Hlim : 1 <= lim) by (subst lim; lia).
  exists (sliceLast lim (getChatHistory s sk ++ [userEntry now msg])).
  destruct (sliceLast_suffix lim (getChatHistory s sk ++ [userEntry now msg]))
    as [dropped Hdropped].
  exists dropped. split; [|split; [exact Hdropped|]].
  - destruct (getChatHistory s sk ++ [userEntry now msg]) eqn:E; [|reflexivity].
    now destruct (getChatHistory s sk).
  - destruct (sliceLast_last lim (getChatHistory s sk) (userEntry now msg) Hlim)
      as [-> | [_ ->]]; [apply last_snoc | reflexivity].
Qed.

Lemma inject_then_history_returns_it_last_witness :
  getChatHistory
    (handleChatInject 7 1 "i1" (injectParams "main" "remember this") twoEntries) "main"
  = getChatHistory twoEntries "main" ++ [userEntry 7 "remember this"].
Proof.
  assert (Hlimit : 1 <= JS.nullish (Some 2) 50) by (cbn; lia).
  pose proof (inject_then_history_returns_it_last twoEntries 7 8 1 "i1" "h1" "main"
                "remember this" (Some 2) ltac:(discriminate) ltac:(discriminate)
                Hlimit) as H.
  cbn zeta in H. destruct H as (Hinj & _). exact Hinj.
Defined.

(** ** The HTTP completions surface *)

Section Completions.

Variable demo : string -> list ContentPart.

Definition isSystemMessage (m : HttpMessage) : bool :=
  String.eqb (msgRole m) "system" || String.eqb (msgRole m) "developer".

Definition systemEntry (now : Z) (m : HttpMessage) : HistoryEntry :=
  userEntry now ("[System] " +:+ msgContent m).

Definition injectSystem (now : Z) (sessionKey : string) (s : Server) (m : HttpMessage)
    : Server :=
  if isSystemMessage m then appendHistory now sessionKey (systemEntry now m) s else s.

Lemma injectSystem_fold now sk msgs s :
  let s' := fold_left (injectSystem now sk) msgs s in
  getChatHistory s' sk =
    getChatHistory s sk ++ map (systemEntry now) (List.filter isSystemMessage msgs)
  /\ runs s' = runs s /\ runCounter s' = runCounter s /\ onAgentRun s' = onAgentRun s
  /\ promiseCounter s' = promiseCounter s.
Proof.
  revert s. induction msgs as [|m msgs IH]; intros s; cbn zeta; cbn [fold_left].
  - cbn. now rewrite app_nil_r.
  - destruct (IH (injectSystem now sk s m)) as (Hh & Hr & Hc & Ho & Hp).
    rewrite Hh, Hr, Hc, Ho, Hp. unfold injectSystem. cbn [List.filter].
    destruct (isSystemMessage m); [|now repeat split].
    rewrite getChatHistory_appendHistory, runs_appendHistory.
    cbn [map]. rewrite <- app_assoc. repeat split.
    + unfold appendHistory. cbn. now rewrite runCounter_ensureSessionMeta.
    + unfold appendHistory. cbn. now rewrite onAgentRun_ensureSessionMeta.
    + unfold appendHistory, ensureSessionMeta. cbn. now split_cases.
Qed.

(** A run whose message is not a slash command is left to the adapter:
    [executeRun] keeps every history. *)
Lemma executeRun_plain_history now rid run s :
  runs s !! rid = Some run ->
  JS.startsWith (JS.toLowerCase (JS.trim (Run.message run))) "/" = false ->
  chatHistory (executeRun demo now rid s) = chatHistory s.
Proof.
  intros Hrun Hplain. unfold executeRun. rewrite Hrun, Hplain.
  destruct (onAgentRun s); [reflexivity | apply chatHistory_emitAgentEvent].
Qed.

(** The prompt of a completion request: its last message of role "user",
    or the empty string when it has none. *)
Definition promptOf (req : HttpRequest) : string :=
  JS.nullish
    (last (map msgContent
             (List.filter (fun m => String.eqb (msgRole m) "user") (bodyMessages req))))
    "".

(** X10: a completion request whose prompt is not a slash command adds to
    the history of its session (the [user] field, "http-default" when
    absent) one "[System] ..." user entry for each message of role "system"
    or "developer", in the order of the request, and then the prompt as a
    user entry (an empty one when the request has no user message); the run
    it starts has a fresh id and the promise of the call as its only
    waiter. *)
Theorem completion_history
    (s : Server) (now : Z) (req : HttpRequest)
    (Hplain : JS.startsWith (JS.toLowerCase (JS.trim (promptOf req))) "/" = false) :
  let sk := JS.nullish (bodyUser req) "http-default" in
  let rid := "run_" +:+ JS.toString36 (S (runCounter s)) in
  let s' := fst (startCompletion demo now req s) in
  snd (startCompletion demo now req s) = S (promiseCounter s)
  /\ getChatHistory s' sk =
       getChatHistory s sk
       ++ map (systemEntry now) (List.filter isSystemMessage (bodyMessages req))
       ++ [userEntry now (promptOf req)]
  /\ exists run, runs s' !! rid = Some run
                 /\ Run.message run = promptOf req
                 /\ Run.sessionKey run = sk
                 /\ Run.state run = Running
                 /\ Run.waitResolvers run = [PromiseWaiter (S (promiseCounter s))].
Proof.
  intros sk rid s'. subst s'. unfold startCompletion. fold (promptOf req). fold sk.
  change (fun (s0 : Server) (m : HttpMessage) =>
            if String.eqb (msgRole m) "system" || String.eqb (msgRole m) "developer"
            then appendHistory now sk (userEntry now ("[System] " +:+ msgContent m)) s0
            else s0) with (injectSystem now sk).
  destruct (injectSystem_fold now sk (bodyMessages req) s) as (Hh & Hr & Hc & Ho & Hp).
  cbn zeta in Hh, Hr, Hc, Ho, Hp.
  set (s1 := fold_left (injectSystem now sk) (bodyMessages req) s) in *.
  unfold chatAndWait, createRun. cbn zeta. rewrite Hc. fold rid.
  set (run0 := Run.mk rid sk (promptOf req) 0 Running "" "" false []).
  set (s2 := with_runs (<[rid := run0]> (runs s1)) (with_runCounter (S (runCounter s)) s1)).
  set (s3 := appendHistory now sk (userEntry now (promptOf req)) s2).
  assert (Hp3 : promiseCounter s3 = promiseCounter s).
  { subst s3 s2. unfold appendHistory, ensureSessionMeta. cbn. rewrite <- Hp.
    now split_cases. }
  rewrite Hp3.
  set (s4 := with_runs _ (with_promiseCounter (S (promiseCounter s)) s3)).
  set (run4 := Run.setWaiters [PromiseWaiter (S (promiseCounter s))] run0).
  assert (H4 : runs s4 !! rid = Some run4).
  { subst s4 s3. cbn [runs with_runs with_promiseCounter].
    rewrite lookup_alter_eq, runs_appendHistory. subst s2. cbn.
    now rewrite lookup_insert_eq. }
  assert (Hh4 : getChatHistory s4 sk =
                getChatHistory s sk
                ++ map (systemEntry now) (List.filter isSystemMessage (bodyMessages req))
                ++ [userEntry now (promptOf req)]).
  { unfold getChatHistory at 1. subst s4. cbn [chatHistory with_runs with_promiseCounter].
    fold (getChatHistory s3 sk). subst s3. rewrite getChatHistory_appendHistory.
    unfold getChatHistory at 1. subst s2. cbn [chatHistory with_runs with_runCounter].
    fold (getChatHistory s1 sk). now rewrite Hh, <- app_assoc. }
  cbn [fst snd]. split; [reflexivity|]. split.
  - unfold getChatHistory at 1.
    rewrite (executeRun_plain_history now rid run4 s4 H4 Hplain). exact Hh4.
  - unfold executeRun. rewrite H4. cbn [Run.message run4 Run.setWaiters run0].
    rewrite Hplain.
    destruct (onAgentRun s4).
    + exists run4. now repeat split.
    + rewrite (emitAgentEvent_eq _ _ _ _ _ H4). cbn. rewrite lookup_insert_eq.
      eexists. repeat split.
Qed.

End Completions.

Definition sampleCompletion : HttpRequest :=
  mkHttpRequest "POST" "/v1/chat/completions" None
    [mkHttpMessage "system" "be brief"; mkHttpMessage "user" "first";
     mkHttpMessage "developer" "use metric units"; mkHttpMessage "user" "hello"]
    None.

Lemma completion_history_witness :
  getChatHistory
    (fst (startCompletion Scenario.noTools 5 sampleCompletion Scenario.connected))
    "http-default"
  = [userEntry 5 "[System] be brief"; userEntry 5 "[System] use metric units";
     userEntry 5 "hello"].
Proof.
  pose proof (completion_history Scenario.noTools Scenario.connected 5 sampleCompletion
                eq_refl) as H.
  cbn zeta in H. destruct H as (_ & Hh & _). exact (eq_trans Hh eq_refl).
Defined.

(** ** The idempotency sweeper *)

Lemma get_In k ts m : Dedupe.get k m = Some ts -> In (k, ts) m.
Proof.
  induction m as [|[k' ts'] m IH]; cbn; [discriminate|].
  destruct (String.eqb_spec k' k) as [->|Hne]; [intros [= ->]; now left | right; auto].
Qed.

(** X11: the sweeper keeps exactly the entries whose age is at most the TTL,
    in their order; afterwards every key still in the map is reported as a
    duplicate at that time and the probe purges nothing, and a second sweep
    at that time changes nothing. *)
Theorem sweep_keeps_unexpired (ttl now : Z) (m : Dedupe.t) :
  let swept := Dedupe.sweep ttl now m in
  (forall e, In e swept <-> In e m /\ now - snd e <= ttl)
  /\ (forall k ts, Dedupe.get k swept = Some ts ->
                   Dedupe.isDuplicateKey ttl now k swept = (true, swept))
  /\ Dedupe.sweep ttl now swept = swept
  /\ exists dropped, Permutation m (swept ++ dropped).
Proof.
  intros swept. subst swept. unfold Dedupe.sweep.
  assert (Hin : forall e, In e (List.filter (fun e => negb (now - snd e >? ttl)) m)
                          <-> In e m /\ now - snd e <= ttl).
  { intros e. rewrite List.filter_In, negb_true_iff.
    destruct (Z.gtb_spec (now - snd e) ttl); split; intros [H1 H2];
      (split; [assumption|]); try reflexivity; try lia; discriminate. }
  split; [exact Hin|]. split; [|split].
  - intros k ts Hget. unfold Dedupe.isDuplicateKey. rewrite Hget.
    apply get_In, Hin in Hget as [_ Hage]. cbn in Hage.
    now destruct (Z.gtb_spec (now - ts) ttl); [lia|].
  - clear Hin. induction m as [|e m IH]; cbn; [reflexivity|].
    destruct (negb (now - snd e >? ttl)) eqn:E; cbn; [rewrite E; f_equal|]; apply IH.
  - exists (List.filter (fun e => negb (negb (now - snd e >? ttl))) m). clear Hin.
    induction m as [|e m IH]; cbn; [constructor|].
    destruct (negb (now - snd e >? ttl)); cbn.
    + apply perm_skip, IH.
    + rewrite <- Permutation_middle. apply perm_skip, IH.
Qed.

(** ** File names of the disk log *)

Lemma replaceUnsafe_safe (s : string) :
  (forall i c, String.get i s = Some c -> ConversationLogger.safeChar c = true) ->
  ConversationLogger.replaceUnsafe s = s.
Proof.
  induction s as [|c r IH]; intros H; [reflexivity|].
  rewrite LoggerFacts.replaceUnsafe_cons. unfold LoggerFacts.sanitizeChar.
  rewrite (H 0%nat c eq_refl). f_equal. apply IH. intros i c' Hi. apply (H (S i)). exact Hi.
Qed.

Lemma sliceTo_short n s : (String.length s <= n)%nat -> JS.sliceTo n s = s.
Proof.
  unfold JS.sliceTo. revert n. induction s as [|c r IH]; intros n H.
  - now destruct n.
  - destruct n; cbn in *; [lia|]. f_equal. apply IH. lia.
Qed.

(** X12: the file-name component is stable: a key of at most 64 characters,
    all from [A-Za-z0-9_-], is its own component, and sanitizing a
    component again returns it. *)
Theorem sanitize_key_fixpoint (key : string) :
  ((String.length key <= 64)%nat ->
   (forall i c, String.get i key = Some c -> ConversationLogger.safeChar c = true) ->
   ConversationLogger.sanitizeKey key = key)
  /\ ConversationLogger.sanitizeKey (ConversationLogger.sanitizeKey key) =
     ConversationLogger.sanitizeKey key.
Proof.
  assert (Hfix : forall k, (String.length k <= 64)%nat ->
            (forall i c, String.get i k = Some c -> ConversationLogger.safeChar c = true) ->
            ConversationLogger.sanitizeKey k = k).
  { intros k Hlen Hsafe. unfold ConversationLogger.sanitizeKey.
    rewrite replaceUnsafe_safe by exact Hsafe. now apply sliceTo_short. }
  split; [apply Hfix|]. apply Hfix.
  - unfold ConversationLogger.sanitizeKey.
    rewrite LoggerFacts.sliceTo_length. lia.
  - intros i c. unfold ConversationLogger.sanitizeKey.
    rewrite LoggerFacts.sliceTo_get, LoggerFacts.replaceUnsafe_get.
    destruct (i <? 64)%nat; [|discriminate].
    destruct (String.get i key) as [c'|]; [|discriminate].
    cbn. intros [= <-]. apply LoggerFacts.sanitizeChar_safe.
Qed.

(* ===================================================================== *)
(** * What every execution preserves *)
(* ===================================================================== *)

(** The part of the state the invariants below are about. *)
Definition core (s : Server) :=
  (wire s, globalSeq s, clients s, chatHistory s, runs s, runCounter s, config s).

(** A frame that [broadcast] did not send: broadcast events carry a
    positive sequence number, everything else does not. *)
Definition plainFrame (w : Wire) : bool :=
  match w with
  | Send _ (Event (S _) _) => false
  | _ => true
  end.

(** The entries the server stores: user entries without a stop reason,
    assistant entries with the stop reason "stop" or "end_turn". *)
Definition okEntry (e : HistoryEntry) : bool :=
  match role e, stopReason e with
  | RUser, None => true
  | RAssistant, Some r => String.eqb r "stop" || String.eqb r "end_turn"
  | _, _ => false
  end.

(** [r'] is the run [r] further along: the same id, session and message,
    a sequence number that is not smaller, and not running again once [r]
    has stopped running. *)
Definition sameRun (r r' : Run.t) : Prop :=
  Run.runId r' = Run.runId r /\ Run.sessionKey r' = Run.sessionKey r
  /\ Run.message r' = Run.message r /\ (Run.seq r <= Run.seq r')%nat
  /\ (Run.state r' = Running -> Run.state r = Running).

(** The elementary changes the server's methods are made of. *)
Inductive Prim (s s' : Server) : Prop :=
| PSame : core s' = core s -> Prim s s'
| PPlain w : plainFrame w = true -> core s' = core (with_wire (wire s ++ [w]) s) -> Prim s s'
| PBroadcast b : core s' = core (broadcast b s) -> Prim s s'
| PAppend k e :
    okEntry e = true ->
    core s' = core (with_chatHistory (<[k := getChatHistory s k ++ [e]]> (chatHistory s)) s) ->
    Prim s s'
| PClear k : core s' = core (with_chatHistory (delete k (chatHistory s)) s) -> Prim s s'
| PNewRun k m : core s' = core (fst (createRun k m s)) -> Prim s s'
| PUpdateRun k r r' :
    runs s !! k = Some r -> sameRun r r' ->
    core s' = core (with_runs (<[k := r']> (runs s)) s) -> Prim s s'
| PReinsertRun k r r' :
    runs s !! k = Some r -> sameRun r r' ->
    core s' = core (with_runs (<[Run.runId r := r']> (runs s)) s) -> Prim s s'
| PJoin ws :
    ~ In ws (clients s) -> core s' = core (with_clients (clients s ++ [ws]) s) -> Prim s s'
| PLeave ws :
    core s' = core (with_clients (List.filter (fun c => negb (Nat.eqb c ws)) (clients s)) s) ->
    Prim s s'
| PEveryRun (f : Run.t -> Run.t) :
    (forall r, sameRun r (f r)) -> core s' = core (with_runs (fmap f (runs s)) s) ->
    Prim s s'.

Definition Steps : Server -> Server -> Prop := rtc Prim.

Lemma Steps_refl s : Steps s s.
Proof. apply rtc_refl. Qed.

Lemma Steps_trans s1 s2 s3 : Steps s1 s2 -> Steps s2 s3 -> Steps s1 s3.
Proof. apply rtc_trans. Qed.

Lemma sameRun_refl r : sameRun r r.
Proof. repeat split; [lia | exact id]. Qed.

Lemma sameRun_trans r1 r2 r3 : sameRun r1 r2 -> sameRun r2 r3 -> sameRun r1 r3.
Proof.
  intros (A1 & A2 & A3 & A4 & A5) (B1 & B2 & B3 & B4 & B5).
  repeat split; try congruence; [lia | auto].
Qed.

Ltac same_run :=
  repeat split; cbn; try lia; try exact id; try discriminate;
  try (match goal with st : FinishState |- _ => destruct st end; discriminate).
Lemma st_with_conns s x v : Steps s x -> Steps s (with_conns v x).
Proof. intros H. eapply rtc_r; [exact H | now apply PSame]. Qed.

Lemma st_with_presence s x v : Steps s x -> Steps s (with_presence v x).
Proof. intros H. eapply rtc_r; [exact H | now apply PSame]. Qed.

Lemma st_with_presenceVersion s x v : Steps s x -> Steps s (with_presenceVersion v x).
Proof. intros H. eapply rtc_r; [exact H | now apply PSame]. Qed.

Lemma st_with_healthVersion s x v : Steps s x -> Steps s (with_healthVersion v x).
Proof. intros H. eapply rtc_r; [exact H | now apply PSame]. Qed.

Lemma st_with_idempotencyKeys s x v : Steps s x -> Steps s (with_idempotencyKeys v x).
Proof. intros H. eapply rtc_r; [exact H | now apply PSame]. Qed.

Lemma st_with_handshakeTimeouts s x v : Steps s x -> Steps s (with_handshakeTimeouts v x).
Proof. intros H. eapply rtc_r; [exact H | now apply PSame]. Qed.

Lemma st_with_timers s x v : Steps s x -> Steps s (with_timers v x).
Proof. intros H. eapply rtc_r; [exact H | now apply PSame]. Qed.

Lemma st_with_timerCounter s x v : Steps s x -> Steps s (with_timerCounter v x).
Proof. intros H. eapply rtc_r; [exact H | now apply PSame]. Qed.

Lemma st_with_connCounter s x v : Steps s x -> Steps s (with_connCounter v x).
Proof. intros H. eapply rtc_r; [exact H | now apply PSame]. Qed.

Lemma st_with_sessionMeta s x v : Steps s x -> Steps s (with_sessionMeta v x).
Proof. intros H. eapply rtc_r; [exact H | now apply PSame]. Qed.

Lemma st_with_currentModel s x v : Steps s x -> Steps s (with_currentModel v x).
Proof. intros H. eapply rtc_r; [exact H | now apply PSame]. Qed.

Lemma st_with_logger s x v : Steps s x -> Steps s (with_logger v x).
Proof. intros H. eapply rtc_r; [exact H | now apply PSame]. Qed.

Lemma st_with_promises s x v : Steps s x -> Steps s (with_promises v x).
Proof. intros H. eapply rtc_r; [exact H | now apply PSame]. Qed.

Lemma st_with_promiseCounter s x v : Steps s x -> Steps s (with_promiseCounter v x).
Proof. intros H. eapply rtc_r; [exact H | now apply PSame]. Qed.

Lemma st_send s x ws f :
  plainFrame (Send ws f) = true -> Steps s x -> Steps s (send ws f x).
Proof. intros Hp H. eapply rtc_r; [exact H | now apply (PPlain _ _ (Send ws f))]. Qed.

Lemma st_close s x ws c r : Steps s x -> Steps s (close ws c r x).
Proof. intros H. eapply rtc_r; [exact H | now apply (PPlain _ _ (Close ws c r))]. Qed.

Lemma st_sendResponse s x ws id p : Steps s x -> Steps s (sendResponse ws id p x).
Proof. now apply st_send. Qed.

Lemma st_sendError s x ws id c m : Steps s x -> Steps s (sendError ws id c m x).
Proof. now apply st_send. Qed.

Lemma st_broadcast s x b : Steps s x -> Steps s (broadcast b x).
Proof. intros H. eapply rtc_r; [exact H | now apply (PBroadcast _ _ b)]. Qed.

Lemma st_with_chatHistory_delete s x k :
  Steps s x -> Steps s (with_chatHistory (delete k (chatHistory x)) x).
Proof. intros H. eapply rtc_r; [exact H | now apply (PClear _ _ k)]. Qed.

Lemma st_ensureSessionMeta s x now k : Steps s x -> Steps s (ensureSessionMeta now k x).
Proof.
  intros H. unfold ensureSessionMeta. destruct (sessionMeta x !! k); [exact H|].
  now apply st_with_sessionMeta.
Qed.

Lemma st_appendHistory s x now k e :
  okEntry e = true -> Steps s x -> Steps s (appendHistory now k e x).
Proof.
  intros He H. unfold appendHistory. cbv zeta.
  apply st_with_logger, st_with_sessionMeta, st_ensureSessionMeta.
  eapply rtc_r; [exact H | now apply (PAppend _ _ k e)].
Qed.

Lemma st_createRun s x k m : Steps s x -> Steps s (fst (createRun k m x)).
Proof. intros H. eapply rtc_r; [exact H | now apply (PNewRun _ _ k m)]. Qed.

Lemma st_updateRun s x k r r' :
  runs x !! k = Some r -> sameRun r r' ->
  Steps s x -> Steps s (with_runs (<[k := r']> (runs x)) x).
Proof. intros Hr Hs H. eapply rtc_r; [exact H | now apply (PUpdateRun _ _ k r r')]. Qed.

Lemma st_alterRun s x k (f : Run.t -> Run.t) :
  (forall r, sameRun r (f r)) -> Steps s x -> Steps s (with_runs (alter f k (runs x)) x).
Proof.
  intros Hf H. destruct (runs x !! k) as [r|] eqn:Hr.
  - eapply rtc_r; [exact H|]. apply (PUpdateRun _ _ k r (f r) Hr (Hf r)).
    unfold core. cbn. do 3 f_equal. apply map_eq. intros k'.
    destruct (decide (k = k')) as [<-|Hne].
    + now rewrite lookup_alter_eq, lookup_insert_eq, Hr.
    + now rewrite lookup_alter_ne, lookup_insert_ne.
  - eapply rtc_r; [exact H|]. apply PSame. unfold core. cbn. do 3 f_equal.
    apply map_eq. intros k'. destruct (decide (k = k')) as [<-|Hne].
    + now rewrite lookup_alter_eq, Hr.
    + now rewrite lookup_alter_ne.
Qed.

Lemma st_emitAgentEvent s x rid stream data :
  Steps s x -> Steps s (emitAgentEvent rid stream data x).
Proof.
  intros H. unfold emitAgentEvent. destruct (runs x !! rid) as [r|] eqn:Hr; [|exact H].
  apply st_broadcast. apply (st_updateRun s x rid r); [exact Hr | | exact H].
  same_run.
Qed.

Lemma st_emitChatEvent s x rid st text :
  Steps s x -> Steps s (emitChatEvent rid st text x).
Proof.
  intros H. unfold emitChatEvent. destruct (runs x !! rid); [|exact H].
  destruct st; now apply st_broadcast.
Qed.

Lemma st_resolveWaiters s rid st text waiters x :
  Steps s x -> Steps s (fold_left (resolveWaiter rid st text) waiters x).
Proof.
  revert x. induction waiters as [|w waiters IH]; intros x H; cbn; [exact H|].
  apply IH. destruct w; cbn.
  - now apply st_sendResponse, st_with_timers.
  - now apply st_with_promises.
Qed.

Lemma st_setAccumulatedText s x rid text :
  Steps s x -> Steps s (setAccumulatedText rid text x).
Proof. intros H. apply st_alterRun; [|exact H]. intros r. same_run. Qed.

Section StepsOfTheServer.

Variable demo : string -> list ContentPart.

Lemma st_finishRun s x now rid st err parts :
  Steps s x -> Steps s (finishRun demo now rid st err parts x).
Proof.
  intros H. unfold finishRun. destruct (runs x !! rid) as [run|] eqn:Hr; [|exact H].
  cbv zeta. apply st_alterRun; [intros r; same_run|].
  apply st_resolveWaiters, st_with_sessionMeta.
  assert (H1 : Steps s (with_runs (<[rid := Run.setState (runStateOf st) run]> (runs x)) x)).
  { apply (st_updateRun s x rid run); [exact Hr | | exact H]. same_run. }
  destruct st.
  - apply st_appendHistory; [reflexivity|].
    now apply st_emitChatEvent, st_emitAgentEvent.
  - now apply st_emitChatEvent, st_emitAgentEvent.
Qed.

Lemma st_handleSlashCommand s x run lower :
  Steps s x -> Steps s (fst (handleSlashCommand run lower x)).
Proof.
  intros H. unfold handleSlashCommand.
  repeat match goal with |- context [if ?c then _ else _] => destruct c end; cbn [fst];
    try exact H.
  - now apply st_with_chatHistory_delete.
  - now apply st_with_currentModel.
Qed.

Lemma slashStopReason_none run lower x r :
  snd (handleSlashCommand run lower x) = Some r -> slashStopReason r = None.
Proof.
  unfold handleSlashCommand.
  repeat match goal with |- context [if ?c then _ else _] => destruct c end; cbn [snd];
    intros [= <-]; reflexivity.
Qed.

Lemma st_executeRun s x now rid :
  Steps s x -> Steps s (executeRun demo now rid x).
Proof.
  intros H. unfold executeRun. destruct (runs x !! rid) as [run|]; [|exact H].
  cbv zeta.
  destruct (JS.startsWith (JS.toLowerCase (JS.trim (Run.message run))) "/").
  - pose proof (st_handleSlashCommand s x run (JS.toLowerCase (JS.trim (Run.message run))) H) as H1.
    pose proof (slashStopReason_none run (JS.toLowerCase (JS.trim (Run.message run))) x) as H2.
    destruct (handleSlashCommand run (JS.toLowerCase (JS.trim (Run.message run))) x)
      as [x1 [r|]]; cbn [fst snd] in H1, H2.
    + apply st_finishRun, st_appendHistory.
      * unfold okEntry. cbn. now rewrite (H2 r eq_refl).
      * now apply st_emitChatEvent, st_setAccumulatedText, st_emitAgentEvent.
    + destruct (onAgentRun x); [exact H|]. now apply st_emitAgentEvent.
  - destruct (onAgentRun x); [exact H|]. now apply st_emitAgentEvent.
Qed.

Lemma st_isDuplicateKey s x now k :
  Steps s x -> Steps s (snd (isDuplicateKey now k x)).
Proof.
  intros H. unfold isDuplicateKey.
  destruct (Dedupe.isDuplicateKey _ _ _ _). cbn [snd]. now apply st_with_idempotencyKeys.
Qed.

Lemma st_recordIdempotencyKey s x now k :
  Steps s x -> Steps s (recordIdempotencyKey now k x).
Proof. intros H. now apply st_with_idempotencyKeys. Qed.

Lemma st_handleChatSend s x now ws id p :
  Steps s x -> Steps s (handleChatSend demo now ws id p x).
Proof.
  intros H. unfold handleChatSend.
  destruct (_ || _); [now apply st_sendError|]. cbv zeta.
  pose proof (st_isDuplicateKey s x now (JS.nullish (Params.idempotencyKey p) "") H) as H1.
  destruct (isDuplicateKey now _ x) as [dup x1]. cbn [snd] in H1.
  destruct dup; [now apply st_sendError|].
  match goal with |- context [createRun ?k ?m ?y] =>
    pose proof (st_createRun s y k m) as H2; destruct (createRun k m y) as [x2 rid] end.
  cbn [fst] in H2.
  apply st_executeRun, st_send; [reflexivity|]. apply st_appendHistory; [reflexivity|].
  apply H2. now apply st_ensureSessionMeta, st_recordIdempotencyKey.
Qed.

Lemma st_handleAgent s x now ws id p :
  Steps s x -> Steps s (handleAgent demo now ws id p x).
Proof.
  intros H. unfold handleAgent.
  destruct (_ || _); [now apply st_sendError|]. cbv zeta.
  pose proof (st_isDuplicateKey s x now (JS.nullish (Params.idempotencyKey p) "") H) as H1.
  destruct (isDuplicateKey now _ x) as [dup x1]. cbn [snd] in H1.
  destruct dup; [now apply st_sendError|].
  match goal with |- context [createRun ?k ?m ?y] =>
    pose proof (st_createRun s y k m) as H2; destruct (createRun k m y) as [x2 rid] end.
  cbn [fst] in H2.
  apply st_executeRun, st_sendResponse.
  apply H2. now apply st_ensureSessionMeta, st_recordIdempotencyKey.
Qed.

Lemma st_reinsertRun s x k r r' :
  runs x !! k = Some r -> sameRun r r' ->
  Steps s x -> Steps s (with_runs (<[Run.runId r := r']> (runs x)) x).
Proof. intros Hr Hs H. eapply rtc_r; [exact H | now apply (PReinsertRun _ _ k r r')]. Qed.

Lemma latestRunning_some k x r :
  latestRunning k x = Some r -> exists rid, runs x !! rid = Some r.
Proof.
  unfold latestRunning. generalize (runIds x).
  assert (G : forall l acc,
    (acc = None \/ exists rid, runs x !! rid = acc) ->
    fold_left
      (fun target rid =>
         match runs x !! rid with
         | Some run =>
             if String.eqb (Run.sessionKey run) k
                && match Run.state run with Running => true | _ => false end
             then Some run else target
         | None => target
         end) l acc = Some r -> exists rid, runs x !! rid = Some r).
  { induction l as [|rid l IH]; intros acc Hacc; cbn.
    - intros ->. destruct Hacc as [Hacc|Hacc]; [discriminate | exact Hacc].
    - apply IH. destruct (runs x !! rid) as [run|] eqn:Hr; [|exact Hacc].
      destruct (_ && _); [|exact Hacc]. right. exists rid. exact Hr. }
  intros l. apply G. now left.
Qed.

Lemma st_handleChatAbort s x ws id p :
  Steps s x -> Steps s (handleChatAbort ws id p x).
Proof.
  intros H. unfold handleChatAbort.
  destruct (negb _); [now apply st_sendError|]. cbv zeta.
  match goal with |- context [match ?t with Some _ => _ | None => _ end] =>
    destruct t as [run|] eqn:Ht end; [|now apply st_sendError].
  destruct (isRunning run); [|now apply st_sendError].
  apply st_sendResponse.
  assert (Hex : exists rid, runs x !! rid = Some run).
  { destruct (JS.truthy (Params.runId p)); [eauto | now apply latestRunning_some in Ht]. }
  destruct Hex as [rid Hrid].
  apply (st_reinsertRun s x rid run); [exact Hrid | | exact H]. same_run.
Qed.

Lemma st_handleChatHistory s x now ws id p :
  Steps s x -> Steps s (handleChatHistory now ws id p x).
Proof.
  intros H. unfold handleChatHistory.
  destruct (negb _); [now apply st_sendError|]. cbv zeta.
  destruct (JS.nullish (chatHistory x !! _) []); [|now apply st_sendResponse].
  destruct (greeting _) as [text|]; [|now apply st_sendResponse].
  destruct (JS.truthy (Some text)); [|now apply st_sendResponse].
  apply st_appendHistory; [reflexivity|]. apply st_send; [reflexivity|].
  now apply st_sendResponse.
Qed.

Lemma st_handleChatInject s x now ws id p :
  Steps s x -> Steps s (handleChatInject now ws id p x).
Proof.
  intros H. unfold handleChatInject.
  destruct (_ || _); [now apply st_sendError|]. cbv zeta.
  apply st_sendResponse. now apply st_appendHistory.
Qed.

Lemma st_handleAgentWait s x ws id p :
  Steps s x -> Steps s (handleAgentWait ws id p x).
Proof.
  intros H. unfold handleAgentWait.
  destruct (negb _); [now apply st_sendError|].
  destruct (runs x !! _) as [run|] eqn:Hr; [|now apply st_sendError].
  destruct (negb _); [now apply st_sendResponse|]. cbv zeta.
  eapply st_reinsertRun; [exact Hr | same_run |].
  now apply st_with_timers, st_with_timerCounter.
Qed.

Lemma st_chatAndWait s x now k m :
  Steps s x -> Steps s (fst (chatAndWait demo now k m x)).
Proof.
  intros H. unfold chatAndWait.
  pose proof (st_createRun s x k m H) as H1.
  destruct (createRun k m x) as [x1 rid]. cbn [fst] in *.
  apply st_executeRun, st_alterRun; [intros r; same_run|].
  apply st_with_promiseCounter. now apply st_appendHistory.
Qed.

Lemma st_handleSessionsPatch s x now ws id p :
  Steps s x -> Steps s (handleSessionsPatch now ws id p x).
Proof.
  intros H. unfold handleSessionsPatch.
  destruct (negb _); [now apply st_sendError|].
  destruct (labelTooLong _); [now apply st_sendError|]. cbv zeta.
  apply st_sendResponse. destruct (Params.label p).
  - now apply st_with_sessionMeta, st_ensureSessionMeta.
  - now apply st_ensureSessionMeta.
Qed.

Lemma st_handleSessionsReset s x ws id p :
  Steps s x -> Steps s (handleSessionsReset ws id p x).
Proof.
  intros H. unfold handleSessionsReset. cbv zeta.
  now apply st_sendResponse, st_with_chatHistory_delete.
Qed.

Lemma st_handleSessionsDelete s x ws id p :
  Steps s x -> Steps s (handleSessionsDelete ws id p x).
Proof.
  intros H. unfold handleSessionsDelete.
  destruct (negb _); [now apply st_sendError|]. cbv zeta.
  apply st_sendResponse.
  now apply (st_with_sessionMeta s (with_chatHistory _ x)), st_with_chatHistory_delete.
Qed.

Lemma st_handleSend s x now ws id p :
  Steps s x -> Steps s (handleSend now ws id p x).
Proof.
  intros H. unfold handleSend.
  destruct (_ || _); [now apply st_sendError|]. cbv zeta.
  pose proof (st_isDuplicateKey s x now (JS.nullish (Params.idempotencyKey p) "") H) as H1.
  destruct (isDuplicateKey now _ x) as [dup x1]. cbn [snd] in H1.
  destruct dup; [now apply st_sendError|].
  now apply st_sendResponse, st_recordIdempotencyKey.
Qed.

Lemma st_callHandler s x now h ws id p :
  Steps s x -> Steps s (callHandler demo now h ws id p x).
Proof.
  intros H. destruct h; cbn [callHandler];
    first [ now apply st_handleAgent | now apply st_handleAgentWait
          | now apply st_handleChatSend | now apply st_handleChatAbort
          | now apply st_handleChatHistory | now apply st_handleChatInject
          | now apply st_handleSessionsPatch | now apply st_handleSessionsReset
          | now apply st_handleSessionsDelete | now apply st_handleSend
          | now apply st_sendResponse ].
Qed.

Lemma st_clearHandshakeTimeout s x ws :
  Steps s x -> Steps s (clearHandshakeTimeout ws x).
Proof.
  intros H. unfold clearHandshakeTimeout. destruct (handshakeTimeouts x !! ws); [|exact H].
  now apply st_with_handshakeTimeouts, st_with_timers.
Qed.

Lemma st_join s x ws :
  Steps s x ->
  Steps s (if existsb (Nat.eqb ws) (clients x) then x
           else with_clients (clients x ++ [ws]) x).
Proof.
  intros H. destruct (existsb _ _) eqn:Hex; [exact H|].
  eapply rtc_r; [exact H|]. apply (PJoin _ _ ws); [|reflexivity].
  intros Hin. assert (existsb (Nat.eqb ws) (clients x) = true); [|congruence].
  apply existsb_exists. exists ws. split; [exact Hin | apply Nat.eqb_refl].
Qed.

Lemma st_handleConnect s x ws id params :
  Steps s x -> Steps s (handleConnect ws id params x).
Proof.
  intros H. unfold handleConnect. cbv zeta.
  pose proof (st_clearHandshakeTimeout s x ws H) as H1.
  set (x1 := clearHandshakeTimeout ws x) in *. clearbody x1.
  destruct (_ || _); [now apply st_close, st_sendError|].
  destruct (_ || _); [now apply st_close, st_sendError|].
  match goal with |- context [if ?c then close _ _ _ _ else _] => destruct c end;
    [now apply st_close, st_sendError|].
  unfold broadcastPresence. apply st_broadcast. apply st_send; [reflexivity|].
  apply st_with_presenceVersion, st_with_presence.
  apply (st_join s (with_conns _ x1)). now apply st_with_conns.
Qed.

Lemma st_handleMessage s x now ws raw :
  Steps s x -> Steps s (handleMessage demo now ws raw x).
Proof.
  intros H. unfold handleMessage.
  destruct (_ >? _); [now apply st_close, st_sendError|].
  destruct (parsed raw) as [| |frame]; [now apply st_sendError | exact H |].
  destruct (negb _); [now apply st_sendError|].
  destruct (_ || _); [now apply st_sendError|]. cbv zeta.
  destruct (negb (isAuthenticated x ws)).
  - destruct (negb _); [now apply st_close, st_sendError | now apply st_handleConnect].
  - destruct (lookupMethod _ _); [now apply st_callHandler | now apply st_sendError].
Qed.

Lemma st_handleOpen s x ws uuid :
  Steps s x -> Steps s (handleOpen ws uuid x).
Proof.
  intros H. unfold handleOpen. cbv zeta.
  apply st_send; [reflexivity|]. apply st_send; [reflexivity|].
  now apply st_with_conns, st_with_handshakeTimeouts, st_with_timers,
    st_with_timerCounter, st_with_connCounter.
Qed.

Lemma st_handleClose s x ws :
  Steps s x -> Steps s (handleClose ws x).
Proof.
  intros H. unfold handleClose. cbv zeta.
  pose proof (st_clearHandshakeTimeout s x ws H) as H1.
  set (x1 := clearHandshakeTimeout ws x) in *. clearbody x1.
  assert (H2 : Steps s (with_clients (List.filter (fun c => negb (Nat.eqb c ws)) (clients x1)) x1)).
  { eapply rtc_r; [exact H1 | now apply (PLeave _ _ ws)]. }
  destruct (isAuthenticated _ ws); [|exact H2].
  unfold broadcastPresence, removePresence. cbv zeta.
  now apply st_broadcast, st_with_presenceVersion, st_with_presence.
Qed.

Lemma st_fireTimer s x timer :
  Steps s x -> Steps s (fireTimer timer x).
Proof.
  intros H. unfold fireTimer. destruct (timers x !! timer) as [t|]; [|exact H].
  cbv zeta. destruct t.
  - apply st_with_handshakeTimeouts. destruct (negb _).
    + now apply st_close, st_with_timers.
    + now apply st_with_timers.
  - now apply st_sendError, st_with_timers.
Qed.

Lemma st_adapterThrows s x now rid err :
  Steps s x -> Steps s (adapterThrows demo now rid err x).
Proof.
  intros H. unfold adapterThrows. destruct (runs x !! rid) as [run|]; [|exact H].
  destruct (isRunning run); [now apply st_finishRun | exact H].
Qed.

Lemma st_startCompletion s x now req :
  Steps s x -> Steps s (fst (startCompletion demo now req x)).
Proof.
  intros H. unfold startCompletion. cbv zeta. apply st_chatAndWait.
  revert x H. induction (bodyMessages req) as [|m l IH]; intros x H; cbn [fold_left];
    [exact H|].
  apply IH. destruct (_ || _); [|exact H]. now apply st_appendHistory.
Qed.

Lemma st_step s x i : Steps s x -> Steps s (step demo x i).
Proof.
  intros H. destruct i as [now i]. unfold step. cbn [fst snd]. destruct i.
  - now apply st_handleOpen.
  - now apply st_handleMessage.
  - now apply st_handleClose.
  - now apply st_fireTimer.
  - unfold dedupeCleanup. now apply st_with_idempotencyKeys.
  - destruct (handleHttpRequest req x) as [[| ]|]; try exact H. now apply st_startCompletion.
  - now apply st_emitAgentEvent.
  - now apply st_emitChatEvent.
  - now apply st_finishRun.
  - now apply st_adapterThrows.
  - now apply st_setAccumulatedText.
  - unfold setAccumulatedThinking. apply st_alterRun; [|exact H]. intros r. same_run.
  - unfold isAborted. destruct (runs x !! rid) as [run|] eqn:Hr; [|exact H].
    destruct (Run.aborted run); [|exact H]. cbn [snd].
    apply (st_updateRun s x rid run); [exact Hr | same_run | exact H].
  - unfold tick. now apply st_broadcast.
  - unfold healthRefresh. cbv zeta. now apply st_broadcast, st_with_healthVersion.
  - unfold stop. cbv zeta.
    eapply rtc_r; [|apply (PEveryRun _ _ abortIfRunning); [|reflexivity]].
    + now apply st_with_handshakeTimeouts, st_with_timers, st_broadcast.
    + intros r. unfold abortIfRunning. destruct (isRunning r) eqn:Hrun.
      * same_run.
      * apply sameRun_refl.
  - unfold clearSession. cbv zeta.
    now apply (st_with_sessionMeta s (with_chatHistory _ x)), st_with_chatHistory_delete.
  - now apply st_chatAndWait.
Qed.

Lemma st_exec s inputs : Steps s (exec demo s inputs).
Proof.
  unfold exec. assert (G : forall x, Steps s x -> Steps s (fold_left (step demo) inputs x)).
  { induction inputs as [|i l IH]; intros x H; cbn [fold_left]; [exact H|].
    apply IH. now apply st_step. }
  apply G, Steps_refl.
Qed.

End StepsOfTheServer.

(** ** Run ids *)

(** [parseInt(s, 36)] on the digits [toString(36)] produces. *)
Definition digitValue36 (c : ascii) : nat :=
  let n := nat_of_ascii c in
  if (n <? 58)%nat then (n - 48)%nat else (n - 87)%nat.

Fixpoint parseInt36_aux (s : string) (acc : nat) : nat :=
  match s with
  | EmptyString => acc
  | String c r => parseInt36_aux r (acc * 36 + digitValue36 c)%nat
  end.

Definition parseInt36 (s : string) : nat := parseInt36_aux s 0.

Definition runName (n : nat) : string := "run_" +:+ JS.toString36 n.

Lemma digitValue36_digit36 d : (d < 36)%nat -> digitValue36 (JS.digit36 d) = d.
Proof.
  intros H. do 36 (destruct d as [|d]; [reflexivity|]). lia.
Qed.

Lemma parseInt36_aux_acc s acc :
  parseInt36_aux s acc = (acc * 36 ^ String.length s + parseInt36_aux s 0)%nat.
Proof.
  revert acc. induction s as [|c r IH]; intros acc; cbn [parseInt36_aux String.length].
  - cbn. lia.
  - rewrite IH. rewrite (IH (0 * 36 + digitValue36 c)%nat).
    rewrite Nat.pow_succ_r'. lia.
Qed.

Lemma parseInt36_toString36_aux fuel n acc :
  (n < fuel)%nat ->
  parseInt36 (JS.toString36_aux fuel n acc)
  = (n * 36 ^ String.length acc + parseInt36 acc)%nat.
Proof.
  revert n acc. induction fuel as [|fuel IH]; intros n acc Hn; [lia|].
  cbn [JS.toString36_aux]. cbv zeta.
  assert (Hd : (n mod 36 < 36)%nat) by (apply Nat.mod_upper_bound; lia).
  assert (Hv : parseInt36 (String (JS.digit36 (n mod 36)) acc)
               = ((n mod 36) * 36 ^ String.length acc + parseInt36 acc)%nat).
  { unfold parseInt36. cbn [parseInt36_aux]. rewrite parseInt36_aux_acc.
    rewrite digitValue36_digit36 by exact Hd. lia. }
  destruct (Nat.ltb_spec n 36) as [Hlt|Hge].
  - rewrite Hv. now rewrite Nat.mod_small.
  - rewrite IH.
    + rewrite Hv. cbn [String.length]. rewrite Nat.pow_succ_r'.
      pose proof (Nat.div_mod_eq n 36) as E. nia.
    + pose proof (Nat.div_lt n 36). lia.
Qed.

Lemma parseInt36_toString36 n : parseInt36 (JS.toString36 n) = n.
Proof.
  unfold JS.toString36. rewrite parseInt36_toString36_aux by lia.
  cbn. lia.
Qed.

Lemma append_inj_r (p a b : string) : p +:+ a = p +:+ b -> a = b.
Proof.
  induction p as [|c p IH]; cbn [append]; intros H; [exact H|].
  injection H as H. now apply IH.
Qed.

Lemma runName_inj n m : runName n = runName m -> n = m.
Proof.
  unfold runName. intros H. apply append_inj_r in H.
  rewrite <- (parseInt36_toString36 n), <- (parseInt36_toString36 m). now rewrite H.
Qed.

Lemma in_runIds s k :
  In k (runIds s) <-> exists n, (1 <= n <= runCounter s)%nat /\ k = runName n.
Proof.
  unfold runIds. rewrite in_map_iff. split.
  - intros (n & <- & Hn). apply in_seq in Hn. exists n. split; [lia | reflexivity].
  - intros (n & Hn & ->). exists n. split; [reflexivity|]. apply in_seq. lia.
Qed.

(** ** Invariants of the core state *)

Lemma core_eq a b :
  core a = core b ->
  wire a = wire b /\ globalSeq a = globalSeq b /\ clients a = clients b
  /\ chatHistory a = chatHistory b /\ runs a = runs b /\ runCounter a = runCounter b
  /\ config a = config b.
Proof. unfold core. intros [= -> -> -> -> -> -> ->]. repeat split. Qed.

(** The run table holds the runs [createRun] made, each under its own id. *)
Definition runsOK (s : Server) : Prop :=
  forall k,
    (is_Some (runs s !! k) <-> In k (runIds s))
    /\ (forall r, runs s !! k = Some r -> Run.runId r = k).

(** Every stored entry is one the server wrote. *)
Definition histOK (s : Server) : Prop :=
  forall k h, chatHistory s !! k = Some h -> Forall (fun e => okEntry e = true) h.

(** The sequence numbers of the broadcast events sent to [ws], in the order
    they were sent. *)
Definition broadcastSeq (ws : nat) (w : Wire) : option nat :=
  match w with
  | Send c (Event (S n) _) => if Nat.eqb c ws then Some (S n) else None
  | _ => None
  end.

Definition seqsTo (ws : nat) (l : list Wire) : list nat := omap (broadcastSeq ws) l.

Definition strictlyIncreasing (l : list nat) : Prop :=
  forall i j a b, (i < j)%nat -> l !! i = Some a -> l !! j = Some b -> (a < b)%nat.

Definition seqOK (s : Server) : Prop :=
  NoDup (clients s)
  /\ forall ws,
       strictlyIncreasing (seqsTo ws (wire s))
       /\ Forall (fun n => (n <= globalSeq s)%nat) (seqsTo ws (wire s)).

Lemma strictlyIncreasing_snoc l x :
  strictlyIncreasing l -> Forall (fun n => (n < x)%nat) l ->
  strictlyIncreasing (l ++ [x]).
Proof.
  intros Hl Hx i j a b Hij Hi Hj.
  assert (Hjl : (j < length (l ++ [x]))%nat) by (apply lookup_lt_is_Some; eauto).
  rewrite length_app in Hjl. cbn in Hjl.
  rewrite lookup_app_l in Hi by lia.
  destruct (decide (j < length l)%nat) as [Hlt|Hge].
  - rewrite lookup_app_l in Hj by lia. eauto.
  - rewrite lookup_app_r in Hj by lia.
    replace (j - length l)%nat with 0%nat in Hj by lia. cbn in Hj. injection Hj as <-.
    rewrite Forall_forall in Hx. apply Hx.
    eapply list_elem_of_lookup_2. exact Hi.
Qed.

Lemma seqsTo_app ws l1 l2 : seqsTo ws (l1 ++ l2) = seqsTo ws l1 ++ seqsTo ws l2.
Proof. apply omap_app. Qed.

Lemma seqsTo_plain ws w : plainFrame w = true -> seqsTo ws [w] = [].
Proof.
  destruct w as [c f|]; [|reflexivity]. destruct f; try reflexivity.
  destruct seq; [reflexivity | discriminate].
Qed.

Lemma seqsTo_broadcast_absent ws n b cl :
  ~ In ws cl -> seqsTo ws (map (fun c => Send c (Event (S n) b)) cl) = [].
Proof.
  induction cl as [|c cl IH]; intros Hin; [reflexivity|].
  cbn. destruct (Nat.eqb_spec c ws) as [->|Hne].
  - exfalso. apply Hin. now left.
  - apply IH. intros H. apply Hin. now right.
Qed.

Lemma seqsTo_broadcast ws n b cl :
  NoDup cl ->
  seqsTo ws (map (fun c => Send c (Event (S n) b)) cl)
  = if existsb (Nat.eqb ws) cl then [S n] else [].
Proof.
  induction cl as [|c cl IH]; intros Hnd; [reflexivity|].
  apply NoDup_cons in Hnd as [Hc Hnd]. rewrite list_elem_of_In in Hc. cbn.
  rewrite (Nat.eqb_sym ws c). destruct (Nat.eqb_spec c ws) as [->|Hne].
  - cbn. fold (seqsTo ws (map (fun c => Send c (Event (S n) b)) cl)).
    now rewrite seqsTo_broadcast_absent.
  - cbn. fold (seqsTo ws (map (fun c => Send c (Event (S n) b)) cl)). now apply IH.
Qed.

Ltac prim_cases H :=
  destruct H as [E|w Hw E|b E|k0 e He E|k0 E|k0 m E|k0 r0 r1 Hr0 Hs0 E
                |k0 r0 r1 Hr0 Hs0 E|c Hc E|c E|f Hf E];
  apply core_eq in E as (Ew & Eg & Ec & Eh & Er & En & Ecfg).

Lemma Prim_histOK s s' : Prim s s' -> histOK s -> histOK s'.
Proof.
  intros HP Hs k h. prim_cases HP; rewrite Eh; try apply Hs.
  - change (chatHistory (with_chatHistory ?v _)) with v.
    destruct (decide (k0 = k)) as [->|Hne].
    + rewrite lookup_insert_eq. intros [= <-]. apply Forall_app. split.
      * unfold getChatHistory. destruct (chatHistory s !! k) as [h0|] eqn:Hk; cbn.
        -- now apply (Hs k).
        -- constructor.
      * repeat constructor. exact He.
    + rewrite lookup_insert_ne by exact Hne. apply Hs.
  - change (chatHistory (with_chatHistory ?v _)) with v.
    intros Hd. apply lookup_delete_Some in Hd as [_ Hd]. now apply (Hs k).
Qed.

Lemma runsOK_same s s' :
  runs s' = runs s -> runCounter s' = runCounter s -> runsOK s ->
  runsOK s' /\
  forall k r, runs s !! k = Some r -> exists r', runs s' !! k = Some r' /\ sameRun r r'.
Proof.
  intros Er En Hs. split.
  - intros k. unfold runIds. rewrite Er, En. apply Hs.
  - intros k r Hr. exists r. rewrite Er. split; [exact Hr | apply sameRun_refl].
Qed.

Lemma runsOK_update s s' k r r' :
  runs s !! k = Some r -> sameRun r r' ->
  runs s' = <[k := r']> (runs s) -> runCounter s' = runCounter s -> runsOK s ->
  runsOK s' /\
  forall k r, runs s !! k = Some r -> exists r', runs s' !! k = Some r' /\ sameRun r r'.
Proof.
  intros Hr Hsame Er En Hs. split.
  - intros k'. unfold runIds. rewrite Er, En. fold (runIds s).
    destruct (decide (k = k')) as [<-|Hne].
    + rewrite lookup_insert_eq. split.
      * split; [intros _; apply Hs; eauto | eauto].
      * intros r2 [= <-]. destruct Hsame as (-> & _). now apply Hs.
    + rewrite lookup_insert_ne by exact Hne. apply Hs.
  - intros k' r2 Hr2. rewrite Er. destruct (decide (k = k')) as [<-|Hne].
    + rewrite lookup_insert_eq. exists r'. split; [reflexivity|]. congruence.
    + rewrite lookup_insert_ne by exact Hne. exists r2. split; [exact Hr2 | apply sameRun_refl].
Qed.

Lemma runIds_succ s s' :
  runCounter s' = S (runCounter s) ->
  forall k, In k (runIds s') <-> In k (runIds s) \/ k = runName (S (runCounter s)).
Proof.
  intros En k. rewrite !in_runIds, En. split.
  - intros (n & Hn & ->). destruct (decide (n = S (runCounter s))) as [->|Hne].
    + now right.
    + left. exists n. split; [lia | reflexivity].
  - intros [(n & Hn & ->)| ->].
    + exists n. split; [lia | reflexivity].
    + exists (S (runCounter s)). split; [lia | reflexivity].
Qed.

Lemma runName_fresh s : runsOK s -> runs s !! runName (S (runCounter s)) = None.
Proof.
  intros Hs. destruct (runs s !! runName (S (runCounter s))) as [r|] eqn:Hr; [|reflexivity].
  assert (Hin : In (runName (S (runCounter s))) (runIds s)) by (apply Hs; eauto).
  apply in_runIds in Hin as (n & Hn & E). apply runName_inj in E. lia.
Qed.

Lemma Prim_runsOK s s' :
  Prim s s' -> runsOK s ->
  runsOK s' /\
  forall k r, runs s !! k = Some r -> exists r', runs s' !! k = Some r' /\ sameRun r r'.
Proof.
  intros HP Hs. prim_cases HP;
    try (now apply runsOK_same).
  - (* createRun *)
    change (runs (fst (createRun k0 m s)))
      with (<[runName (S (runCounter s)) :=
                Run.mk (runName (S (runCounter s))) k0 m 0 Running "" "" false []]> (runs s))
      in Er.
    change (runCounter (fst (createRun k0 m s))) with (S (runCounter s)) in En.
    pose proof (runName_fresh s Hs) as Hfresh. split.
    + intros k. rewrite (runIds_succ s s' En k), Er.
      destruct (decide (runName (S (runCounter s)) = k)) as [<-|Hne].
      * rewrite lookup_insert_eq. split; [split; eauto|]. now intros r [= <-].
      * rewrite lookup_insert_ne by exact Hne. split; [|apply Hs].
        split; [intros H; left; now apply Hs|].
        intros [H|H]; [now apply Hs | congruence].
    + intros k r Hr. exists r. split; [|apply sameRun_refl]. rewrite Er.
      rewrite lookup_insert_ne; [exact Hr|]. congruence.
  - now apply (runsOK_update s s' k0 r0 r1).
  - assert (Hk : Run.runId r0 = k0) by now apply Hs.
    change (runs (with_runs ?v _)) with v in Er. rewrite Hk in Er.
    now apply (runsOK_update s s' k0 r0 r1).
  - (* every run is rewritten in place *)
    change (runs (with_runs ?v _)) with v in Er.
    change (runCounter (with_runs _ ?x)) with (runCounter x) in En. split.
    + intros k. unfold runIds. rewrite Er, En. fold (runIds s). rewrite lookup_fmap.
      destruct (Hs k) as [H1 H2]. split.
      * rewrite <- H1. apply fmap_is_Some.
      * intros r Hr. destruct (runs s !! k) as [r0|] eqn:E0; [|discriminate].
        cbn in Hr. injection Hr as <-. destruct (Hf r0) as (-> & _). now apply H2.
    + intros k r Hr. exists (f r). rewrite Er, lookup_fmap, Hr.
      split; [reflexivity | apply Hf].
Qed.

Lemma NoDup_List_filter (f : nat -> bool) l : NoDup l -> NoDup (List.filter f l).
Proof.
  induction l as [|x l IH]; intros Hnd; [constructor|].
  apply NoDup_cons in Hnd as [Hx Hnd]. cbn. destruct (f x); [|now apply IH].
  apply NoDup_cons. split; [|now apply IH].
  rewrite list_elem_of_In, filter_In. intros [H _]. apply Hx. now apply list_elem_of_In.
Qed.

Lemma seqOK_same s s' :
  wire s' = wire s -> globalSeq s' = globalSeq s -> clients s' = clients s ->
  seqOK s -> seqOK s'.
Proof. unfold seqOK. now intros -> -> ->. Qed.

Lemma Prim_seqOK s s' : Prim s s' -> seqOK s -> seqOK s'.
Proof.
  intros HP Hs. prim_cases HP; try (now apply (seqOK_same s s')).
  - (* a frame that is no broadcast *)
    destruct Hs as [Hnd Hs]. split; [now rewrite Ec|]. intros ws.
    rewrite Ew, Eg. change (wire (with_wire ?v _)) with v.
    rewrite seqsTo_app, seqsTo_plain, app_nil_r by exact Hw. apply Hs.
  - (* broadcast *)
    destruct Hs as [Hnd Hs]. split; [now rewrite Ec|]. intros ws.
    rewrite Ew, Eg.
    change (wire (broadcast b s))
      with (wire s ++ map (fun c => Send c (Event (S (globalSeq s)) b)) (clients s)).
    change (globalSeq (broadcast b s)) with (S (globalSeq s)).
    rewrite seqsTo_app, seqsTo_broadcast by exact Hnd.
    destruct (Hs ws) as [Hinc Hle].
    destruct (existsb (Nat.eqb ws) (clients s)).
    + split.
      * apply strictlyIncreasing_snoc; [exact Hinc|].
        eapply Forall_impl; [exact Hle|]. cbn. intros; lia.
      * apply Forall_app. split; [|repeat constructor].
        eapply Forall_impl; [exact Hle|]. cbn. intros; lia.
    + rewrite app_nil_r. split; [exact Hinc|].
      eapply Forall_impl; [exact Hle|]. cbn. intros; lia.
  - (* a client is registered *)
    destruct Hs as [Hnd Hs]. split; [|intros ws; rewrite Ew, Eg; apply Hs].
    rewrite Ec. change (clients (with_clients ?v _)) with v.
    apply NoDup_app. split; [exact Hnd|]. split; [|apply NoDup_singleton].
    intros x Hx Hx'. apply list_elem_of_singleton in Hx'. subst x.
    apply Hc. now apply list_elem_of_In.
  - (* a client leaves *)
    destruct Hs as [Hnd Hs]. split; [|intros ws; rewrite Ew, Eg; apply Hs].
    rewrite Ec. change (clients (with_clients ?v _)) with v.
    now apply NoDup_List_filter.
Qed.

Lemma Prim_config s s' : Prim s s' -> config s' = config s.
Proof. intros HP. prim_cases HP; exact Ecfg. Qed.

Lemma Steps_config s s' : Steps s s' -> config s' = config s.
Proof.
  intros H. revert s' H. apply (rtc_ind_r (fun z => config z = config s) s); [reflexivity|].
  intros y z _ Hyz Hy. now rewrite (Prim_config y z Hyz).
Qed.

Lemma Steps_histOK s s' : Steps s s' -> histOK s -> histOK s'.
Proof.
  intros H Hs. revert s' H. apply (rtc_ind_r (fun z => histOK z) s); [exact Hs|].
  intros y z _ Hyz Hy. eapply Prim_histOK; eauto.
Qed.

Lemma Steps_seqOK s s' : Steps s s' -> seqOK s -> seqOK s'.
Proof.
  intros H Hs. revert s' H. apply (rtc_ind_r (fun z => seqOK z) s); [exact Hs|].
  intros y z _ Hyz Hy. eapply Prim_seqOK; eauto.
Qed.

Lemma Steps_runsOK s s' :
  Steps s s' -> runsOK s ->
  runsOK s' /\
  forall k r, runs s !! k = Some r -> exists r', runs s' !! k = Some r' /\ sameRun r r'.
Proof.
  intros H Hs. revert s' H.
  apply (rtc_ind_r
           (fun z => runsOK z /\
                     forall k r, runs s !! k = Some r ->
                                 exists r', runs z !! k = Some r' /\ sameRun r r') s).
  - split; [exact Hs|]. intros k r Hr. exists r. split; [exact Hr | apply sameRun_refl].
  - intros y z _ Hyz [Hy Hp]. destruct (Prim_runsOK y z Hyz Hy) as [Hz Hq].
    split; [exact Hz|]. intros k r Hr.
    destruct (Hp k r Hr) as (r1 & Hr1 & S1). destruct (Hq k r1 Hr1) as (r2 & Hr2 & S2).
    exists r2. split; [exact Hr2 | eapply sameRun_trans; eauto].
Qed.

Lemma histOK_new cfg external : histOK (newServer cfg external).
Proof. intros k h H. cbn in H. now rewrite lookup_empty in H. Qed.

Lemma runsOK_new cfg external : runsOK (newServer cfg external).
Proof.
  intros k. cbn. rewrite lookup_empty. split.
  - split; [intros [? ?]; discriminate | intros []].
  - discriminate.
Qed.

Lemma seqOK_new cfg external : seqOK (newServer cfg external).
Proof.
  split; [constructor|]. intros ws. cbn. split; [|constructor].
  intros i j a b _ H. now rewrite lookup_nil in H.
Qed.

(** ** The adapters' view of a history *)

(** [entry.content.filter((p) => p.type === "text" && p.text)
       .map((p) => p.text!).join("\n")] *)
Definition isTextWithContent (p : ContentPart) : bool :=
  match p with
  | TextPart text => JS.truthy (Some text)
  | _ => false
  end.

Definition partText (p : ContentPart) : string :=
  match p with
  | TextPart text => text
  | _ => ""
  end.

Definition entryText (e : HistoryEntry) : string :=
  String.concat nl (map partText (List.filter isTextWithContent (content e))).

Record OllamaMessage := mkOllamaMessage {
  ollamaRole : string;
  ollamaContent : string;
}.

(** [historyToOllamaMessages] of [src/ollama.ts] *)
Definition historyToOllamaMessages (history : list HistoryEntry) : list OllamaMessage :=
  fold_left
    (fun messages entry =>
       match role entry with
       | RUser =>
           let text := entryText entry in
           if JS.truthy (Some text) then messages ++ [mkOllamaMessage "user" text]
           else messages
       | RAssistant =>
           let text := entryText entry in
           if JS.truthy (Some text) then messages ++ [mkOllamaMessage "assistant" text]
           else messages
       end)
    history [].

Record OpenAIMessage := mkOpenAIMessage {
  openaiRole : string;
  openaiContent : string;
}.

(** [historyToOpenAIMessages] of the OpenAI-compatible adapter *)
Definition historyToOpenAIMessages (history : list HistoryEntry) : list OpenAIMessage :=
  fold_left
    (fun messages entry =>
       if optEq (stopReason entry) "greeting" || optEq (stopReason entry) "slash"
       then messages
       else
         match role entry with
         | RUser =>
             let text := entryText entry in
             if JS.truthy (Some text) then messages ++ [mkOpenAIMessage "user" text]
             else messages
         | RAssistant =>
             let text := entryText entry in
             if JS.truthy (Some text) then messages ++ [mkOpenAIMessage "assistant" text]
             else messages
         end)
    history [].

Record GeminiContent := mkGeminiContent {
  geminiRole : string;
  geminiParts : list string;
}.

(** [historyToGeminiContents] of [src/gemini.ts] *)
Definition historyToGeminiContents (history : list HistoryEntry) : list GeminiContent :=
  fold_left
    (fun contents entry =>
       if optEq (stopReason entry) "greeting" then contents
       else
         let role := match role entry with RAssistant => "model" | RUser => "user" end in
         let text := entryText entry in
         if JS.truthy (Some text) then contents ++ [mkGeminiContent role [text]]
         else contents)
    history [].

(** What an adapter sends for one entry when it does not skip it. *)
Definition roleName (r : Role) : string :=
  match r with RUser => "user" | RAssistant => "assistant" end.

Definition spoken (e : HistoryEntry) : option (string * string) :=
  if JS.truthy (Some (entryText e)) then Some (roleName (role e), entryText e) else None.

Definition geminiOf (m : string * string) : GeminiContent :=
  mkGeminiContent (if String.eqb (fst m) "assistant" then "model" else "user") [snd m].

Lemma omap_cons {A B} (f : A -> option B) a l :
  omap f (a :: l) = match f a with Some b => b :: omap f l | None => omap f l end.
Proof. reflexivity. Qed.

Lemma fold_left_push {A B} (f : A -> option B) (g : list B -> A -> list B) l :
  Forall (fun a => forall acc,
            g acc a = acc ++ match f a with Some b => [b] | None => [] end) l ->
  forall acc, fold_left g l acc = acc ++ omap f l.
Proof.
  intros Hg. induction Hg as [|a l Ha Hl IH]; intros acc; cbn [fold_left].
  - cbn. now rewrite app_nil_r.
  - rewrite IH, Ha, omap_cons. destruct (f a); cbn; now rewrite <- app_assoc.
Qed.

Lemma historyToOllamaMessages_spec h :
  historyToOllamaMessages h
  = omap (fun e => option_map (fun m => mkOllamaMessage (fst m) (snd m)) (spoken e)) h.
Proof.
  unfold historyToOllamaMessages.
  rewrite (fold_left_push
             (fun e => option_map (fun m => mkOllamaMessage (fst m) (snd m)) (spoken e)));
    [reflexivity|].
  apply Forall_forall. intros e _ acc. unfold spoken. cbv zeta.
  destruct (role e), (JS.truthy (Some (entryText e))); cbn; now rewrite ?app_nil_r.
Qed.

Lemma okEntry_not_skipped e :
  okEntry e = true ->
  optEq (stopReason e) "greeting" = false /\ optEq (stopReason e) "slash" = false.
Proof.
  unfold okEntry. destruct (role e), (stopReason e) as [r|]; try discriminate; cbn.
  - split; reflexivity.
  - intros H. apply orb_true_iff in H as [H|H]; apply String.eqb_eq in H; subst r;
      split; reflexivity.
Qed.

Lemma historyToOpenAIMessages_ok h :
  Forall (fun e => okEntry e = true) h ->
  historyToOpenAIMessages h
  = omap (fun e => option_map (fun m => mkOpenAIMessage (fst m) (snd m)) (spoken e)) h.
Proof.
  intros Hh. unfold historyToOpenAIMessages.
  rewrite (fold_left_push
             (fun e => option_map (fun m => mkOpenAIMessage (fst m) (snd m)) (spoken e)));
    [reflexivity|].
  eapply Forall_impl; [exact Hh|]. cbn beta. intros e He acc.
  destruct (okEntry_not_skipped e He) as [-> ->]. cbn [orb].
  unfold spoken. cbv zeta.
  destruct (role e), (JS.truthy (Some (entryText e))); cbn; now rewrite ?app_nil_r.
Qed.

Lemma historyToGeminiContents_ok h :
  Forall (fun e => okEntry e = true) h ->
  historyToGeminiContents h = omap (fun e => option_map geminiOf (spoken e)) h.
Proof.
  intros Hh. unfold historyToGeminiContents.
  rewrite (fold_left_push (fun e => option_map geminiOf (spoken e))); [reflexivity|].
  eapply Forall_impl; [exact Hh|]. cbn beta. intros e He acc.
  destruct (okEntry_not_skipped e He) as [-> _].
  unfold spoken. cbv zeta.
  destruct (role e), (JS.truthy (Some (entryText e))); cbn; now rewrite ?app_nil_r.
Qed.

Section EveryExecution.

Variable demo : string -> list ContentPart.
Variable cfg : ResolvedConfig.
Variable external : bool.

Lemma histOK_exec inputs : histOK (exec demo (newServer cfg external) inputs).
Proof. eapply Steps_histOK; [apply st_exec | apply histOK_new]. Qed.

Lemma seqOK_exec inputs : seqOK (exec demo (newServer cfg external) inputs).
Proof. eapply Steps_seqOK; [apply st_exec | apply seqOK_new]. Qed.

Lemma runsOK_exec inputs : runsOK (exec demo (newServer cfg external) inputs).
Proof. eapply Steps_runsOK; [apply st_exec | apply runsOK_new]. Qed.

Lemma getChatHistory_ok s k : histOK s -> Forall (fun e => okEntry e = true) (getChatHistory s k).
Proof.
  intros Hs. unfold getChatHistory. destruct (chatHistory s !! k) as [h|] eqn:Hk; cbn.
  - now apply (Hs k).
  - constructor.
Qed.

(** X13: whatever the clients, the timers and the adapter do, every entry
    the server stores is a user entry without a stop reason or an assistant
    entry whose stop reason is "stop" or "end_turn": no other stop reason
    (such as "greeting" or "slash") is ever written. *)
Theorem stored_entries_carry_stop_or_end_turn (inputs : list (Z * Input)) (k : string) :
  Forall
    (fun e =>
       match role e with
       | RUser => stopReason e = None
       | RAssistant => stopReason e = Some "stop" \/ stopReason e = Some "end_turn"
       end)
    (getChatHistory (exec demo (newServer cfg external) inputs) k).
Proof.
  eapply Forall_impl; [apply getChatHistory_ok, histOK_exec|].
  cbn beta. intros e. unfold okEntry. destruct (role e), (stopReason e) as [r|];
    try discriminate; [reflexivity|].
  intros H. apply orb_true_iff in H as [H|H]; apply String.eqb_eq in H; subst r; auto.
Qed.

(** X14: on a history of the server, the three adapters build their
    messages from the same entries: every entry whose text parts are not
    empty, in order, none left out for its stop reason; the filters on
    "greeting" and "slash" of the OpenAI-compatible and Gemini adapters
    never apply, so greetings and slash-command replies are part of the
    prompt. *)
Theorem adapters_send_every_stored_entry (inputs : list (Z * Input)) (k : string) :
  let h := getChatHistory (exec demo (newServer cfg external) inputs) k in
  historyToOllamaMessages h
  = omap (fun e => option_map (fun m => mkOllamaMessage (fst m) (snd m)) (spoken e)) h
  /\ historyToOpenAIMessages h
     = omap (fun e => option_map (fun m => mkOpenAIMessage (fst m) (snd m)) (spoken e)) h
  /\ historyToGeminiContents h = omap (fun e => option_map geminiOf (spoken e)) h.
Proof.
  intros h. pose proof (getChatHistory_ok _ k (histOK_exec inputs)) as Hh.
  split; [apply historyToOllamaMessages_spec|].
  split; [now apply historyToOpenAIMessages_ok | now apply historyToGeminiContents_ok].
Qed.

(** X15: the run table of a reachable state holds exactly the runs
    [createRun] made, "run_" followed by 1, 2, ... up to the run counter in
    base 36, each stored under its own id; no run is ever removed, and the
    id [createRun] takes next is not in the table. *)
Theorem run_table_holds_every_created_run (inputs : list (Z * Input)) :
  let s := exec demo (newServer cfg external) inputs in
  (forall k, is_Some (runs s !! k)
             <-> exists n, (1 <= n <= runCounter s)%nat
                           /\ k = "run_" +:+ JS.toString36 n)
  /\ (forall k r, runs s !! k = Some r -> Run.runId r = k)
  /\ (forall n m, JS.toString36 n = JS.toString36 m -> n = m)
  /\ forall sessionKey message, runs s !! snd (createRun sessionKey message s) = None.
Proof.
  intros s. pose proof (runsOK_exec inputs) as Hs. fold s in Hs.
  split; [|split; [|split]].
  - intros k. rewrite <- in_runIds. apply Hs.
  - intros k. apply Hs.
  - intros n m E. rewrite <- (parseInt36_toString36 n), <- (parseInt36_toString36 m).
    now rewrite E.
  - intros sk m. now apply runName_fresh.
Qed.

(** X16: a run, once in the table, stays there under the same id with the
    same session and message; its sequence number never decreases, and a
    run that has stopped running is never running again. *)
Theorem run_is_never_replaced
    (inputs more : list (Z * Input)) (k : string) (r : Run.t)
    (Hrun : runs (exec demo (newServer cfg external) inputs) !! k = Some r) :
  exists r',
    runs (exec demo (exec demo (newServer cfg external) inputs) more) !! k = Some r'
    /\ Run.runId r' = Run.runId r
    /\ Run.sessionKey r' = Run.sessionKey r
    /\ Run.message r' = Run.message r
    /\ (Run.seq r <= Run.seq r')%nat
    /\ (Run.state r' = Running -> Run.state r = Running).
Proof.
  destruct (Steps_runsOK _ _ (st_exec demo (exec demo (newServer cfg external) inputs) more)
              (runsOK_exec inputs)) as [_ Hp].
  destruct (Hp k r Hrun) as (r' & Hr' & Hsame). exists r'. split; [exact Hr' | exact Hsame].
Qed.

(** X17: whatever the inputs (frames, timers, the tick and health
    intervals, [stop], adapter calls), no connection is registered twice as
    a client, and the broadcast events a connection receives carry strictly
    increasing sequence numbers, none above the server's counter. *)
Theorem broadcast_seq_strictly_increasing (inputs : list (Z * Input)) (ws : nat) :
  let s := exec demo (newServer cfg external) inputs in
  NoDup (clients s)
  /\ (forall i j a b,
        (i < j)%nat ->
        seqsTo ws (wire s) !! i = Some a -> seqsTo ws (wire s) !! j = Some b ->
        (a < b)%nat)
  /\ Forall (fun n => (1 <= n <= globalSeq s)%nat) (seqsTo ws (wire s)).
Proof.
  intros s. destruct (seqOK_exec inputs) as [Hnd Hs]. fold s in Hnd, Hs.
  destruct (Hs ws) as [Hinc Hle]. split; [exact Hnd|]. split; [exact Hinc|].
  apply Forall_forall. intros n Hn. split.
  - unfold seqsTo in Hn. apply list_elem_of_omap in Hn as (w & _ & Hw).
    destruct w as [c f|]; [|discriminate]. destruct f; try discriminate.
    destruct seq; [discriminate|]. cbn in Hw. destruct (Nat.eqb c ws); [|discriminate].
    injection Hw as <-. lia.
  - rewrite Forall_forall in Hle. now apply Hle.
Qed.

End EveryExecution.

(** ** Instances *)

(** After the handshake of [Scenario.handshake], a tick, a health refresh
    and the shutdown reach the client as the broadcasts 2, 3 and 4; the
    shutdown aborts the run in progress. *)
Example tick_health_and_shutdown_are_numbered :
  let s := exec Scenario.noTools Scenario.connected
             [(5, Tick); (6, HealthRefresh); (7, Stop)] in
  skipn 4 (wire s)
  = [Send 1 (Event 2 (TickEvent 5)); Send 1 (Event 3 (HealthEvent 1 1));
     Send 1 (Event 4 (ShutdownEvent "server_stop"))]
  /\ seqsTo 1 (wire s) = [1; 2; 3; 4]%nat
  /\ option_map Run.state (runs (exec Scenario.noTools waiting [(5, Stop)]) !! "run_1")
     = Some Aborted.
Proof. vm_compute. repeat split. Qed.

Lemma finish_run_completed_witness :
  getChatHistory
    (finishRun Scenario.noTools 9 "run_1" FinCompleted None (Some [TextPart "done"]) waiting)
    "default"
  = getChatHistory waiting "default"
    ++ [mkHistoryEntry RAssistant [TextPart "done"] 9 (Some "end_turn") None None].
Proof.
  pose proof (finish_run_completed Scenario.noTools waiting 9 "run_1"
                (Run.mk "run_1" "default" "hello" 0 Running "" "" false
                   [SocketWaiter 1 "r2" 2])
                None (Some [TextPart "done"]) eq_refl) as H.
  cbn zeta in H. destruct H as (_ & Hhist & _). exact Hhist.
Defined.

(** The client of [Scenario.handshake] has started a run. *)
Definition runStarted : list (Z * Input) :=
  Scenario.handshake
  ++ [(2, Message 1 (Scenario.request "r1" "agent" (Scenario.sendParams None "hello" "k1")))].

Lemma run_is_never_replaced_witness :
  exists r',
    runs (exec Scenario.noTools
            (exec Scenario.noTools (newServer defaultConfig true) runStarted)
            [(5, FinishRun "run_1" FinCompleted None (Some [TextPart "done"]));
             (6, Message 1 (Scenario.request "r3" "agent"
                              (Scenario.sendParams None "again" "k2")))])
      !! "run_1" = Some r'
    /\ Run.runId r' = "run_1".
Proof.
  destruct (run_is_never_replaced Scenario.noTools defaultConfig true runStarted
              [(5, FinishRun "run_1" FinCompleted None (Some [TextPart "done"]));
               (6, Message 1 (Scenario.request "r3" "agent"
                                (Scenario.sendParams None "again" "k2")))]
              "run_1" (Run.mk "run_1" "default" "hello" 0 Running "" "" false [])
              eq_refl) as (r' & Hr' & Hid & _).
  exists r'. split; [exact Hr' | exact Hid].
Defined.

(** The greeting a session is opened with is stored with the stop reason
    "end_turn", and so reaches the model of every adapter. *)
Example greeting_is_sent_to_the_model :
  let cfg := mkConfig "" "" "v" DEFAULT_MAX_PAYLOAD DEFAULT_DEDUPE_MAX
               DEFAULT_DEDUPE_TTL_MS (Some "Welcome!") None in
  let s := exec Scenario.noTools (newServer cfg true)
             (Scenario.handshake
              ++ [(2, Message 1 (Scenario.request "h" "chat.history"
                                   (Scenario.historyParams "main" None)))]) in
  historyToOpenAIMessages (getChatHistory s "main")
  = [mkOpenAIMessage "assistant" "Welcome!"]
  /\ historyToGeminiContents (getChatHistory s "main")
     = [mkGeminiContent "model" ["Welcome!"]].
Proof. vm_compute. split; reflexivity. Qed.

(** ** Model references *)

(** [s.indexOf(c)], [None] for -1 *)
Fixpoint indexOf (c : ascii) (s : string) : option nat :=
  match s with
  | EmptyString => None
  | String a r => if Ascii.eqb a c then Some 0%nat else option_map S (indexOf c r)
  end.

Record ModelRef := mkModelRef {
  providerName : string;
  modelId : string;
}.

(** [parseModelRef] of [src/config.ts] *)
Definition parseModelRef (ref : string) : ModelRef :=
  match indexOf "/" ref with
  | None => mkModelRef ref ""
  | Some slash => mkModelRef (JS.sliceTo slash ref) (JS.sliceFrom (S slash) ref)
  end.

Lemma indexOf_append_slash p m :
  indexOf "/" p = None -> indexOf "/" (p +:+ String "/" m) = Some (String.length p).
Proof.
  induction p as [|a p IH]; simpl; [reflexivity|].
  destruct (Ascii.eqb a "/"); [discriminate|].
  destruct (indexOf "/" p); [discriminate|]. intros _. now rewrite IH.
Qed.

Lemma sliceTo_append p r : JS.sliceTo (String.length p) (p +:+ r) = p.
Proof.
  unfold JS.sliceTo. induction p as [|a p IH]; simpl.
  - now destruct r.
  - now rewrite IH.
Qed.

Lemma sliceFrom_append p r : JS.sliceFrom (String.length p) (p +:+ r) = r.
Proof.
  induction p as [|a p IH]; simpl; [reflexivity | exact IH].
Qed.

Lemma indexOf_split c s n :
  indexOf c s = Some n ->
  s = JS.sliceTo n s +:+ String c (JS.sliceFrom (S n) s)
  /\ indexOf c (JS.sliceTo n s) = None.
Proof.
  unfold JS.sliceTo. revert n. induction s as [|a s IH]; intros n Hn; [discriminate|].
  change (indexOf c (String a s))
    with (if Ascii.eqb a c then Some 0%nat else option_map S (indexOf c s)) in Hn.
  destruct (Ascii.eqb_spec a c) as [->|Hne].
  - injection Hn as <-. split; [reflexivity|]. now destruct s.
  - destruct (indexOf c s) as [m|] eqn:Hm; [|discriminate]. injection Hn as <-.
    destruct (IH m eq_refl) as [E1 E2].
    change (JS.sliceFrom (S (S m)) (String a s)) with (JS.sliceFrom (S m) s).
    change (substring 0 (S m) (String a s)) with (String a (substring 0 m s)).
    split.
    + change (String a s
              = String a (substring 0 m s +:+ String c (JS.sliceFrom (S m) s))).
      f_equal. exact E1.
    + change (indexOf c (String a (substring 0 m s)))
        with (if Ascii.eqb a c then Some 0%nat
              else option_map S (indexOf c (substring 0 m s))).
      destruct (Ascii.eqb_spec a c); [contradiction|]. now rewrite E2.
Qed.

(** X18: [parseModelRef] splits a reference at its first "/": the provider
    name holds no "/", provider, "/" and model id put together give the
    reference back, a reference without "/" is a provider with an empty
    model id, and "provider/model" is parsed into its two parts whatever
    the model id holds. *)
Theorem parse_model_ref_splits_at_first_slash (ref : string) :
  let r := parseModelRef ref in
  indexOf "/" (providerName r) = None
  /\ match indexOf "/" ref with
     | Some _ => ref = providerName r +:+ "/" +:+ modelId r
     | None => providerName r = ref /\ modelId r = ""
     end
  /\ forall provider model,
       indexOf "/" provider = None ->
       parseModelRef (provider +:+ "/" +:+ model) = mkModelRef provider model.
Proof.
  cbv zeta. unfold parseModelRef. split; [|split].
  - destruct (indexOf "/" ref) as [n|] eqn:Hn; cbn [providerName]; [|exact Hn].
    now apply indexOf_split in Hn.
  - destruct (indexOf "/" ref) as [n|] eqn:Hn; cbn [providerName modelId]; [|now split].
    now apply indexOf_split in Hn.
  - intros p m Hp. change ("/" +:+ m) with (String "/" m).
    rewrite (indexOf_append_slash p m Hp), sliceTo_append. f_equal.
    clear. induction p as [|a p IH]; [reflexivity | exact IH].
Qed.

(* ===================================================================== *)
(** * One response for each frame *)
(* ===================================================================== *)

Definition frameId (f : Frame) : option string :=
  match f with
  | ResOk id _ | ResErr id _ _ => Some id
  | _ => None
  end.

(** Between [s] and [x] no response frame was sent. *)
Definition silent (s x : Server) : Prop := responses (wire x) = responses (wire s).

(** Between [s] and [x] one response frame was sent, to [ws] and with the
    id [id]. *)
Definition answered (ws : nat) (id : string) (s x : Server) : Prop :=
  exists r, responses (wire x) = responses (wire s) ++ [Send ws r] /\ frameId r = Some id.

Definition waitersOf (rid : string) (s : Server) : list Waiter :=
  match runs s !! rid with
  | Some r => Run.waitResolvers r
  | None => []
  end.

Lemma sl_refl s : silent s s.
Proof. reflexivity. Qed.

Lemma sl_same s x y : wire y = wire x -> silent s x -> silent s y.
Proof. unfold silent. now intros ->. Qed.

Lemma sl_frame s x w :
  responses [w] = [] -> silent s x -> silent s (with_wire (wire x ++ [w]) x).
Proof.
  unfold silent. intros Hw H. cbn [wire with_wire].
  now rewrite responses_app, Hw, app_nil_r.
Qed.

Lemma sl_close s x ws c r : silent s x -> silent s (close ws c r x).
Proof. now apply sl_frame. Qed.

Lemma sl_event s x ws n b : silent s x -> silent s (send ws (Event n b) x).
Proof. now apply sl_frame. Qed.

Lemma sl_hello s x ws c : silent s x -> silent s (send ws (Hello c) x).
Proof. now apply sl_frame. Qed.

Lemma sl_broadcast s x b : silent s x -> silent s (broadcast b x).
Proof. unfold silent. now rewrite responses_broadcast. Qed.

Lemma sl_ensureSessionMeta s x now k : silent s x -> silent s (ensureSessionMeta now k x).
Proof. apply sl_same, wire_ensureSessionMeta. Qed.

Lemma sl_appendHistory s x now k e : silent s x -> silent s (appendHistory now k e x).
Proof. apply sl_same, wire_appendHistory. Qed.

Lemma sl_emitAgentEvent s x rid stream data :
  silent s x -> silent s (emitAgentEvent rid stream data x).
Proof. unfold silent. now rewrite responses_emitAgentEvent. Qed.

Lemma sl_emitChatEvent s x rid st text :
  silent s x -> silent s (emitChatEvent rid st text x).
Proof. unfold silent. now rewrite responses_emitChatEvent. Qed.

Lemma sl_clearHandshakeTimeout s x ws : silent s x -> silent s (clearHandshakeTimeout ws x).
Proof. apply sl_same, wire_clearHandshakeTimeout. Qed.

Lemma an_sendResponse s x ws id p : silent s x -> answered ws id s (sendResponse ws id p x).
Proof.
  unfold silent. intros H. exists (ResOk id p). split; [|reflexivity].
  unfold sendResponse, send. cbn [wire with_wire]. now rewrite responses_app, H.
Qed.

Lemma an_sendError s x ws id c m : silent s x -> answered ws id s (sendError ws id c m x).
Proof.
  unfold silent. intros H. exists (ResErr id c m). split; [|reflexivity].
  unfold sendError, send. cbn [wire with_wire]. now rewrite responses_app, H.
Qed.

Lemma an_then ws id s x y :
  silent x y -> answered ws id s x -> answered ws id s y.
Proof. unfold silent. intros E (r & H & Hid). exists r. split; [now rewrite E | exact Hid]. Qed.

(** One layer that leaves the wire alone. *)
Ltac quiet :=
  lazymatch goal with
  | |- silent ?s (?f ?v ?x) => refine (sl_same s x _ eq_refl _)
  end.

Lemma waitersOf_same rid x y : runs y = runs x -> waitersOf rid y = waitersOf rid x.
Proof. unfold waitersOf. now intros ->. Qed.

Lemma waitersOf_emitAgentEvent rid rid' stream data x :
  waitersOf rid (emitAgentEvent rid' stream data x) = waitersOf rid x.
Proof.
  unfold emitAgentEvent. destruct (runs x !! rid') as [r|] eqn:Hr; [|reflexivity].
  unfold waitersOf, broadcast. cbn [runs with_wire with_globalSeq with_runs].
  destruct (decide (rid' = rid)) as [->|Hne].
  - now rewrite lookup_insert_eq, Hr.
  - now rewrite lookup_insert_ne.
Qed.

Lemma waitersOf_setAccumulatedText rid rid' text x :
  waitersOf rid (setAccumulatedText rid' text x) = waitersOf rid x.
Proof.
  unfold waitersOf, setAccumulatedText. cbn [runs with_runs].
  destruct (decide (rid' = rid)) as [->|Hne].
  - rewrite lookup_alter_eq. now destruct (runs x !! rid).
  - now rewrite lookup_alter_ne.
Qed.

Section Answers.

Variable demo : string -> list ContentPart.

Lemma sl_finishRun s x now rid st err parts :
  waitersOf rid x = [] -> silent s x -> silent s (finishRun demo now rid st err parts x).
Proof.
  unfold silent, waitersOf. intros Hw H.
  destruct (runs x !! rid) as [run|] eqn:Hr.
  - rewrite (finishRun_responses demo now rid run st err parts x Hr), Hw. cbn.
    now rewrite app_nil_r.
  - unfold finishRun. now rewrite Hr.
Qed.

Lemma sl_executeRun s x now rid :
  waitersOf rid x = [] -> silent s x -> silent s (executeRun demo now rid x).
Proof.
  intros Hw H. unfold executeRun. destruct (runs x !! rid) as [run|] eqn:Hr; [|exact H].
  cbv zeta.
  assert (Hdemo : silent s (if onAgentRun x then x
                            else emitAgentEvent rid "lifecycle" LifecycleStart x)).
  { destruct (onAgentRun x); [exact H | now apply sl_emitAgentEvent]. }
  destruct (JS.startsWith (JS.toLowerCase (JS.trim (Run.message run))) "/"); [|exact Hdemo].
  destruct (handleSlashCommand_spec run (JS.toLowerCase (JS.trim (Run.message run))) x)
    as (x0 & result & E & _ & Hruns & _).
  pose proof (wire_handleSlashCommand run (JS.toLowerCase (JS.trim (Run.message run))) x)
    as Hwire.
  rewrite E in Hwire |- *. cbn [fst] in Hwire.
  apply sl_finishRun.
  - rewrite (waitersOf_same rid _ _ (runs_appendHistory _ _ _ _)).
    rewrite (waitersOf_same rid _ _ (runs_emitChatEvent _ _ _ _)).
    rewrite waitersOf_setAccumulatedText, waitersOf_emitAgentEvent.
    now rewrite (waitersOf_same rid _ _ Hruns).
  - apply sl_appendHistory, sl_emitChatEvent. quiet. apply sl_emitAgentEvent.
    now apply (sl_same s x).
Qed.

Lemma waitersOf_createRun k m x :
  waitersOf (snd (createRun k m x)) (fst (createRun k m x)) = [].
Proof.
  unfold waitersOf, createRun. cbv zeta. cbn [fst snd runs with_runs].
  now rewrite lookup_insert_eq.
Qed.

Lemma sl_createRun s x k m : silent s x -> silent s (fst (createRun k m x)).
Proof. now apply sl_same. Qed.

Lemma runs_createRun_then now k e w k' m x :
  waitersOf (snd (createRun k' m x))
    (with_wire w (appendHistory now k e (fst (createRun k' m x)))) = [].
Proof.
  transitivity (waitersOf (snd (createRun k' m x)) (fst (createRun k' m x)));
    [|apply waitersOf_createRun].
  unfold waitersOf. cbn [runs with_wire]. now rewrite runs_appendHistory.
Qed.

Lemma sl_isDuplicateKey s x now k : silent s x -> silent s (snd (isDuplicateKey now k x)).
Proof.
  intros H. unfold isDuplicateKey. destruct (Dedupe.isDuplicateKey _ _ _ _).
  cbn [snd]. now quiet.
Qed.

Lemma an_handleChatSend s now ws id p : answered ws id s (handleChatSend demo now ws id p s).
Proof.
  unfold handleChatSend.
  destruct (_ || _); [apply an_sendError, sl_refl|]. cbv zeta.
  pose proof (sl_isDuplicateKey s s now (JS.nullish (Params.idempotencyKey p) "") (sl_refl s))
    as H1.
  destruct (isDuplicateKey now _ s) as [dup x1]. cbn [snd] in H1.
  destruct dup; [now apply an_sendError|].
  match goal with |- context [createRun ?k ?m ?y] =>
    pose proof (sl_createRun s y k m) as H2;
    pose proof (fun e w => runs_createRun_then now k e w k m y) as H3;
    destruct (createRun k m y) as [x2 rid] end.
  cbn [fst snd] in H2, H3.
  eapply an_then.
  - apply sl_executeRun; [|apply sl_refl]. unfold send. apply H3.
  - apply an_sendResponse, sl_appendHistory, H2.
    apply sl_ensureSessionMeta. unfold recordIdempotencyKey. now quiet.
Qed.

Lemma an_handleAgent s now ws id p : answered ws id s (handleAgent demo now ws id p s).
Proof.
  unfold handleAgent.
  destruct (_ || _); [apply an_sendError, sl_refl|]. cbv zeta.
  pose proof (sl_isDuplicateKey s s now (JS.nullish (Params.idempotencyKey p) "") (sl_refl s))
    as H1.
  destruct (isDuplicateKey now _ s) as [dup x1]. cbn [snd] in H1.
  destruct dup; [now apply an_sendError|].
  match goal with |- context [createRun ?k ?m ?y] =>
    pose proof (sl_createRun s y k m) as H2;
    pose proof (waitersOf_createRun k m y) as H3;
    destruct (createRun k m y) as [x2 rid] end.
  cbn [fst snd] in H2, H3.
  eapply an_then.
  - apply sl_executeRun; [|apply sl_refl]. exact H3.
  - apply an_sendResponse, H2.
    apply sl_ensureSessionMeta. unfold recordIdempotencyKey. now quiet.
Qed.

Lemma an_handleChatAbort s ws id p : answered ws id s (handleChatAbort ws id p s).
Proof.
  unfold handleChatAbort. destruct (negb _); [apply an_sendError, sl_refl|]. cbv zeta.
  match goal with |- context [match ?t with Some _ => _ | None => _ end] =>
    destruct t as [run|] end; [|apply an_sendError, sl_refl].
  destruct (isRunning run); [|apply an_sendError, sl_refl].
  apply an_sendResponse. quiet. apply sl_refl.
Qed.

Lemma an_handleChatHistory s now ws id p : answered ws id s (handleChatHistory now ws id p s).
Proof.
  unfold handleChatHistory. destruct (negb _); [apply an_sendError, sl_refl|]. cbv zeta.
  destruct (JS.nullish (chatHistory s !! _) []); [|apply an_sendResponse, sl_refl].
  destruct (greeting _) as [text|]; [|apply an_sendResponse, sl_refl].
  destruct (JS.truthy (Some text)); [|apply an_sendResponse, sl_refl].
  eapply an_then; [apply sl_appendHistory, sl_event, sl_refl|].
  apply an_sendResponse, sl_refl.
Qed.

Lemma an_handleChatInject s now ws id p : answered ws id s (handleChatInject now ws id p s).
Proof.
  unfold handleChatInject. destruct (_ || _); [apply an_sendError, sl_refl|]. cbv zeta.
  apply an_sendResponse, sl_appendHistory, sl_refl.
Qed.

Lemma an_handleSessionsPatch s now ws id p :
  answered ws id s (handleSessionsPatch now ws id p s).
Proof.
  unfold handleSessionsPatch. destruct (negb _); [apply an_sendError, sl_refl|].
  destruct (labelTooLong _); [apply an_sendError, sl_refl|]. cbv zeta.
  apply an_sendResponse. destruct (Params.label p).
  - quiet. apply sl_ensureSessionMeta, sl_refl.
  - apply sl_ensureSessionMeta, sl_refl.
Qed.

Lemma an_handleSessionsDelete s ws id p : answered ws id s (handleSessionsDelete ws id p s).
Proof.
  unfold handleSessionsDelete. destruct (negb _); [apply an_sendError, sl_refl|]. cbv zeta.
  apply an_sendResponse. apply (sl_same s s); [reflexivity | apply sl_refl].
Qed.

Lemma an_handleSend s now ws id p : answered ws id s (handleSend now ws id p s).
Proof.
  unfold handleSend. destruct (_ || _); [apply an_sendError, sl_refl|]. cbv zeta.
  pose proof (sl_isDuplicateKey s s now (JS.nullish (Params.idempotencyKey p) "") (sl_refl s))
    as H1.
  destruct (isDuplicateKey now _ s) as [dup x1]. cbn [snd] in H1.
  destruct dup; [now apply an_sendError|].
  apply an_sendResponse. unfold recordIdempotencyKey. now quiet.
Qed.

(** [agent.wait] is the one method that may leave the request without a
    response: when the run it names is still running. *)
Definition waitDeferred (p : Params.t) (s : Server) : bool :=
  JS.truthy (Params.runId p)
  && match runs s !! JS.nullish (Params.runId p) "" with
     | Some run => isRunning run
     | None => false
     end.

Lemma an_handleAgentWait s ws id p :
  if waitDeferred p s then silent s (handleAgentWait ws id p s)
  else answered ws id s (handleAgentWait ws id p s).
Proof.
  unfold waitDeferred, handleAgentWait.
  destruct (JS.truthy (Params.runId p)); cbn [negb andb]; [|apply an_sendError, sl_refl].
  destruct (runs s !! _) as [run|]; [|apply an_sendError, sl_refl].
  destruct (isRunning run); cbn [negb]; [|apply an_sendResponse, sl_refl].
  cbv zeta. apply (sl_same s s); [reflexivity | apply sl_refl].
Qed.

Lemma an_callHandler s now h ws id p :
  h <> HAgentWait -> answered ws id s (callHandler demo now h ws id p s).
Proof.
  intros Hh. destruct h; cbn [callHandler]; try contradiction;
    first [ apply an_handleAgent | apply an_handleChatSend | apply an_handleChatAbort
          | apply an_handleChatHistory | apply an_handleChatInject
          | apply an_handleSessionsPatch | apply an_handleSessionsDelete
          | apply an_handleSend
          | apply an_sendResponse; try apply sl_refl ].
  (* sessions.reset *)
  apply (sl_same s s); [reflexivity | apply sl_refl].
Qed.

Lemma an_handleConnect s ws id params : answered ws id s (handleConnect ws id params s).
Proof.
  unfold handleConnect. cbv zeta.
  pose proof (sl_clearHandshakeTimeout s s ws (sl_refl s)) as H1.
  set (x1 := clearHandshakeTimeout ws s) in *. clearbody x1.
  destruct (_ || _);
    [eapply an_then; [apply sl_close, sl_refl | now apply an_sendError]|].
  destruct (_ || _);
    [eapply an_then; [apply sl_close, sl_refl | now apply an_sendError]|].
  match goal with |- context [if ?c then close _ _ _ _ else _] => destruct c end;
    [eapply an_then; [apply sl_close, sl_refl | now apply an_sendError]|].
  unfold broadcastPresence. eapply an_then; [apply sl_broadcast, sl_refl|].
  apply an_sendResponse. quiet. quiet.
  destruct (existsb _ _); [|quiet]; now quiet.
Qed.

Lemma lookupMethod_In name table h :
  lookupMethod name table = Some h -> In (name, h) table.
Proof.
  induction table as [|[n h'] table IH]; cbn [lookupMethod]; [discriminate|].
  destruct (String.eqb_spec n name) as [->|Hne].
  - intros [= ->]. now left.
  - intros H. right. now apply IH.
Qed.

Lemma agent_wait_is_registered_once name :
  lookupMethod name methods = Some HAgentWait <-> name = "agent.wait".
Proof.
  split; [|intros ->; reflexivity].
  intros H. apply lookupMethod_In in H. unfold methods in H. cbn [In] in H.
  repeat (destruct H as [H|H]; [try discriminate H; now injection H as <-|]).
  contradiction.
Qed.

(** The frames whose response is put off: an [agent.wait] request of an
    authenticated connection for a run that is still running. *)
Definition deferred (s : Server) (ws : nat) (raw : RawMessage) : bool :=
  negb (rawLength raw >? maxPayload (config s))
  && match parsed raw with
     | JsonValue frame =>
         optEq (ftype frame) "req"
         && JS.truthy (fid frame) && JS.truthy (fmethod frame)
         && isAuthenticated s ws
         && String.eqb (JS.nullish (fmethod frame) "") "agent.wait"
         && waitDeferred (JS.nullish (fparams frame) Params.empty) s
     | _ => false
     end.

(** The one frame that gets no answer at all: the JSON text [null], within
    the payload limit.  It parses, and reading its [type] throws outside the
    [try] of [handleMessage]. *)
Definition unanswered (s : Server) (raw : RawMessage) : bool :=
  negb (rawLength raw >? maxPayload (config s))
  && match parsed raw with
     | JsonNull => true
     | _ => false
     end.

(** The id the response to a frame carries: the request's own, "unknown"
    when the frame is too large, is not JSON, is no request or has no id. *)
Definition answerId (s : Server) (raw : RawMessage) : string :=
  if rawLength raw >? maxPayload (config s) then "unknown"
  else match parsed raw with
       | JsonValue frame =>
           if negb (optEq (ftype frame) "req") then "unknown"
           else JS.nullish (fid frame) "unknown"
       | _ => "unknown"
       end.

Lemma handleAgentWait_deferred s ws id p :
  waitDeferred p s = true ->
  exists run,
    runs s !! JS.nullish (Params.runId p) "" = Some run
    /\ Run.state run = Running
    /\ timers (handleAgentWait ws id p s) !! S (timerCounter s) = Some (WaitTimer ws id)
    /\ runs (handleAgentWait ws id p s) !! Run.runId run
       = Some (Run.setWaiters
                 (Run.waitResolvers run ++ [SocketWaiter ws id (S (timerCounter s))]) run).
Proof.
  unfold waitDeferred, handleAgentWait.
  destruct (JS.truthy (Params.runId p)); [|discriminate]. cbn [andb negb].
  destruct (runs s !! _) as [run|]; [|discriminate].
  intros Hrun. rewrite Hrun. cbn [negb]. cbv zeta. exists run.
  split; [reflexivity|]. split.
  - unfold isRunning in Hrun. now destruct (Run.state run).
  - cbn [timers runs with_runs with_timers with_timerCounter timerCounter].
    split; apply lookup_insert_eq.
Qed.


End Answers.

(** The client of [Scenario.handshake] starts a run and waits for it: the
    first frame is answered, the second is not. *)
Example wait_on_running_run_is_deferred :
  deferred Scenario.connected 1
    (Scenario.request "r1" "agent" (Scenario.sendParams None "hello" "k1")) = false
  /\ deferred
       (handleMessage Scenario.noTools 2 1
          (Scenario.request "r1" "agent" (Scenario.sendParams None "hello" "k1"))
          Scenario.connected) 1
       (Scenario.request "r2" "agent.wait" (Scenario.waitParams "run_1" 10)) = true.
Proof. split; vm_compute; reflexivity. Qed.

(** The JSON text [null] is the frame without an answer, for a connected
    client as for any other; malformed JSON is answered. *)
Example null_is_the_unanswered_frame :
  unanswered Scenario.connected (mkRaw 4 JsonNull) = true
  /\ unanswered Scenario.connected (mkRaw 4 SyntaxError) = false
  /\ unanswered Scenario.connected
       (Scenario.request "r1" "agent" (Scenario.sendParams None "hello" "k1")) = false.
Proof. repeat split; vm_compute; reflexivity. Qed.

(* ===================================================================== *)
(** * The greeting *)
(* ===================================================================== *)

Definition greetingEntry (now : Z) (text : string) : HistoryEntry :=
  mkHistoryEntry RAssistant [TextPart text] now (Some "end_turn") None None.

Definition historyLimit (limit : option Z) : Z := Z.min (JS.nullish limit 50) 1000.

Definition resetParams (key : string) : Params.t :=
  Params.mk None None None None None None (Some key) None None None None None None
    None None None None.

Lemma handleChatHistory_eq s now ws id sk limit :
  sk <> "" ->
  handleChatHistory now ws id (Scenario.historyParams sk limit) s
  = let s1 := sendResponse ws id
                (PHistory sk (sliceLast (historyLimit limit) (getChatHistory s sk))) s in
    match getChatHistory s sk, greeting (config s) with
    | [], Some text =>
        if JS.truthy (Some text)
        then appendHistory now sk (greetingEntry now text)
               (send ws (Event 0 (Greeting sk text)) s1)
        else s1
    | _, _ => s1
    end.
Proof.
  intros Hsk. unfold handleChatHistory.
  change (Params.sessionKey (Scenario.historyParams sk limit)) with (Some sk).
  change (Params.limit (Scenario.historyParams sk limit)) with limit.
  rewrite (proj2 (truthy_Some sk) Hsk). reflexivity.
Qed.

Lemma getChatHistory_reset s ws id sk :
  getChatHistory (handleSessionsReset ws id (resetParams sk) s) sk = [].
Proof.
  unfold handleSessionsReset, getChatHistory, resetParams. cbn.
  now rewrite lookup_delete_eq.
Qed.

(** X20: with a greeting configured, [chat.history] on a session whose
    history is empty answers with no messages, then sends the greeting to
    the requesting socket alone, as an event outside the global sequence,
    and stores it as the first entry of the session.  On a session with a
    history it sends the response and nothing else, and changes no history.
    So the next [chat.history] returns the stored greeting and sends none;
    but once [sessions.reset] has emptied the session, the greeting is sent
    again. *)
Theorem greeting_sent_whenever_history_is_empty
    (s : Server) (now now' : Z) (ws : nat) (id id' id'' sk text : string)
    (limit : option Z)
    (Hsk : sk <> "")
    (Hgreeting : greeting (config s) = Some text)
    (Htext : text <> "") :
  let ask := fun now id s => handleChatHistory now ws id (Scenario.historyParams sk limit) s in
  (getChatHistory s sk = [] ->
   wire (ask now id s)
   = wire s ++ [Send ws (ResOk id (PHistory sk []));
                Send ws (Event 0 (Greeting sk text))]
   /\ getChatHistory (ask now id s) sk = [greetingEntry now text]
   /\ globalSeq (ask now id s) = globalSeq s)
  /\ (getChatHistory s sk <> [] ->
      wire (ask now id s)
      = wire s ++ [Send ws (ResOk id (PHistory sk
                     (sliceLast (historyLimit limit) (getChatHistory s sk))))]
      /\ chatHistory (ask now id s) = chatHistory s)
  /\ (let again := ask now' id' (handleSessionsReset ws id'' (resetParams sk) (ask now id s)) in
      exists before,
        wire again
        = before ++ [Send ws (ResOk id'' (PReset sk));
                     Send ws (ResOk id' (PHistory sk []));
                     Send ws (Event 0 (Greeting sk text))]).
Proof.
  cbv zeta.
  assert (Hempty : forall x n i,
            greeting (config x) = Some text -> getChatHistory x sk = [] ->
            handleChatHistory n ws i (Scenario.historyParams sk limit) x
            = appendHistory n sk (greetingEntry n text)
                (send ws (Event 0 (Greeting sk text))
                   (sendResponse ws i (PHistory sk []) x))).
  { intros x n i Hg Hx. rewrite handleChatHistory_eq by exact Hsk. cbv zeta.
    rewrite Hx, Hg, (proj2 (truthy_Some text) Htext).
    unfold sliceLast. cbn [length drop]. now rewrite drop_nil. }
  assert (Hconfig : forall x n i,
            config (handleChatHistory n ws i (Scenario.historyParams sk limit) x) = config x).
  { intros x n i. rewrite handleChatHistory_eq by exact Hsk. cbv zeta.
    destruct (getChatHistory x sk), (greeting (config x)) as [t|]; try reflexivity.
    destruct (JS.truthy (Some t)); [|reflexivity].
    unfold appendHistory, ensureSessionMeta. cbv zeta.
    now destruct (sessionMeta _ !! sk). }
  split; [|split].
  - intros Hs. rewrite (Hempty s now id Hgreeting Hs).
    split; [rewrite wire_appendHistory; cbn; now rewrite <- app_assoc|].
    split.
    + rewrite getChatHistory_appendHistory.
      change (getChatHistory (send _ _ (sendResponse _ _ _ s)) sk) with (getChatHistory s sk).
      now rewrite Hs.
    + unfold appendHistory, ensureSessionMeta. cbv zeta.
      now destruct (sessionMeta _ !! sk).
  - intros Hs. rewrite handleChatHistory_eq by exact Hsk. cbv zeta.
    destruct (getChatHistory s sk) as [|e h] eqn:Hh; [contradiction|]. split; reflexivity.
  - set (x := handleSessionsReset ws id''  (resetParams sk)
                (handleChatHistory now ws id (Scenario.historyParams sk limit) s)).
    rewrite (Hempty x now' id').
    + rewrite wire_appendHistory. subst x.
      exists (wire (handleChatHistory now ws id (Scenario.historyParams sk limit) s)).
      unfold handleSessionsReset, resetParams, send, sendResponse. cbn.
      now rewrite <- !app_assoc.
    + subst x. change (config (handleSessionsReset ?a ?b ?c ?y)) with (config y).
      now rewrite Hconfig.
    + apply getChatHistory_reset.
Qed.

Definition greets : ResolvedConfig :=
  mkConfig "" "" "2026.2.23" DEFAULT_MAX_PAYLOAD DEFAULT_DEDUPE_MAX
    DEFAULT_DEDUPE_TTL_MS (Some "Welcome!") None.

Lemma greeting_sent_whenever_history_is_empty_witness :
  wire (handleChatHistory 5 1 "h" (Scenario.historyParams "main" None)
          (newServer greets true))
  = [Send 1 (ResOk "h" (PHistory "main" []));
     Send 1 (Event 0 (Greeting "main" "Welcome!"))].
Proof.
  pose proof (greeting_sent_whenever_history_is_empty (newServer greets true) 5 6 1
                "h" "h2" "r" "main" "Welcome!" None
                ltac:(discriminate) eq_refl ltac:(discriminate)) as H.
  cbv zeta in H. destruct H as (H & _). destruct (H eq_refl) as (Hw & _). exact Hw.
Defined.

(* ===================================================================== *)
(** * Streamed tool calls of the OpenAI-compatible adapter *)
(* ===================================================================== *)

Record StreamFunction := mkStreamFunction {
  fnName : option string;
  fnArguments : option string;
}.

Record StreamToolCallDelta := mkDelta {
  deltaIndex : Z;
  deltaId : option string;
  deltaFunction : option StreamFunction;
}.

Record AccumulatedToolCall := mkAccumulated {
  accId : string;
  accName : string;
  accArguments : string;
}.

(** The [Map<number, AccumulatedToolCall>], in insertion order. *)
Definition Accumulator := list (Z * AccumulatedToolCall).

Fixpoint accGet (i : Z) (m : Accumulator) : option AccumulatedToolCall :=
  match m with
  | [] => None
  | (j, e) :: rest => if Z.eqb j i then Some e else accGet i rest
  end.

(** The entry object of key [i] is mutated where it sits. *)
Fixpoint accMutate (i : Z) (e : AccumulatedToolCall) (m : Accumulator) : Accumulator :=
  match m with
  | [] => []
  | (j, e') :: rest => if Z.eqb j i then (j, e) :: rest else (j, e') :: accMutate i e rest
  end.

(** [delta.function?.name] and [delta.function?.arguments] *)
Definition deltaName (d : StreamToolCallDelta) : option string :=
  match deltaFunction d with Some f => fnName f | None => None end.

Definition deltaArguments (d : StreamToolCallDelta) : option string :=
  match deltaFunction d with Some f => fnArguments f | None => None end.

Definition mergeDelta (entry : AccumulatedToolCall) (d : StreamToolCallDelta)
    : AccumulatedToolCall :=
  let entry :=
    if JS.truthy (deltaId d)
    then mkAccumulated (JS.nullish (deltaId d) "") (accName entry) (accArguments entry)
    else entry in
  let entry :=
    if JS.truthy (deltaName d)
    then mkAccumulated (accId entry) (accName entry +:+ JS.nullish (deltaName d) "")
           (accArguments entry)
    else entry in
  if JS.truthy (deltaArguments d)
  then mkAccumulated (accId entry) (accName entry)
         (accArguments entry +:+ JS.nullish (deltaArguments d) "")
  else entry.

(** One turn of the loop of [accumulateToolCalls]. *)
Definition accumulateDelta (accumulated : Accumulator) (d : StreamToolCallDelta)
    : Accumulator :=
  match accGet (deltaIndex d) accumulated with
  | Some entry => accMutate (deltaIndex d) (mergeDelta entry d) accumulated
  | None =>
      let entry := mkAccumulated (JS.nullish (deltaId d) "") "" "" in
      accumulated ++ [(deltaIndex d, mergeDelta entry d)]
  end.

Definition accumulateToolCalls (accumulated : Accumulator)
    (deltas : list StreamToolCallDelta) : Accumulator :=
  fold_left accumulateDelta deltas accumulated.

(** What the fragments of one tool call add up to. *)
Definition joined (fragments : list string) : string := fold_right append "" fragments.

Definition lastTruthy (ids : list (option string)) : string :=
  match last (List.filter JS.truthy ids) with
  | Some (Some id) => id
  | _ => ""
  end.

Fixpoint firstOccurrences (l : list Z) : list Z :=
  match l with
  | [] => []
  | x :: rest => x :: List.filter (fun y => negb (Z.eqb y x)) (firstOccurrences rest)
  end.

Definition assembled (ds : list StreamToolCallDelta) : AccumulatedToolCall :=
  mkAccumulated (lastTruthy (map deltaId ds))
    (joined (map (fun d => JS.nullish (deltaName d) "") ds))
    (joined (map (fun d => JS.nullish (deltaArguments d) "") ds)).

Lemma accGet_mutate i j e m :
  accGet i (accMutate j e m)
  = if Z.eqb j i then option_map (fun _ => e) (accGet i m) else accGet i m.
Proof.
  induction m as [|[k e'] m IH]; cbn [accGet accMutate]; [now destruct (Z.eqb j i)|].
  destruct (Z.eqb_spec k j) as [->|Hkj]; cbn [accGet].
  - now destruct (Z.eqb j i).
  - rewrite IH. destruct (Z.eqb_spec k i) as [->|Hki]; [|reflexivity].
    destruct (Z.eqb_spec j i); [congruence | reflexivity].
Qed.

Lemma accGet_push i j e m :
  accGet i (m ++ [(j, e)])
  = match accGet i m with
    | Some x => Some x
    | None => if Z.eqb j i then Some e else None
    end.
Proof.
  induction m as [|[k e'] m IH]; cbn [accGet app]; [reflexivity|].
  now destruct (Z.eqb k i).
Qed.

Lemma keys_mutate j e m : map fst (accMutate j e m) = map fst m.
Proof.
  induction m as [|[k e'] m IH]; cbn [accMutate map]; [reflexivity|].
  destruct (Z.eqb k j); cbn [map fst]; [reflexivity | now rewrite IH].
Qed.

Lemma accGet_keys i m : existsb (Z.eqb i) (map fst m) = bool_decide (is_Some (accGet i m)).
Proof.
  induction m as [|[k e'] m IH]; cbn [accGet map existsb fst].
  - symmetry. apply bool_decide_eq_false. intros [? ?]. discriminate.
  - rewrite (Z.eqb_sym i k). destruct (Z.eqb k i); cbn [orb]; [|exact IH].
    symmetry. apply bool_decide_eq_true. eauto.
Qed.

(** The entry of one index after the deltas [ds] of that index, from the
    entry [e0] it had before (if any). *)
Definition entryAfter (e0 : option AccumulatedToolCall) (ds : list StreamToolCallDelta)
    : option AccumulatedToolCall :=
  fold_left
    (fun o d =>
       Some (mergeDelta
               (JS.nullish o (mkAccumulated (JS.nullish (deltaId d) "") "" "")) d))
    ds e0.

Lemma accGet_accumulate i ds m :
  accGet i (accumulateToolCalls m ds)
  = entryAfter (accGet i m) (List.filter (fun d => Z.eqb (deltaIndex d) i) ds).
Proof.
  unfold accumulateToolCalls, entryAfter. revert m.
  induction ds as [|d ds IH]; intros m; cbn [fold_left List.filter]; [reflexivity|].
  rewrite IH. unfold accumulateDelta.
  destruct (accGet (deltaIndex d) m) as [e|] eqn:Hd.
  - rewrite accGet_mutate. destruct (Z.eqb_spec (deltaIndex d) i) as [<-|Hne];
      cbn [fold_left]; [|reflexivity].
    now rewrite Hd.
  - rewrite accGet_push. destruct (Z.eqb_spec (deltaIndex d) i) as [<-|Hne];
      cbn [fold_left].
    + now rewrite Hd.
    + now destruct (accGet i m).
Qed.

Lemma append_cons (x : ascii) (a b : string) : String x a +:+ b = String x (a +:+ b).
Proof. reflexivity. Qed.

Lemma append_assoc_string (a b c : string) : (a +:+ b) +:+ c = a +:+ (b +:+ c).
Proof.
  induction a as [|x a IH]; [reflexivity|]. rewrite !append_cons. now rewrite IH.
Qed.

Lemma append_empty_r (a : string) : a +:+ "" = a.
Proof. induction a as [|x a IH]; [reflexivity|]. rewrite append_cons. now rewrite IH. Qed.

Lemma falsy_fragment (o : option string) : JS.truthy o = false -> JS.nullish o "" = "".
Proof.
  destruct o as [t|]; cbn; [|reflexivity].
  destruct (String.eqb_spec t ""); [auto | discriminate].
Qed.

Lemma mergeDelta_fields e d :
  mergeDelta e d
  = mkAccumulated
      (if JS.truthy (deltaId d) then JS.nullish (deltaId d) "" else accId e)
      (accName e +:+ JS.nullish (deltaName d) "")
      (accArguments e +:+ JS.nullish (deltaArguments d) "").
Proof.
  unfold mergeDelta. cbv zeta.
  destruct (JS.truthy (deltaId d)); destruct (JS.truthy (deltaName d)) eqn:Hn;
    destruct (JS.truthy (deltaArguments d)) eqn:Ha; cbn [accId accName accArguments];
    rewrite ?(falsy_fragment _ Hn), ?(falsy_fragment _ Ha), ?append_empty_r;
    now destruct e.
Qed.

Lemma lastTruthy_cons o ids :
  lastTruthy (o :: ids)
  = match List.filter JS.truthy ids with
    | [] => if JS.truthy o then JS.nullish o "" else ""
    | _ :: _ => lastTruthy ids
    end.
Proof.
  unfold lastTruthy. cbn [List.filter]. destruct (JS.truthy o) eqn:Ho.
  - destruct (List.filter JS.truthy ids) as [|x l]; [now destruct o|].
    reflexivity.
  - now destruct (List.filter JS.truthy ids).
Qed.

Lemma fold_mergeDelta ds e :
  fold_left mergeDelta ds e
  = mkAccumulated
      (match List.filter JS.truthy (map deltaId ds) with
       | [] => accId e
       | _ :: _ => lastTruthy (map deltaId ds)
       end)
      (accName e +:+ joined (map (fun d => JS.nullish (deltaName d) "") ds))
      (accArguments e +:+ joined (map (fun d => JS.nullish (deltaArguments d) "") ds)).
Proof.
  revert e. induction ds as [|d ds IH]; intros e; cbn [fold_left map joined fold_right].
  - cbn. rewrite !append_empty_r. now destruct e.
  - rewrite IH, mergeDelta_fields. cbn [accId accName accArguments].
    rewrite !append_assoc_string. f_equal.
    rewrite lastTruthy_cons. cbn [List.filter].
    destruct (JS.truthy (deltaId d)); destruct (List.filter JS.truthy (map deltaId ds));
      reflexivity.
Qed.

Lemma entryAfter_some e ds : entryAfter (Some e) ds = Some (fold_left mergeDelta ds e).
Proof.
  unfold entryAfter. revert e. induction ds as [|d ds IH]; intros e; cbn [fold_left];
    [reflexivity|].
  cbn [JS.nullish]. apply IH.
Qed.

Lemma entryAfter_none ds :
  entryAfter None ds = match ds with [] => None | _ :: _ => Some (assembled ds) end.
Proof.
  destruct ds as [|d ds]; [reflexivity|].
  unfold entryAfter. cbn [fold_left JS.nullish]. fold (entryAfter (Some (mergeDelta (mkAccumulated (JS.nullish (deltaId d) "") "" "") d)) ds).
  rewrite entryAfter_some, fold_mergeDelta, mergeDelta_fields.
  cbn [accId accName accArguments]. unfold assembled. cbn [map joined fold_right].
  f_equal. f_equal.
  rewrite lastTruthy_cons.
  destruct (List.filter JS.truthy (map deltaId ds)); [|reflexivity].
  destruct (deltaId d) as [t|]; cbn; [|reflexivity].
  now destruct (String.eqb_spec t "").
Qed.

Fixpoint news (seen l : list Z) : list Z :=
  match l with
  | [] => []
  | x :: rest =>
      if existsb (Z.eqb x) seen then news seen rest else x :: news (seen ++ [x]) rest
  end.

Lemma keys_accumulate ds m :
  map fst (accumulateToolCalls m ds) = map fst m ++ news (map fst m) (map deltaIndex ds).
Proof.
  unfold accumulateToolCalls. revert m.
  induction ds as [|d ds IH]; intros m; cbn [fold_left map news].
  - now rewrite app_nil_r.
  - rewrite IH. unfold accumulateDelta. rewrite accGet_keys.
    destruct (accGet (deltaIndex d) m) as [e|] eqn:Hd.
    + rewrite keys_mutate. rewrite bool_decide_eq_true_2 by eauto. reflexivity.
    + rewrite bool_decide_eq_false_2 by (intros [? ?]; discriminate).
      rewrite map_app. cbn [map fst]. now rewrite <- app_assoc.
Qed.

Lemma filter_filter_Z (f g : Z -> bool) l :
  List.filter f (List.filter g l) = List.filter (fun y => g y && f y) l.
Proof.
  induction l as [|x l IH]; cbn [List.filter]; [reflexivity|].
  destruct (g x); cbn [List.filter andb]; [|exact IH].
  destruct (f x); now rewrite IH.
Qed.

Lemma news_filter seen l :
  news seen l
  = List.filter (fun y => negb (existsb (Z.eqb y) seen)) (firstOccurrences l).
Proof.
  revert seen. induction l as [|x l IH]; intros seen; cbn [news firstOccurrences List.filter];
    [reflexivity|].
  destruct (existsb (Z.eqb x) seen) eqn:Hx; cbn [negb].
  - rewrite IH, filter_filter_Z. apply List.filter_ext. intros y.
    destruct (Z.eqb_spec y x) as [->|Hne]; cbn [negb andb]; [now rewrite Hx | reflexivity].
  - f_equal. rewrite IH, filter_filter_Z. apply List.filter_ext. intros y.
    rewrite existsb_app. cbn [existsb]. rewrite orb_false_r, negb_orb. apply andb_comm.
Qed.

(** X21: [accumulateToolCalls] puts the fragments of a streamed tool call
    together by index, whatever the interleaving: starting from an empty
    map, the entries come in the order in which their indices first
    appeared, one for each index; the entry of an index has the name and
    the arguments that the deltas of that index spell when their fragments
    are joined in arrival order, and as id the last non-empty id among
    them (the empty string when there is none). *)
Theorem tool_call_fragments_assembled_by_index (deltas : list StreamToolCallDelta) :
  let result := accumulateToolCalls [] deltas in
  map fst result = firstOccurrences (map deltaIndex deltas)
  /\ forall i,
       accGet i result
       = match List.filter (fun d => Z.eqb (deltaIndex d) i) deltas with
         | [] => None
         | d :: ds => Some (assembled (d :: ds))
         end.
Proof.
  cbv zeta. split.
  - rewrite keys_accumulate, news_filter. cbn [map app existsb negb].
    induction (firstOccurrences (map deltaIndex deltas)) as [|x l IH]; [reflexivity|].
    cbn [List.filter]. now rewrite IH.
  - intros i. rewrite accGet_accumulate. cbn [accGet]. rewrite entryAfter_none.
    now destruct (List.filter _ deltas).
Qed.

(** Two calls streamed in turns: the name first, the arguments in pieces. *)
Example two_tool_calls_interleaved :
  accumulateToolCalls []
    [mkDelta 1 (Some "call_b") (Some (mkStreamFunction (Some "echo") None));
     mkDelta 0 (Some "call_a") (Some (mkStreamFunction (Some "web_search") (Some "{")));
     mkDelta 1 None (Some (mkStreamFunction None (Some "{}")));
     mkDelta 0 None (Some (mkStreamFunction None (Some "}")))]
  = [(1, mkAccumulated "call_b" "echo" "{}");
     (0, mkAccumulated "call_a" "web_search" "{}")].
Proof. reflexivity. Qed.

(* ===================================================================== *)
(** * One idempotency cache for three methods *)
(* ===================================================================== *)

(** The methods that take an idempotency key, with the other parameters
    each of them requires. *)
Definition keyed (h : MethodHandler) (p : Params.t) : bool :=
  match h with
  | HChatSend => JS.truthy (Params.sessionKey p) && JS.truthy (Params.message p)
  | HAgent => JS.truthy (Params.message p)
  | HSend => JS.truthy (Params.to p) && JS.truthy (Params.message p)
  | _ => false
  end.

Section SharedKeys.

Variable demo : string -> list ContentPart.

Lemma isDuplicateKey_fresh now k s :
  fst (isDuplicateKey now k s) = false ->
  exists m, isDuplicateKey now k s = (false, with_idempotencyKeys m s).
Proof.
  unfold isDuplicateKey. destruct (Dedupe.isDuplicateKey _ _ _ _) as [dup m].
  cbn [fst]. intros ->. now exists m.
Qed.

Lemma recorded now k x :
  Dedupe.get k (idempotencyKeys (recordIdempotencyKey now k x)) = Some now
  /\ config (recordIdempotencyKey now k x) = config x.
Proof. split; [apply DedupeFacts.record_get | reflexivity]. Qed.

Lemma cacheOf_get k s x v c :
  cacheOf s = cacheOf x -> Dedupe.get k (idempotencyKeys x) = v /\ config x = c ->
  Dedupe.get k (idempotencyKeys s) = v /\ config s = c.
Proof. unfold cacheOf. now intros [= -> ->]. Qed.

Lemma key_recorded h now ws id p k s :
  keyed h p = true -> Params.idempotencyKey p = Some k -> k <> "" ->
  fst (isDuplicateKey now k s) = false ->
  Dedupe.get k (idempotencyKeys (callHandler demo now h ws id p s)) = Some now
  /\ config (callHandler demo now h ws id p s) = config s.
Proof.
  intros Hkeyed Hk Hk' Hfresh. apply truthy_Some in Hk'.
  destruct (isDuplicateKey_fresh now k s Hfresh) as (m & Hprobe).
  destruct h; try discriminate; cbn [keyed callHandler] in *.
  - (* agent *)
    unfold handleAgent. rewrite Hkeyed, Hk, Hk'. cbn [negb orb JS.nullish].
    rewrite Hprobe. cbv zeta.
    match goal with |- context [createRun ?a ?b ?y] =>
      pose proof (cache_createRun a b y) as Hc; destruct (createRun a b y) as [x2 rid] end.
    cbn [fst] in Hc.
    eapply cacheOf_get.
    + rewrite (cache_executeRun demo), cache_sendResponse, Hc, cache_ensureSessionMeta.
      reflexivity.
    + exact (recorded now k (with_idempotencyKeys m s)).
  - (* chat.send *)
    apply andb_true_iff in Hkeyed as [Hsk Hmsg].
    unfold handleChatSend. rewrite Hsk, Hmsg, Hk, Hk'. cbn [negb orb JS.nullish].
    rewrite Hprobe. cbv zeta.
    match goal with |- context [createRun ?a ?b ?y] =>
      pose proof (cache_createRun a b y) as Hc; destruct (createRun a b y) as [x2 rid] end.
    cbn [fst] in Hc.
    eapply cacheOf_get.
    + rewrite (cache_executeRun demo), cache_send, cache_appendHistory, Hc,
        cache_ensureSessionMeta.
      reflexivity.
    + exact (recorded now k (with_idempotencyKeys m s)).
  - (* send *)
    apply andb_true_iff in Hkeyed as [Hto Hmsg].
    unfold handleSend. rewrite Hto, Hmsg, Hk, Hk'. cbn [negb orb JS.nullish].
    rewrite Hprobe. cbv zeta.
    eapply cacheOf_get; [apply cache_sendResponse | exact (recorded now k (with_idempotencyKeys m s))].
Qed.

Lemma isDuplicateKey_cached now k ts x :
  Dedupe.get k (idempotencyKeys x) = Some ts -> now - ts <= dedupeTtlMs (config x) ->
  isDuplicateKey now k x = (true, x).
Proof.
  intros Hget Hage. unfold isDuplicateKey, Dedupe.isDuplicateKey. rewrite Hget.
  destruct (Z.gtb_spec (now - ts) (dedupeTtlMs (config x))); [lia|].
  now rewrite with_idempotencyKeys_id.
Qed.

Lemma key_refused h now ws id p k ts x :
  keyed h p = true -> Params.idempotencyKey p = Some k -> k <> "" ->
  Dedupe.get k (idempotencyKeys x) = Some ts -> now - ts <= dedupeTtlMs (config x) ->
  callHandler demo now h ws id p x
  = sendError ws id "INVALID_REQUEST" "Duplicate idempotency key" x.
Proof.
  intros Hkeyed Hk Hk' Hget Hage. apply truthy_Some in Hk'.
  pose proof (isDuplicateKey_cached now k ts x Hget Hage) as Hprobe.
  destruct h; try discriminate; cbn [keyed callHandler] in *.
  - unfold handleAgent. rewrite Hkeyed, Hk, Hk'. cbn [negb orb JS.nullish].
    now rewrite Hprobe.
  - apply andb_true_iff in Hkeyed as [Hsk Hmsg].
    unfold handleChatSend. rewrite Hsk, Hmsg, Hk, Hk'. cbn [negb orb JS.nullish].
    now rewrite Hprobe.
  - apply andb_true_iff in Hkeyed as [Hto Hmsg].
    unfold handleSend. rewrite Hto, Hmsg, Hk, Hk'. cbn [negb orb JS.nullish].
    now rewrite Hprobe.
Qed.


End SharedKeys.

Definition sendTo (to message key : string) : Params.t :=
  Params.mk None (Some message) (Some key) None None None None None (Some to)
    None None None None None None None None.


(** With room for two keys, the third request pushes the first key out: a
    request with that key is then accepted again, well within the TTL. *)
Example evicted_key_is_accepted_again :
  let s := exec Scenario.noTools (newServer smallCache true) threeSends in
  Dedupe.get "K1" (idempotencyKeys s) = None
  /\ fst (isDuplicateKey 5 "K1" s) = false
  /\ 5 - 2 <= dedupeTtlMs (config s).
Proof. vm_compute. repeat split; discriminate. Qed.

(* ===================================================================== *)
(** * Tools of MCP servers *)
(* ===================================================================== *)

(** [s.indexOf(needle)], [None] for -1 *)
Fixpoint indexOfString (needle s : string) : option nat :=
  if JS.startsWith s needle then Some 0%nat
  else match s with
       | EmptyString => None
       | String _ rest => option_map S (indexOfString needle rest)
       end.

Record McpTool := mkMcpTool {
  toolName : string;
  toolDescription : option string;
  toolInputSchema : option string;
}.

Record OllamaTool := mkOllamaTool {
  ollamaToolName : string;
  ollamaToolDescription : string;
  ollamaToolParameters : string;
}.

(** [McpClientManager.servers], a map in insertion order *)
Definition McpServers := list (string * list McpTool).

Fixpoint serversGet (name : string) (servers : McpServers) : option (list McpTool) :=
  match servers with
  | [] => None
  | (n, tools) :: rest => if String.eqb n name then Some tools else serversGet name rest
  end.

(** [getOllamaTools] *)
Definition getOllamaTools (servers : McpServers) : list OllamaTool :=
  flat_map
    (fun '(serverName, tools) =>
       map (fun tool =>
              mkOllamaTool (serverName +:+ "__" +:+ toolName tool)
                (JS.nullish (toolDescription tool) "")
                (JS.nullish (toolInputSchema tool) "{ type: object, properties: {} }"))
           tools)
    servers.

(** [callTool] up to the call of the server's client *)
Inductive CallRoute :=
| NotNamespaced
| ServerNotFound (serverName : string)
| CallClient (serverName toolName : string).

Definition callTool (servers : McpServers) (namespacedName : string) : CallRoute :=
  match indexOfString "__" namespacedName with
  | None => NotNamespaced
  | Some separatorIndex =>
      let serverName := JS.sliceTo separatorIndex namespacedName in
      let toolName := JS.sliceFrom (separatorIndex + 2) namespacedName in
      match serversGet serverName servers with
      | None => ServerNotFound serverName
      | Some _ => CallClient serverName toolName
      end
  end.

Lemma prefix_cons a s b r :
  String.prefix (String a s) (String b r)
  = if Ascii.ascii_dec a b then String.prefix s r else false.
Proof. reflexivity. Qed.

Lemma prefix_empty r : String.prefix "" r = true.
Proof. now destruct r. Qed.

Lemma prefix_separator c d r :
  String.prefix "__" (String c (String d r)) = Ascii.eqb c "_" && Ascii.eqb d "_".
Proof.
  rewrite prefix_cons. destruct (Ascii.ascii_dec "_" c) as [<-|Hc].
  - rewrite prefix_cons, Ascii.eqb_refl. destruct (Ascii.ascii_dec "_" d) as [<-|Hd].
    + now rewrite prefix_empty, Ascii.eqb_refl.
    + symmetry. apply Ascii.eqb_neq. congruence.
  - symmetry. apply andb_false_iff. left. apply Ascii.eqb_neq. congruence.
Qed.

Lemma indexOfString_separator name rest :
  indexOfString "__" (name +:+ "_") = None ->
  indexOfString "__" (name +:+ "__" +:+ rest) = Some (String.length name).
Proof.
  induction name as [|c name IH].
  - intros _. change ("" +:+ "__" +:+ rest) with (String "_" (String "_" rest)).
    cbn [indexOfString]. unfold JS.startsWith. now rewrite prefix_separator.
  - rewrite (append_cons c name "_"), (append_cons c name ("__" +:+ rest)).
    cbn [indexOfString String.length]. unfold JS.startsWith.
    destruct (String.prefix "__" (String c (name +:+ "_"))) eqn:Hp; [discriminate|].
    destruct (indexOfString "__" (name +:+ "_")) eqn:Hi; [discriminate|]. intros _.
    assert (Hp' : String.prefix "__" (String c (name +:+ "__" +:+ rest)) = false).
    { destruct name as [|d name].
      - change ("" +:+ "_") with (String "_" "") in Hp.
        change ("" +:+ "__" +:+ rest) with (String "_" (String "_" rest)).
        rewrite prefix_separator in Hp |- *. exact Hp.
      - rewrite append_cons in Hp |- *. rewrite prefix_separator in Hp |- *. exact Hp. }
    rewrite Hp'. now rewrite IH.
Qed.

Lemma serversGet_In name servers tools :
  serversGet name servers = Some tools -> In (name, tools) servers.
Proof.
  induction servers as [|[n t] servers IH]; cbn [serversGet]; [discriminate|].
  destruct (String.eqb_spec n name) as [->|Hne].
  - intros [= ->]. now left.
  - intros H. right. now apply IH.
Qed.

(** X23: a tool that [getOllamaTools] offers under the name
    "server__tool" is routed back by [callTool] to that server and that
    tool, provided the server's name holds no "__" and does not end in
    "_": [callTool] splits at the first "__". *)
Theorem namespaced_tool_is_routed_back
    (servers : McpServers) (serverName : string) (tools : list McpTool) (tool : McpTool)
    (Hserver : serversGet serverName servers = Some tools)
    (Htool : In tool tools)
    (Hname : indexOfString "__" (serverName +:+ "_") = None) :
  In (serverName +:+ "__" +:+ toolName tool) (map ollamaToolName (getOllamaTools servers))
  /\ callTool servers (serverName +:+ "__" +:+ toolName tool)
     = CallClient serverName (toolName tool).
Proof.
  split.
  - apply in_map_iff.
    exists (mkOllamaTool (serverName +:+ "__" +:+ toolName tool)
              (JS.nullish (toolDescription tool) "")
              (JS.nullish (toolInputSchema tool) "{ type: object, properties: {} }")).
    split; [reflexivity|]. unfold getOllamaTools. apply in_flat_map.
    exists (serverName, tools). split; [now apply serversGet_In|].
    apply in_map_iff. now exists tool.
  - unfold callTool. rewrite (indexOfString_separator _ _ Hname). cbv zeta.
    rewrite sliceTo_append, Hserver. f_equal.
    replace (String.length serverName + 2)%nat with (String.length (serverName +:+ "__")).
    + rewrite <- append_assoc_string. apply sliceFrom_append.
    + clear. induction serverName as [|c n IH]; [reflexivity|].
      rewrite append_cons. cbn [String.length]. now rewrite IH.
Qed.

Definition oneServer : McpServers :=
  [("files", [mkMcpTool "read" (Some "Read a file") None; mkMcpTool "list_dir" None None])].

Lemma namespaced_tool_is_routed_back_witness :
  callTool oneServer "files__list_dir" = CallClient "files" "list_dir".
Proof.
  exact (proj2 (namespaced_tool_is_routed_back oneServer "files"
                  [mkMcpTool "read" (Some "Read a file") None; mkMcpTool "list_dir" None None]
                  (mkMcpTool "list_dir" None None)
                  eq_refl (or_intror (or_introl eq_refl)) eq_refl)).
Defined.

(** A server whose name ends in "_" offers a tool that [callTool] then
    looks for on another server. *)
Example tool_of_server_ending_in_underscore_is_misrouted :
  map ollamaToolName (getOllamaTools [("a_", [mkMcpTool "x" None None])]) = ["a___x"]
  /\ callTool [("a_", [mkMcpTool "x" None None])] "a___x" = ServerNotFound "a".
Proof. split; reflexivity. Qed.

(* ===================================================================== *)
(** * Slash commands on the wire *)
(* ===================================================================== *)

Section SlashOnTheWire.

Variable demo : string -> list ContentPart.

Lemma handleSlashCommand_frame run lower s :
  clients (fst (handleSlashCommand run lower s)) = clients s
  /\ globalSeq (fst (handleSlashCommand run lower s)) = globalSeq s.
Proof. unfold handleSlashCommand. split_cases; split; reflexivity. Qed.

Lemma globalSeq_appendHistory now k e x : globalSeq (appendHistory now k e x) = globalSeq x.
Proof.
  unfold appendHistory, ensureSessionMeta. cbv zeta. now destruct (sessionMeta _ !! _).
Qed.

Lemma clients_appendHistory now k e x : clients (appendHistory now k e x) = clients x.
Proof.
  unfold appendHistory, ensureSessionMeta. cbv zeta. now destruct (sessionMeta _ !! _).
Qed.

(** The frames of a broadcast. *)
Definition toClients (s : Server) (n : nat) (b : EventBody) : list Wire :=
  map (fun c => Send c (Event n b)) (clients s).

(** The content of the chat events of a run that answers [text]. *)
Definition chatContent (run : Run.t) (text : string) : list ContentPart :=
  (if String.eqb (Run.accumulatedThinking run) "" then []
   else [ThinkingPart (Run.accumulatedThinking run)])
  ++ [TextPart text].

Lemma wire_broadcast b x :
  wire (broadcast b x) = wire x ++ toClients x (S (globalSeq x)) b.
Proof. reflexivity. Qed.

Lemma globalSeq_broadcast b x : globalSeq (broadcast b x) = S (globalSeq x).
Proof. reflexivity. Qed.

Lemma clients_broadcast b x : clients (broadcast b x) = clients x.
Proof. reflexivity. Qed.

Lemma runs_broadcast b x : runs (broadcast b x) = runs x.
Proof. reflexivity. Qed.

Lemma wire_with_runs v x : wire (with_runs v x) = wire x.
Proof. reflexivity. Qed.

Lemma globalSeq_with_runs v x : globalSeq (with_runs v x) = globalSeq x.
Proof. reflexivity. Qed.

Lemma clients_with_runs v x : clients (with_runs v x) = clients x.
Proof. reflexivity. Qed.

Lemma runs_with_runs v x : runs (with_runs v x) = v.
Proof. reflexivity. Qed.

Lemma wire_with_sessionMeta v x : wire (with_sessionMeta v x) = wire x.
Proof. reflexivity. Qed.

Lemma globalSeq_with_sessionMeta v x : globalSeq (with_sessionMeta v x) = globalSeq x.
Proof. reflexivity. Qed.

Lemma runs_with_sessionMeta v x : runs (with_sessionMeta v x) = runs x.
Proof. reflexivity. Qed.

Lemma globalSeq_resolveWaiters rid st text waiters x :
  globalSeq (fold_left (resolveWaiter rid st text) waiters x) = globalSeq x.
Proof.
  revert x. induction waiters as [|w waiters IH]; intros x; cbn [fold_left]; [reflexivity|].
  rewrite IH. now destruct w.
Qed.

Lemma toClients_same x y n b : clients y = clients x -> toClients y n b = toClients x n b.
Proof. unfold toClients. now intros ->. Qed.

(** [finishRun] as completed, on the wire and in the run table. *)
Lemma finishRun_completed_frames x now rid r parts :
  runs x !! rid = Some r ->
  let x' := finishRun demo now rid FinCompleted None parts x in
  wire x'
  = wire x
    ++ toClients x (S (globalSeq x))
         (AgentEvent rid (Run.sessionKey r) (S (Run.seq r)) "lifecycle" LifecycleEnd)
    ++ toClients x (S (S (globalSeq x)))
         (ChatMessage rid (Run.sessionKey r) (S (Run.seq r)) Final
            (chatContent r (Run.accumulatedText r)))
    ++ socketReplies rid Completed (Run.accumulatedText r) (Run.waitResolvers r)
  /\ globalSeq x' = S (S (globalSeq x))
  /\ runs x' !! rid
     = Some (Run.setWaiters [] (Run.setSeq (S (Run.seq r)) (Run.setState Completed r))).
Proof.
  intros Hr. cbv zeta. unfold finishRun. rewrite Hr.
  change (runStateOf FinCompleted) with Completed.
  rewrite (emitAgentEvent_eq rid "lifecycle" LifecycleEnd _ (Run.setState Completed r))
    by (rewrite runs_with_runs; apply lookup_insert_eq).
  rewrite (emitChatEvent_message_eq rid Final _ _
             (Run.setSeq (S (Run.seq r)) (Run.setState Completed r)))
    by (try discriminate; rewrite runs_broadcast, runs_with_runs; apply lookup_insert_eq).
  rewrite wire_with_runs, globalSeq_with_runs, runs_with_runs.
  match goal with |- context [fold_left _ ?w ?y] =>
    destruct (resolveWaiters_spec rid Completed (Run.accumulatedText r) w y)
      as (Hw & _ & _ & Hruns & _);
    pose proof (globalSeq_resolveWaiters rid Completed (Run.accumulatedText r) w y) as Hg
  end.
  cbv zeta in Hw, Hruns. rewrite Hw, Hruns, Hg.
  rewrite wire_with_sessionMeta, globalSeq_with_sessionMeta, runs_with_sessionMeta.
  rewrite wire_appendHistory, globalSeq_appendHistory, runs_appendHistory.
  rewrite !wire_broadcast, !globalSeq_broadcast, !runs_broadcast.
  rewrite wire_with_runs, globalSeq_with_runs, runs_with_runs.
  rewrite (toClients_same x (broadcast _ _)) by reflexivity.
  rewrite (toClients_same x (with_runs _ _)) by reflexivity.
  split; [now rewrite <- !app_assoc|]. split; [reflexivity|].
  rewrite !runs_with_runs, lookup_alter_eq, lookup_insert_eq. reflexivity.
Qed.

(** The start of a slash-command run, up to [finishRun]. *)
Lemma slashRun_started x now rid r text e :
  runs x !! rid = Some r ->
  let x' := appendHistory now (Run.sessionKey r) e
              (emitChatEvent rid Delta text
                 (setAccumulatedText rid text
                    (emitAgentEvent rid "lifecycle" LifecycleStart x))) in
  wire x'
  = wire x
    ++ toClients x (S (globalSeq x))
         (AgentEvent rid (Run.sessionKey r) (S (Run.seq r)) "lifecycle" LifecycleStart)
    ++ toClients x (S (S (globalSeq x)))
         (ChatMessage rid (Run.sessionKey r) (S (Run.seq r)) Delta (chatContent r text))
  /\ globalSeq x' = S (S (globalSeq x))
  /\ clients x' = clients x
  /\ runs x' !! rid = Some (Run.setText text (Run.setSeq (S (Run.seq r)) r)).
Proof.
  intros Hr. cbv zeta.
  rewrite wire_appendHistory, globalSeq_appendHistory, clients_appendHistory,
    runs_appendHistory.
  rewrite (emitAgentEvent_eq rid "lifecycle" LifecycleStart x r Hr).
  unfold setAccumulatedText.
  rewrite (emitChatEvent_message_eq rid Delta text _
             (Run.setText text (Run.setSeq (S (Run.seq r)) r)))
    by (try discriminate; rewrite runs_with_runs, runs_broadcast, runs_with_runs;
        now rewrite lookup_alter_eq, lookup_insert_eq).
  do 3 rewrite ?wire_broadcast, ?globalSeq_broadcast, ?clients_broadcast, ?runs_broadcast,
    ?wire_with_runs, ?globalSeq_with_runs, ?clients_with_runs, ?runs_with_runs.
  rewrite (toClients_same x (with_runs _ (broadcast _ _))) by reflexivity.
  rewrite (toClients_same x (with_runs _ x)) by reflexivity.
  split; [now rewrite <- !app_assoc|]. repeat split.
  now rewrite lookup_alter_eq, lookup_insert_eq.
Qed.

(** X24: a run whose trimmed message starts with "/" never reaches the
    adapter: [executeRun] answers it in one step.  It broadcasts, as the
    next four events of the global sequence, the lifecycle start and the
    chat delta with the reply (per-run sequence number n+1), then the
    lifecycle end and the chat final with the same reply (n+2); it answers
    the waiters of the run with the state "completed" and the reply, and
    leaves the run completed, holding the reply as its text and no
    waiter. *)
Theorem slash_command_answered_in_one_step
    (s : Server) (now : Z) (rid : string) (run : Run.t)
    (Hrun : runs s !! rid = Some run)
    (Hslash : JS.startsWith (JS.toLowerCase (JS.trim (Run.message run))) "/" = true) :
  let sk := Run.sessionKey run in
  let n := Run.seq run in
  let g := globalSeq s in
  let s' := executeRun demo now rid s in
  exists text,
    wire s'
    = wire s
      ++ toClients s (g + 1) (AgentEvent rid sk (n + 1) "lifecycle" LifecycleStart)
      ++ toClients s (g + 2) (ChatMessage rid sk (n + 1) Delta (chatContent run text))
      ++ toClients s (g + 3) (AgentEvent rid sk (n + 2) "lifecycle" LifecycleEnd)
      ++ toClients s (g + 4) (ChatMessage rid sk (n + 2) Final (chatContent run text))
      ++ socketReplies rid Completed text (Run.waitResolvers run)
    /\ globalSeq s' = (g + 4)%nat
    /\ exists run',
         runs s' !! rid = Some run'
         /\ Run.state run' = Completed
         /\ Run.accumulatedText run' = text
         /\ Run.seq run' = (n + 2)%nat
         /\ Run.waitResolvers run' = [].
Proof.
  cbv zeta. unfold executeRun. rewrite Hrun. cbv zeta. rewrite Hslash.
  destruct (handleSlashCommand_spec run (JS.toLowerCase (JS.trim (Run.message run))) s)
    as (s0 & result & E & _ & Hruns & _).
  pose proof (wire_handleSlashCommand run (JS.toLowerCase (JS.trim (Run.message run))) s)
    as Hwire.
  destruct (handleSlashCommand_frame run (JS.toLowerCase (JS.trim (Run.message run))) s)
    as [Hclients Hseq].
  rewrite E in Hwire, Hclients, Hseq |- *. cbn [fst] in Hwire, Hclients, Hseq.
  exists (slashText result).
  assert (H0 : runs s0 !! rid = Some run) by now rewrite Hruns.
  match goal with |- context [appendHistory now _ ?e _] =>
    destruct (slashRun_started s0 now rid run (slashText result) e H0)
      as (Hw1 & Hg1 & Hc1 & Hr1)
  end.
  cbv zeta in Hw1, Hg1, Hc1, Hr1.
  match goal with |- context [finishRun demo now rid FinCompleted None ?parts ?x] =>
    destruct (finishRun_completed_frames x now rid _ parts Hr1) as (Hw2 & Hg2 & Hr2)
  end.
  cbv zeta in Hw2, Hg2, Hr2.
  rewrite Hw2, Hg2, Hr2, Hw1, Hg1.
  rewrite !(toClients_same s0 _ _ _ Hc1), !(toClients_same s s0 _ _ Hclients), Hwire, Hseq.
  change (Run.accumulatedText (Run.setText (slashText result) ?r)) with (slashText result).
  change (Run.sessionKey (Run.setText ?t ?r)) with (Run.sessionKey r).
  change (Run.sessionKey (Run.setSeq ?t ?r)) with (Run.sessionKey r).
  change (Run.seq (Run.setText ?t ?r)) with (Run.seq r).
  change (Run.seq (Run.setSeq ?t ?r)) with t.
  change (Run.waitResolvers (Run.setText ?t ?r)) with (Run.waitResolvers r).
  change (Run.waitResolvers (Run.setSeq ?t ?r)) with (Run.waitResolvers r).
  change (chatContent (Run.setText (slashText result) (Run.setSeq (S (Run.seq run)) run))
            (slashText result))
    with (chatContent run (slashText result)).
  replace (globalSeq s + 1)%nat with (S (globalSeq s)) by lia.
  replace (globalSeq s + 2)%nat with (S (S (globalSeq s))) by lia.
  replace (globalSeq s + 3)%nat with (S (S (S (globalSeq s)))) by lia.
  replace (globalSeq s + 4)%nat with (S (S (S (S (globalSeq s))))) by lia.
  replace (Run.seq run + 1)%nat with (S (Run.seq run)) by lia.
  replace (Run.seq run + 2)%nat with (S (S (Run.seq run))) by lia.
  split; [now rewrite <- !app_assoc|]. split; [reflexivity|].
  eexists. split; [reflexivity|]. repeat split.
Qed.

End SlashOnTheWire.

Lemma slash_command_answered_in_one_step_witness :
  exists text,
    wire (executeRun Scenario.noTools 4 "run_1" helpRun)
    = wire helpRun
      ++ toClients helpRun (globalSeq helpRun + 1)
           (AgentEvent "run_1" "main" 1 "lifecycle" LifecycleStart)
      ++ toClients helpRun (globalSeq helpRun + 2)
           (ChatMessage "run_1" "main" 1 Delta [TextPart text])
      ++ toClients helpRun (globalSeq helpRun + 3)
           (AgentEvent "run_1" "main" 2 "lifecycle" LifecycleEnd)
      ++ toClients helpRun (globalSeq helpRun + 4)
           (ChatMessage "run_1" "main" 2 Final [TextPart text]).
Proof.
  destruct (slash_command_answered_in_one_step Scenario.noTools helpRun 4 "run_1"
              (Run.mk "run_1" "main" " /Help " 0 Running "" "" false [])
              ltac:(vm_compute; reflexivity) eq_refl) as (text & Hw & _).
  exists text. cbn zeta in Hw. rewrite Hw. cbn [socketReplies Run.waitResolvers omap].
  now rewrite app_nil_r.
Defined.

(* ===================================================================== *)
(** * Closing a connection *)
(* ===================================================================== *)

Definition sentTo (ws : nat) (w : Wire) : bool :=
  match w with
  | Send c _ => Nat.eqb c ws
  | Close c _ _ => Nat.eqb c ws
  end.

Lemma clients_clearHandshakeTimeout ws s : clients (clearHandshakeTimeout ws s) = clients s.
Proof. unfold clearHandshakeTimeout. now split_cases. Qed.

Lemma globalSeq_clearHandshakeTimeout ws s :
  globalSeq (clearHandshakeTimeout ws s) = globalSeq s.
Proof. unfold clearHandshakeTimeout. now split_cases. Qed.

Lemma presenceVersion_clearHandshakeTimeout ws s :
  presenceVersion (clearHandshakeTimeout ws s) = presenceVersion s.
Proof. unfold clearHandshakeTimeout. now split_cases. Qed.

Lemma handshakeTimeouts_clearHandshakeTimeout ws s :
  handshakeTimeouts (clearHandshakeTimeout ws s) !! ws = None.
Proof.
  unfold clearHandshakeTimeout. destruct (handshakeTimeouts s !! ws) eqn:H; [|exact H].
  cbn [handshakeTimeouts with_handshakeTimeouts with_timers]. apply lookup_delete_eq.
Qed.

Lemma handleClose_eq ws s :
  handleClose ws s
  = let s1 := clearHandshakeTimeout ws s in
    let s2 := with_clients (List.filter (fun c => negb (Nat.eqb c ws)) (clients s1)) s1 in
    if isAuthenticated s ws
    then broadcastPresence (removePresence (connId (connData s ws)) s2)
    else s2.
Proof.
  unfold handleClose. cbv zeta.
  change (isAuthenticated (with_clients ?v ?x) ws) with (isAuthenticated x ws).
  change (connData (with_clients ?v ?x) ws) with (connData x ws).
  rewrite isAuthenticated_clearHandshakeTimeout.
  unfold connData at 1. rewrite conns_clearHandshakeTimeout. reflexivity.
Qed.

